(** * Trello MCP server: rate limiter, credential manager, dispatcher and
      protocol handler, embedded from the Python sources.

    Time is a discrete wall clock counted in ticks ([Z]); [time.time()] and
    [datetime.now()] both read it.  Durations ([time_window],
    [cache_duration]) are expressed in the same unit. *)

From Stdlib Require Import ZArith QArith Lia Ascii String.
From stdpp Require Import base decidable option list strings gmap pretty.

Set Warnings "-register-all".
Local Open Scope Z_scope.

(** One second and one minute of the wall clock, in ticks (microseconds, the
    resolution of [datetime]). *)
Definition second : Z := 1000000.
Definition minute : Z := 60 * second.

(* ===================================================================== *)
(** ** Python values, exceptions and results *)
(* ===================================================================== *)

(** Values that travel through the server: decoded JSON (requests, tool
    arguments, upstream replies) and the dictionaries built from them.
    JSON numbers with a fraction are kept as rationals. *)
Inductive pyval :=
| VNone
| VBool (b : bool)
| VInt (n : Z)
| VFloat (x : Q)
| VStr (s : string)
| VList (l : list pyval)
| VDict (d : gmap string pyval).

(** Python truth value testing ([if v], [not v], [a and b]). *)
Definition truthy (v : pyval) : bool :=
  match v with
  | VNone => false
  | VBool b => b
  | VInt n => bool_decide (n ≠ 0)
  | VFloat x => negb (Qeq_bool x 0)
  | VStr s => bool_decide (s ≠ "")
  | VList l => bool_decide (l ≠ [])
  | VDict d => bool_decide (d ≠ ∅)
  end.

(** [d.get(key)] and [d.get(key, default)] on a dictionary. *)
Definition dict_get (d : gmap string pyval) (key : string) : pyval :=
  default VNone (d !! key).

Definition dict_get_default (d : gmap string pyval) (key : string)
    (dflt : pyval) : pyval :=
  default dflt (d !! key).

(** [v == s] for a string literal [s]. *)
Definition eq_str (v : pyval) (s : string) : bool :=
  match v with
  | VStr s' => bool_decide (s' = s)
  | _ => false
  end.

(** Exceptions: the client's own [TrelloAPIError(message, status_code,
    response_data)], and any other exception by class name and message. *)
Inductive exn :=
| TrelloAPIError (message : string) (status_code : option Z)
    (response_data : option string)
| PyError (cls : string) (message : string).

(** [str(e)] *)
Definition str_exn (e : exn) : string :=
  match e with
  | TrelloAPIError message _ _ => message
  | PyError _ message => message
  end.

(** How a call ends: it returns, raises, or is suspended for ever. *)
Inductive res (A : Type) :=
| Ok (a : A)
| Raise (e : exn)
| Hang.
Arguments Ok {A} a.
Arguments Raise {A} e.
Arguments Hang {A}.

(** Text.  A Python [str] is a sequence of code points; a string here holds
    its UTF-8 encoding, so a character takes one to four bytes and every
    byte but a continuation byte ([10xxxxxx]) starts one. *)
Definition code (c : ascii) : Z := Z.of_N (N_of_ascii c).

Definition is_continuation (c : ascii) : bool :=
  (128 <=? code c) && (code c <? 192).

(** [len(s)]: the number of characters. *)
Fixpoint py_len (s : string) : Z :=
  match s with
  | String c s' => (if is_continuation c then 0 else 1) + py_len s'
  | EmptyString => 0
  end.

(** The characters [str.isspace] accepts, by the length of their encoding:
    tab to carriage return, the four separators 28 to 31 and space;
    U+0085 and U+00A0; U+1680, U+2000 to U+200A, U+2028, U+2029, U+202F,
    U+205F and U+3000. *)
Definition is_space (c : ascii) : bool :=
  ((9 <=? code c) && (code c <=? 13)) || ((28 <=? code c) && (code c <=? 32)).

Definition is_space2 (a b : ascii) : bool :=
  (code a =? 194) && ((code b =? 133) || (code b =? 160)).

Definition is_space3 (a b c : ascii) : bool :=
  ((code a =? 225) && (code b =? 154) && (code c =? 128))
  || ((code a =? 226) && (code b =? 128)
      && (((128 <=? code c) && (code c <=? 138))
          || (code c =? 168) || (code c =? 169) || (code c =? 175)))
  || ((code a =? 226) && (code b =? 129) && (code c =? 159))
  || ((code a =? 227) && (code b =? 128) && (code c =? 128)).

(** [str.strip()]: whitespace is removed at both ends. *)
Fixpoint lstrip (s : string) : string :=
  match s with
  | String a s1 =>
    if is_space a then lstrip s1
    else
      match s1 with
      | String b s2 =>
        if is_space2 a b then lstrip s2
        else
          match s2 with
          | String c s3 => if is_space3 a b c then lstrip s3 else s
          | EmptyString => s
          end
      | EmptyString => s
      end
  | EmptyString => EmptyString
  end.

Fixpoint rstrip (s : string) : string :=
  match s with
  | String a s' =>
    match rstrip s' with
    | EmptyString => if is_space a then EmptyString else String a EmptyString
    | String b EmptyString =>
      if is_space2 a b then EmptyString else String a (String b EmptyString)
    | String b (String c EmptyString) =>
      if is_space3 a b c then EmptyString
      else String a (String b (String c EmptyString))
    | t => String a t
    end
  | EmptyString => EmptyString
  end.

Definition strip (s : string) : string := rstrip (lstrip s).

(** The console and the wall clock.  [stdin] holds the lines the user is
    going to type, each with the time it takes to type it; [prompts] counts
    how many times the login prompt has been shown. *)
Record console := mkConsole {
  clock : Z;
  stdin : list (Z * string);
  prompts : nat
}.

(* ===================================================================== *)
(** ** trello_client.py: [RateLimiter] *)
(* ===================================================================== *)

Module RateLimiter.
(** [self.max_requests], [self.time_window], [self.requests] and the state
    of [self._lock] (an [asyncio.Lock], which is not reentrant). *)
Record t := mk {
  max_requests : Z;
  time_window : Z;
  requests : list Z;
  _lock : bool
}.

(** [RateLimiter.__init__(max_requests=300, time_window=10)]. *)
Definition init (max_requests time_window : Z) : t :=
  mk max_requests time_window [] false.

Definition default : t := init 300 (10 * second).

Definition set_requests (reqs : list Z) (rl : t) : t :=
  mk (max_requests rl) (time_window rl) reqs (_lock rl).

Definition set_lock (b : bool) (rl : t) : t :=
  mk (max_requests rl) (time_window rl) (requests rl) b.

(** How a call to [acquire] ends.  [Recorded now]: the call returned after
    [self.requests.append(now)].  [Deadlocked]: the task is suspended on
    [self._lock] while the lock is held by a task that is itself suspended
    inside [acquire], so it is never resumed.  [ValueError]: [min] of an
    empty list.  [OutOfFuel]: the recursion budget of the model ran out. *)
Inductive outcome :=
| Recorded (now : Z)
| Deadlocked
| ValueError
| OutOfFuel.

(** [[r for r in self.requests if now - r < self.time_window]] *)
Definition prune (now : Z) (rl : t) : list Z :=
  filter (λ req_time, now - req_time < time_window rl) (requests rl).

(** Python's [min] on a list: [None] stands for the [ValueError] raised on
    an empty list. *)
Definition py_min (l : list Z) : option Z :=
  match l with
  | [] => None
  | x :: l' => Some (foldr Z.min x l')
  end.

(** [async def acquire(self)].  Calls are run one at a time on a simulated
    clock: [now] is what [time.time()] returns on entry, [asyncio.sleep(d)]
    advances the clock by [d].  The result carries the clock on exit.

    [async with self._lock] first waits for the lock; when it is already
    held on entry, its holder is suspended in the [await] below (or was
    left there by an earlier call), so the wait never ends.  The lock is
    released when the block is left, by return or by exception; a call that
    never leaves the block keeps it. *)
Fixpoint acquire (fuel : nat) (now : Z) (rl : t) : outcome * Z * t :=
  match fuel with
  | O => (OutOfFuel, now, rl)
  | S fuel' =>
    if _lock rl then (Deadlocked, now, rl)
    else
      let rl := set_lock true rl in
      let rl := set_requests (prune now rl) rl in
      if decide (max_requests rl ≤ Z.of_nat (length (requests rl))) then
        match py_min (requests rl) with
        | None => (ValueError, now, set_lock false rl)
        | Some oldest_request =>
          let wait_time := time_window rl - (now - oldest_request) in
          if decide (wait_time > 0) then
            (* await asyncio.sleep(wait_time); return await self.acquire() *)
            match acquire fuel' (now + wait_time) rl with
            | (Recorded a, now', rl') => (Recorded a, now', set_lock false rl')
            | (ValueError, now', rl') => (ValueError, now', set_lock false rl')
            | stuck => stuck
            end
          else
            (Recorded now, now,
             set_lock false (set_requests (requests rl ++ [now]) rl))
        end
      else
        (Recorded now, now,
         set_lock false (set_requests (requests rl ++ [now]) rl))
  end.

(** A caller issuing one [acquire] after another; [delays] gives the time
    that passes before each call.  Returns the timestamps of the admitted
    calls in order, the final clock and the final limiter. *)
Fixpoint run (fuel : nat) (delays : list Z) (now : Z) (rl : t)
    (recorded : list Z) : list Z * Z * t :=
  match delays with
  | [] => (recorded, now, rl)
  | d :: delays' =>
    match acquire fuel (now + d) rl with
    | (Recorded a, now', rl') => run fuel delays' now' rl' (recorded ++ [a])
    | (_, now', rl') => run fuel delays' now' rl' recorded
    end
  end.

(** Admissions falling in the trailing window that ends at [t]: those not
    later than [t] whose age [t - a] is below [time_window], the test
    [acquire] prunes with. *)
Definition in_window (window t : Z) (recorded : list Z) : list Z :=
  filter (λ a, a ≤ t ∧ t - a < window) recorded.

(** What a run keeps true of the clock [now], the limiter and the list of
    all recorded calls: recorded calls lie in the past; [self.requests]
    and the full record agree on every window ending now or later; no
    trailing window holds more than [max_requests] recorded calls; and
    [self.requests] itself holds at most [max_requests] entries. *)
Record consistent (now : Z) (rl : t) (recorded : list Z) : Prop := {
  inv_past : ∀ a, a ∈ recorded → a ≤ now;
  inv_agree : ∀ t, now ≤ t →
    filter (λ r, t - r < time_window rl) (requests rl)
    = filter (λ r, t - r < time_window rl) recorded;
  inv_window : ∀ t,
    Z.of_nat (length (in_window (time_window rl) t recorded)) ≤ max_requests rl;
  inv_size : Z.of_nat (length (requests rl)) ≤ max_requests rl
}.

End RateLimiter.


(* ===================================================================== *)
(** ** credential_manager.py: [CredentialManager] *)
(* ===================================================================== *)

Module CredentialManager.

(** The dictionary kept in [self.cached_credentials]; it always has these
    four keys, so it is never empty. *)
Record entry := mkEntry {
  api_key : pyval;
  token : pyval;
  username : pyval;
  password : pyval
}.

Record t := mk {
  cache_duration : Z;
  cached_credentials : option entry;
  credentials_timestamp : option Z;
  session_id : option string;
  env_username : pyval;
  env_password : pyval
}.

Definition set_cache (c : option entry) (ts : option Z) (cm : t) : t :=
  mk (cache_duration cm) c ts (session_id cm) (env_username cm) (env_password cm).

(** [cache_credentials(api_key, token, username=None, password=None)];
    [now] is [datetime.now()]. *)
Definition cache_credentials (now : Z) (api_key token : pyval)
    (username password : pyval) (cm : t) : t :=
  set_cache (Some (mkEntry api_key token username password)) (Some now) cm.

(** [__init__(cache_duration_minutes=480)].  [config.TRELLO_USERNAME] and
    [config.TRELLO_PASSWORD] are read from the configuration object and are
    taken as arguments. *)
Definition init (now : Z) (cache_duration_minutes : Z)
    (trello_username trello_password : pyval) : t :=
  let cm := mk (cache_duration_minutes * minute) None None None
               trello_username trello_password in
  if truthy trello_username && truthy trello_password
  then cache_credentials now trello_username trello_password VNone VNone cm
  else cm.

Definition default_cache_duration_minutes : Z := 480.

(** [is_cached_valid()]: the result and the manager afterwards (an expired
    entry is dropped). *)
Definition is_cached_valid (now : Z) (cm : t) : bool * t :=
  match cached_credentials cm, credentials_timestamp cm with
  | Some _, Some timestamp =>
    if decide (now - timestamp > cache_duration cm)
    then (false, set_cache None None cm)
    else (true, cm)
  | _, _ => (false, cm)
  end.

(** [get_cached_credentials()] *)
Definition get_cached_credentials (now : Z) (cm : t)
    : option (pyval * pyval) * t :=
  let '(valid, cm) := is_cached_valid now cm in
  match valid, cached_credentials cm with
  | true, Some c => (Some (api_key c, token c), cm)
  | _, _ => (None, cm)
  end.

(** One of the two [while True] loops of [prompt_for_credentials]: read
    lines until one has at least 32 characters once stripped.  Running out
    of input is the [EOFError] of [input()]. *)
Fixpoint read_valid (lines : list (Z * string)) (now : Z)
    : option string * Z * list (Z * string) :=
  match lines with
  | [] => (None, now, [])
  | (typing, line) :: lines' =>
    let value := strip line in
    if bool_decide (value ≠ "") && (32 <=? py_len value)
    then (Some value, now + typing, lines')
    else read_valid lines' (now + typing)
  end.

(** [prompt_for_credentials()] *)
Definition prompt_for_credentials (con : console) (cm : t)
    : res (pyval * pyval) * console * t :=
  let shown := S (prompts con) in
  match read_valid (stdin con) (clock con) with
  | (None, now, rest) =>
    (Raise (PyError "EOFError" "EOF when reading a line"),
     mkConsole now rest shown, cm)
  | (Some api_key, now, rest) =>
    match read_valid rest now with
    | (None, now, rest) =>
      (Raise (PyError "EOFError" "EOF when reading a line"),
       mkConsole now rest shown, cm)
    | (Some token, now, rest) =>
      (Ok (VStr api_key, VStr token), mkConsole now rest shown,
       cache_credentials now (VStr api_key) (VStr token) VNone VNone cm)
    end
  end.

(** [get_or_prompt_credentials(api_key=None, token=None)] *)
Definition get_or_prompt_credentials (api_key token : pyval)
    (con : console) (cm : t) : res (pyval * pyval) * console * t :=
  if truthy api_key && truthy token then
    (Ok (api_key, token), con,
     cache_credentials (clock con) api_key token VNone VNone cm)
  else
    match get_cached_credentials (clock con) cm with
    | (Some cached, cm) => (Ok cached, con, cm)
    | (None, cm) => prompt_for_credentials con cm
    end.

(** [clear_credentials()] *)
Definition clear_credentials (cm : t) : t := set_cache None None cm.

End CredentialManager.

(* ===================================================================== *)
(** ** The outside world and the effect monad *)
(* ===================================================================== *)

(** An outgoing HTTP call as [session.request] receives it. *)
Record http_request := mkRequest {
  http_method : string;
  http_url : string;
  http_params : gmap string pyval;
  http_json : pyval
}.

(** What comes back: a response with its status, its text and what
    [response.json()] decodes from it ([None] when decoding fails); an
    [aiohttp.ClientError]; or any other exception (a timeout). *)
Inductive http_reply :=
| Response (status : Z) (text : string) (json : option pyval)
| ClientError (message : string)
| Failure (e : exn).

(** The world outside the process: console and clock, the remote service,
    and the calls issued to it so far, oldest first. *)
Record World := mkWorld {
  con : console;
  upstream : http_request → http_reply;
  sent : list http_request
}.

Definition set_con (c : console) (w : World) : World :=
  mkWorld c (upstream w) (sent w).

(** A method of an object with state [σ]: it reads and changes the world and
    the object, and returns, raises or hangs. *)
Definition M (σ A : Type) : Type := World → σ → res A * World * σ.

#[global] Instance M_ret σ : MRet (M σ) := λ A a w s, (Ok a, w, s).

#[global] Instance M_bind σ : MBind (M σ) := λ A B k m w s,
  match m w s with
  | (Ok a, w', s') => k a w' s'
  | (Raise e, w', s') => (Raise e, w', s')
  | (Hang, w', s') => (Hang, w', s')
  end.

Definition raise {σ A} (e : exn) : M σ A := λ w s, (Raise e, w, s).

(** [try: m  except Exception as e: h e] *)
Definition catch {σ A} (m : M σ A) (h : exn → M σ A) : M σ A := λ w s,
  match m w s with
  | (Raise e, w', s') => h e w' s'
  | r => r
  end.

(** [try: m  except TrelloAPIError as e: h e]; other exceptions pass. *)
Definition catch_api {σ A} (m : M σ A) (h : exn → M σ A) : M σ A := λ w s,
  match m w s with
  | (Raise (TrelloAPIError msg st body), w', s') =>
    h (TrelloAPIError msg st body) w' s'
  | r => r
  end.

(** Lift a pure result. *)
Definition lift {σ A} (r : res A) : M σ A := λ w s, (r, w, s).

(** A [datetime], represented by the text [isoformat()] gives for it. *)
Definition datetime := string.

(** Why a model refuses the value of a field: [None] for a field that is
    not [Optional], a value the field's type does not accept, or a
    [ValueError] raised by a validator of the model.  A failure records the
    field, the cause and the value that was passed. *)
Inductive cause :=
| NoneNotAllowed
| WrongType
| Refused (message : string).

Record failure := mkFailure {
  loc : string;
  why : cause;
  input : pyval
}.

(** What the Python runtime and the pydantic library contribute, and the
    wording of the tool results; none of it is defined in this repository's
    dispatch logic, so it is taken as given.
    - [repr]: [str()] of a float, a list or a dictionary.
    - [fromisoformat]: [datetime.fromisoformat]; [None] is its [ValueError].
    - [coerce_*]: what a pydantic field of the given type makes of a value
      that is not already of that type ([None]: rejected).
    - [validation_text model errors]: [str()] of the [ValidationError]
      raised for a model, which reports every failing field.
    - [render tool reply used]: the text a tool handler assembles, once the
      upstream call has returned, from the reply and from the values [used]
      that its format strings mention besides the reply; it may raise on a
      reply of unexpected shape. *)
Record Lib := mkLib {
  repr : pyval → string;
  fromisoformat : string → option datetime;
  coerce_str : pyval → option string;
  coerce_bool : pyval → option bool;
  coerce_int : pyval → option Z;
  coerce_dict : pyval → option (gmap string pyval);
  coerce_strs : pyval → option (list string);
  validation_text : string → list failure → string;
  render : string → pyval → list pyval → res string
}.

(** [str(v)], as in an f-string. *)
Definition py_str (L : Lib) (v : pyval) : string :=
  match v with
  | VNone => "None"
  | VBool true => "True"
  | VBool false => "False"
  | VInt n => pretty n
  | VStr s => s
  | _ => repr L v
  end.

(** [type(v).__name__] *)
Definition type_name (v : pyval) : string :=
  match v with
  | VNone => "NoneType"
  | VBool _ => "bool"
  | VInt _ => "int"
  | VFloat _ => "float"
  | VStr _ => "str"
  | VList _ => "list"
  | VDict _ => "dict"
  end.

Definition AttributeError (v : pyval) (attr : string) : exn :=
  PyError "AttributeError"
    ("'" ++ type_name v ++ "' object has no attribute '" ++ attr ++ "'").

(** [v.get(key)] and [v.get(key, default)] on a value that need not be a
    dictionary. *)
Definition py_get (v : pyval) (key : string) (dflt : pyval) : res pyval :=
  match v with
  | VDict d => Ok (dict_get_default d key dflt)
  | _ => Raise (AttributeError v "get")
  end.

(** [s.replace('Z', '+00:00')] *)
Fixpoint replace_Z (s : string) : string :=
  match s with
  | EmptyString => EmptyString
  | String c s' =>
    if Ascii.eqb c "Z"%char then "+00:00" ++ replace_Z s'
    else String c (replace_Z s')
  end.

#[global] Instance res_ret : MRet res := λ A a, Ok a.

#[global] Instance res_bind : MBind res := λ A B k r,
  match r with
  | Ok a => k a
  | Raise e => Raise e
  | Hang => Hang
  end.

(* ===================================================================== *)
(** ** schemas.py: the pydantic request models *)
(* ===================================================================== *)

Module Schemas.
Section WithLib.
Variable L : Lib.

Definition ValidationError (model : string) (errors : list failure) : exn :=
  PyError "ValidationError" (validation_text L model errors).

(** A construction that did not succeed raised an ordinary exception (not a
    [TrelloAPIError]), as every model constructor does. *)
Definition rejected {A} (r : res A) : Prop :=
  ∃ cls message, r = Raise (PyError cls message).

(** What one field makes of the value passed for it. *)
Definition checked (A : Type) : Type := cause + A.

(** Field types.  A value of the field's own type is taken as it is, [None]
    is refused by a field that is not [Optional], and anything else is left
    to the library's conversion. *)
Definition str_field (v : pyval) : checked string :=
  match v with
  | VStr s => inr s
  | VNone => inl NoneNotAllowed
  | _ =>
    match coerce_str L v with
    | Some s => inr s
    | None => inl WrongType
    end
  end.

Definition bool_field (v : pyval) : checked bool :=
  match v with
  | VBool b => inr b
  | VNone => inl NoneNotAllowed
  | _ =>
    match coerce_bool L v with
    | Some b => inr b
    | None => inl WrongType
    end
  end.

Definition int_field (v : pyval) : checked Z :=
  match v with
  | VInt n => inr n
  | VNone => inl NoneNotAllowed
  | _ =>
    match coerce_int L v with
    | Some n => inr n
    | None => inl WrongType
    end
  end.

Definition dict_field (v : pyval) : checked (gmap string pyval) :=
  match v with
  | VDict d => inr d
  | VNone => inl NoneNotAllowed
  | _ =>
    match coerce_dict L v with
    | Some d => inr d
    | None => inl WrongType
    end
  end.

Definition as_str (v : pyval) : option string :=
  match v with
  | VStr s => Some s
  | _ => None
  end.

Definition strs_field (v : pyval) : checked (list string) :=
  match v with
  | VNone => inl NoneNotAllowed
  | _ =>
    match (match v with VList l => mapM as_str l | _ => None end) with
    | Some l => inr l
    | None =>
      match coerce_strs L v with
      | Some l => inr l
      | None => inl WrongType
      end
    end
  end.

(** [Optional[...]]: [None] is accepted and kept. *)
Definition optional {A} (field_type : pyval → checked A) (v : pyval)
    : checked (option A) :=
  match v with
  | VNone => inr None
  | _ =>
    match field_type v with
    | inr a => inr (Some a)
    | inl c => inl c
    end
  end.

(** A validator of the model runs on a value that passed the field's
    type. *)
Definition and_then {A B} (r : checked A) (validator : A → checked B)
    : checked B :=
  match r with
  | inr a => validator a
  | inl c => inl c
  end.

(** The [validate_name] validators of the [Create...] models: not blank, at
    most 16384 characters, stripped.  [noun] is "Board", "List" or
    "Card". *)
Definition validate_name (noun : string) (v : string) : checked string :=
  if bool_decide (v = "") || bool_decide (strip v = "") then
    inl (Refused (noun ++ " name cannot be empty"))
  else if 16384 <? py_len (strip v) then
    inl (Refused (noun ++ " name cannot exceed 16384 characters"))
  else inr (strip v).

(** The [validate_name] validators of the [Update...] models, which run
    before type conversion ([pre=True]) on whatever was passed; a value
    without [strip] makes them raise an [AttributeError], which is not a
    validation failure and leaves the constructor at once. *)
Definition validate_name_pre (noun : string) (v : pyval)
    : res (checked (option string)) :=
  match v with
  | VNone => Ok (inr None)
  | VStr s =>
    if bool_decide (strip s = "") then
      Ok (inl (Refused (noun ++ " name cannot be empty")))
    else if 16384 <? py_len (strip s) then
      Ok (inl (Refused (noun ++ " name cannot exceed 16384 characters")))
    else Ok (inr (Some (strip s)))
  | _ => Raise (AttributeError v "strip")
  end.

(** The validators that only refuse a blank string and strip. *)
Definition validate_not_blank (message : string) (v : string)
    : checked string :=
  if bool_decide (v = "") || bool_decide (strip v = "") then
    inl (Refused message)
  else inr (strip v).

(** The construction of a model validates every field, in the order of
    their declaration, and collects the failures; it raises one
    [ValidationError] for all of them, or builds the model. *)
Definition validated (A : Type) : Type := list failure + A.

Definition field {A} (name : string) (v : pyval) (r : checked A)
    : validated A :=
  match r with
  | inr a => inr a
  | inl c => inl [mkFailure name c v]
  end.

Definition ap {A B} (f : validated (A → B)) (x : validated A)
    : validated B :=
  match f, x with
  | inr f, inr x => inr (f x)
  | inl errors, inr _ => inl errors
  | inr _, inl errors => inl errors
  | inl errors, inl more => inl (errors ++ more)
  end.

Definition errors_of {A} (r : validated A) : list failure :=
  match r with
  | inl errors => errors
  | inr _ => []
  end.

Definition built {A} (model : string) (r : validated A) : res A :=
  match r with
  | inr a => Ok a
  | inl errors => Raise (ValidationError model errors)
  end.

Local Notation "f ⊛ x" := (ap f x) (at level 50, left associativity).

Record TrelloCredentials := mkTrelloCredentials {
  api_key : string;
  token : string
}.

Definition new_TrelloCredentials (api_key token : pyval)
    : res TrelloCredentials :=
  let not_empty := validate_not_blank "API key and token cannot be empty" in
  built "TrelloCredentials"
    (inr mkTrelloCredentials
     ⊛ field "api_key" api_key (and_then (str_field api_key) not_empty)
     ⊛ field "token" token (and_then (str_field token) not_empty)).

Record CreateBoardRequest := mkCreateBoardRequest {
  cb_name : string;
  cb_desc : option string;
  cb_organization_id : option string;
  cb_default_lists : bool;
  cb_prefs : option (gmap string pyval)
}.

Definition new_CreateBoardRequest (name desc organization_id default_lists
    prefs : pyval) : res CreateBoardRequest :=
  built "CreateBoardRequest"
    (inr mkCreateBoardRequest
     ⊛ field "name" name (and_then (str_field name) (validate_name "Board"))
     ⊛ field "desc" desc (optional str_field desc)
     ⊛ field "organization_id" organization_id
         (optional str_field organization_id)
     ⊛ field "default_lists" default_lists (bool_field default_lists)
     ⊛ field "prefs" prefs (optional dict_field prefs)).

Record UpdateBoardRequest := mkUpdateBoardRequest {
  ub_name : option string;
  ub_desc : option string;
  ub_closed : option bool;
  ub_prefs : option (gmap string pyval)
}.

Definition new_UpdateBoardRequest (name desc closed prefs : pyval)
    : res UpdateBoardRequest :=
  checked_name ← validate_name_pre "Board" name;
  built "UpdateBoardRequest"
    (inr mkUpdateBoardRequest
     ⊛ field "name" name checked_name
     ⊛ field "desc" desc (optional str_field desc)
     ⊛ field "closed" closed (optional bool_field closed)
     ⊛ field "prefs" prefs (optional dict_field prefs)).

Record CreateListRequest := mkCreateListRequest {
  cl_name : string;
  cl_board_id : string;
  cl_pos : option string
}.

Definition new_CreateListRequest (name board_id pos : pyval)
    : res CreateListRequest :=
  built "CreateListRequest"
    (inr mkCreateListRequest
     ⊛ field "name" name (and_then (str_field name) (validate_name "List"))
     ⊛ field "board_id" board_id
         (and_then (str_field board_id)
            (validate_not_blank "Board ID cannot be empty"))
     ⊛ field "pos" pos (optional str_field pos)).

Record CreateCardRequest := mkCreateCardRequest {
  cc_name : string;
  cc_list_id : string;
  cc_desc : option string;
  cc_pos : option string;
  cc_due : option datetime;
  cc_labels : option (list string);
  cc_members : option (list string)
}.

Definition new_CreateCardRequest (name list_id desc pos : pyval)
    (due : option datetime) (labels members : pyval)
    : res CreateCardRequest :=
  built "CreateCardRequest"
    (inr mkCreateCardRequest
     ⊛ field "name" name (and_then (str_field name) (validate_name "Card"))
     ⊛ field "list_id" list_id
         (and_then (str_field list_id)
            (validate_not_blank "List ID cannot be empty"))
     ⊛ field "desc" desc (optional str_field desc)
     ⊛ field "pos" pos (optional str_field pos)
     ⊛ inr due
     ⊛ field "labels" labels (optional strs_field labels)
     ⊛ field "members" members (optional strs_field members)).

Record UpdateCardRequest := mkUpdateCardRequest {
  uc_name : option string;
  uc_desc : option string;
  uc_closed : option bool;
  uc_list_id : option string;
  uc_pos : option string;
  uc_due : option datetime
}.

Definition new_UpdateCardRequest (name desc closed list_id pos : pyval)
    (due : option datetime) : res UpdateCardRequest :=
  checked_name ← validate_name_pre "Card" name;
  built "UpdateCardRequest"
    (inr mkUpdateCardRequest
     ⊛ field "name" name checked_name
     ⊛ field "desc" desc (optional str_field desc)
     ⊛ field "closed" closed (optional bool_field closed)
     ⊛ field "list_id" list_id (optional str_field list_id)
     ⊛ field "pos" pos (optional str_field pos)
     ⊛ inr due).

Record SearchRequest := mkSearchRequest {
  sr_query : string;
  sr_board_ids : option (list string);
  sr_limit : option Z
}.

(** [validate_limit]: between 1 and 1000 when given. *)
Definition validate_limit (v : option Z) : checked (option Z) :=
  match v with
  | Some n =>
    if (n <? 1) || (1000 <? n)
    then inl (Refused "Limit must be between 1 and 1000")
    else inr v
  | None => inr None
  end.

Definition new_SearchRequest (query board_ids limit : pyval)
    : res SearchRequest :=
  built "SearchRequest"
    (inr mkSearchRequest
     ⊛ field "query" query
         (and_then (str_field query)
            (validate_not_blank "Search query cannot be empty"))
     ⊛ field "board_ids" board_ids (optional strs_field board_ids)
     ⊛ field "limit" limit
         (and_then (optional int_field limit) validate_limit)).

End WithLib.
End Schemas.

(* ===================================================================== *)
(** ** trello_client.py: [TrelloClient] *)
(* ===================================================================== *)

Module TrelloClient.
Section WithLib.
Variable L : Lib.
Import Schemas.

(** The client's state is its rate limiter; the lazily created HTTP session
    carries nothing the calls below depend on. *)
Record t := mk { rate_limiter : RateLimiter.t }.

Definition base_url : string := "https://api.trello.com/1".

(** [TrelloClient()] *)
Definition init : t := mk RateLimiter.default.

(** [await self.rate_limiter.acquire()].  The recursion of [acquire] never
    goes deeper than one level, so a budget of 2 covers every call. *)
Definition acquire : M t unit := λ w c,
  let '(o, now, rl) :=
    RateLimiter.acquire 2 (clock (con w)) (rate_limiter c) in
  let w := set_con (mkConsole now (stdin (con w)) (prompts (con w))) w in
  (match o with
   | RateLimiter.Recorded _ => Ok ()
   | RateLimiter.ValueError =>
     Raise (PyError "ValueError" "min() arg is an empty sequence")
   | _ => Hang
   end, w, mk rl).

(** [session.request(...)]: the call is issued and answered. *)
Definition send (r : http_request) : M t http_reply := λ w c,
  (Ok (upstream w r), mkWorld (con w) (upstream w) (sent w ++ [r]), c).

(** [_make_request(method, endpoint, credentials, params=None)] *)
Definition _make_request (method endpoint : string)
    (credentials : TrelloCredentials) (params : option (gmap string pyval))
    : M t pyval :=
  _ ← acquire;
  let params :=
    <["token" := VStr (token credentials)]>
      (<["key" := VStr (api_key credentials)]> (default ∅ params)) in
  reply ← send (mkRequest method (base_url ++ "/" ++ endpoint) params VNone);
  match reply with
  | Response status text json =>
    if decide (status = 200) then
      mret (default (VDict {[ "result" := VStr text ]}) json)
    else if decide (status = 401) then
      raise (TrelloAPIError "Unauthorized - check your API key and token"
               (Some status) (Some text))
    else if decide (status = 403) then
      raise (TrelloAPIError "Forbidden - insufficient permissions"
               (Some status) (Some text))
    else if decide (status = 404) then
      raise (TrelloAPIError "Not found - the requested resource does not exist"
               (Some status) (Some text))
    else if decide (status = 429) then
      raise (TrelloAPIError "Rate limit exceeded" (Some status) (Some text))
    else
      raise (TrelloAPIError
               ("API request failed with status " ++ pretty status)
               (Some status) (Some text))
  | ClientError message =>
    raise (TrelloAPIError ("Network error: " ++ message) None None)
  | Failure e => raise e
  end.

(** The call [validate_credentials] issues: [GET members/me] with the
    credentials merged into the parameters. *)
Definition validation_request (credentials : TrelloCredentials)
    : http_request :=
  mkRequest "GET" (base_url ++ "/members/me")
    (<["token" := VStr (token credentials)]>
       (<["key" := VStr (api_key credentials)]>
          {[ "fields" := VStr "id,username,fullName,email" ]}))
    VNone.

(** The call [get_board] issues for a board id. *)
Definition board_request (credentials : TrelloCredentials) (board_id : pyval)
    : http_request :=
  mkRequest "GET" (base_url ++ "/boards/" ++ py_str L board_id)
    (<["token" := VStr (token credentials)]>
       (<["key" := VStr (api_key credentials)]>
          {[ "fields" := VStr "id,name,desc,closed,url,prefs,labelNames";
             "lists" := VStr "open";
             "cards" := VStr "open";
             "members" := VStr "all" ]}))
    VNone.

(** [validate_credentials(credentials)] *)
Definition validate_credentials (credentials : TrelloCredentials)
    : M t (gmap string pyval) :=
  catch_api
    (response ← _make_request "GET" "members/me" credentials
       (Some {[ "fields" := VStr "id,username,fullName,email" ]});
     mret {[ "valid" := VBool true; "user_info" := response ]})
    (λ e, mret {[ "valid" := VBool false; "error" := VStr (str_exn e) ]}).

(** [response if isinstance(response, list) else []] *)
Definition list_or_empty (response : pyval) : pyval :=
  match response with
  | VList _ => response
  | _ => VList []
  end.

Definition list_boards (credentials : TrelloCredentials) : M t pyval :=
  response ← _make_request "GET" "members/me/boards" credentials
    (Some {[ "fields" := VStr "id,name,desc,closed,url,prefs";
             "filter" := VStr "open" ]});
  mret (list_or_empty response).

Definition get_board (credentials : TrelloCredentials) (board_id : pyval)
    : M t pyval :=
  _make_request "GET" ("boards/" ++ py_str L board_id) credentials
    (Some {[ "fields" := VStr "id,name,desc,closed,url,prefs,labelNames";
             "lists" := VStr "open";
             "cards" := VStr "open";
             "members" := VStr "all" ]}).

(** [for key, value in prefs.items(): params[f"prefs_{key}"] = value] *)
Definition add_prefs (prefs : option (gmap string pyval))
    (params : gmap string pyval) : gmap string pyval :=
  match prefs with
  | Some prefs =>
    map_fold (λ (key : string) (value : pyval) (params : gmap string pyval),
                <[String.append "prefs_" key := value]> params)
             params prefs
  | None => params
  end.

(** [params[key] = value] under a condition. *)
Definition set_if (cond : bool) (key : string) (value : pyval)
    (params : gmap string pyval) : gmap string pyval :=
  if cond then <[key := value]> params else params.

(** [if x is not None: params[key] = x] for an optional string. *)
Definition set_some (key : string) (value : option string)
    (params : gmap string pyval) : gmap string pyval :=
  match value with
  | Some x => <[key := VStr x]> params
  | None => params
  end.

(** Truth value of an optional string, list or dictionary. *)
Definition nonempty_str (x : option string) : bool :=
  match x with
  | Some s => bool_decide (s ≠ "")
  | None => false
  end.

Definition nonempty_list (x : option (list string)) : bool :=
  match x with
  | Some l => bool_decide (l ≠ [])
  | None => false
  end.

Definition create_board (credentials : TrelloCredentials)
    (request : CreateBoardRequest) : M t pyval :=
  let params : gmap string pyval :=
    {[ "name" := VStr (cb_name request);
       "defaultLists" := VBool (cb_default_lists request) ]} in
  let params := set_if (nonempty_str (cb_desc request)) "desc"
                  (VStr (default "" (cb_desc request))) params in
  let params := set_if (nonempty_str (cb_organization_id request))
                  "idOrganization"
                  (VStr (default "" (cb_organization_id request))) params in
  let params := add_prefs (cb_prefs request) params in
  _make_request "POST" "boards" credentials (Some params).

Definition update_board (credentials : TrelloCredentials) (board_id : pyval)
    (request : UpdateBoardRequest) : M t pyval :=
  let params : gmap string pyval := ∅ in
  let params := set_some "name" (ub_name request) params in
  let params := set_some "desc" (ub_desc request) params in
  let params := match ub_closed request with
                | Some b => <["closed" := VBool b]> params
                | None => params
                end in
  let params := add_prefs (ub_prefs request) params in
  _make_request "PUT" ("boards/" ++ py_str L board_id) credentials
    (Some params).

Definition get_lists (credentials : TrelloCredentials) (board_id : pyval)
    : M t pyval :=
  response ← _make_request "GET" ("boards/" ++ py_str L board_id ++ "/lists")
    credentials
    (Some {[ "fields" := VStr "id,name,closed,pos";
             "filter" := VStr "open" ]});
  mret (list_or_empty response).

Definition create_list (credentials : TrelloCredentials)
    (request : CreateListRequest) : M t pyval :=
  let params : gmap string pyval :=
    {[ "name" := VStr (cl_name request);
       "idBoard" := VStr (cl_board_id request) ]} in
  let params := set_some "pos" (cl_pos request) params in
  _make_request "POST" "lists" credentials (Some params).

Definition get_cards (credentials : TrelloCredentials)
    (board_id list_id : pyval) : M t pyval :=
  if truthy list_id then
    response ← _make_request "GET"
      ("lists/" ++ py_str L list_id ++ "/cards") credentials
      (Some {[ "fields" := VStr "id,name,desc,closed,due,url,labels,members";
               "filter" := VStr "open" ]});
    mret (list_or_empty response)
  else if truthy board_id then
    response ← _make_request "GET"
      ("boards/" ++ py_str L board_id ++ "/cards") credentials
      (Some {[ "fields" := VStr "id,name,desc,closed,due,url,labels,members";
               "filter" := VStr "open" ]});
    mret (list_or_empty response)
  else
    raise (TrelloAPIError "Either board_id or list_id must be provided"
             None None).

Definition create_card (credentials : TrelloCredentials)
    (request : CreateCardRequest) : M t pyval :=
  let params : gmap string pyval :=
    {[ "name" := VStr (cc_name request);
       "idList" := VStr (cc_list_id request) ]} in
  let params := set_if (nonempty_str (cc_desc request)) "desc"
                  (VStr (default "" (cc_desc request))) params in
  let params := set_some "pos" (cc_pos request) params in
  let params := set_some "due" (cc_due request) params in
  let params := set_if (nonempty_list (cc_labels request)) "idLabels"
                  (VStr (String.concat "," (default [] (cc_labels request))))
                  params in
  let params := set_if (nonempty_list (cc_members request)) "idMembers"
                  (VStr (String.concat "," (default [] (cc_members request))))
                  params in
  _make_request "POST" "cards" credentials (Some params).

Definition update_card_params (request : UpdateCardRequest)
    : gmap string pyval :=
  let params : gmap string pyval := ∅ in
  let params := set_some "name" (uc_name request) params in
  let params := set_some "desc" (uc_desc request) params in
  let params := match uc_closed request with
                | Some b => <["closed" := VBool b]> params
                | None => params
                end in
  let params := set_some "idList" (uc_list_id request) params in
  let params := set_some "pos" (uc_pos request) params in
  set_some "due" (uc_due request) params.

Definition update_card (credentials : TrelloCredentials) (card_id : pyval)
    (request : UpdateCardRequest) : M t pyval :=
  _make_request "PUT" ("cards/" ++ py_str L card_id) credentials
    (Some (update_card_params request)).

Definition add_member_to_card (credentials : TrelloCredentials)
    (card_id member_id : pyval) : M t pyval :=
  _make_request "POST" ("cards/" ++ py_str L card_id ++ "/idMembers")
    credentials (Some {[ "value" := member_id ]}).

Definition search_cards (credentials : TrelloCredentials)
    (request : SearchRequest) : M t pyval :=
  let limit := match sr_limit request with
               | Some n => if decide (n = 0) then 50 else n
               | None => 50
               end in
  let params : gmap string pyval :=
    {[ "query" := VStr (sr_query request);
       "modelTypes" := VStr "cards";
       "cards_limit" := VInt limit ]} in
  let params := set_if (nonempty_list (sr_board_ids request)) "idBoards"
                  (VStr (String.concat "," (default [] (sr_board_ids request))))
                  params in
  response ← _make_request "GET" "search" credentials (Some params);
  mret (match response with
        | VDict d => dict_get_default d "cards" (VList [])
        | _ => VList []
        end).

End WithLib.
End TrelloClient.

(* ===================================================================== *)
(** ** tools.py: the tool catalog *)
(* ===================================================================== *)

Module Catalog.

(** A property of an input schema: [{"type": ..., "description": ...}]. *)
Definition prop (type : pyval) (description : string) : pyval :=
  VDict {[ "type" := type; "description" := VStr description ]}.

Definition str_prop (description : string) : pyval :=
  prop (VStr "string") description.

Definition bool_prop (description : string) : pyval :=
  prop (VStr "boolean") description.

Definition pos_prop (description : string) : pyval :=
  prop (VList [VStr "string"; VStr "number"]) description.

Definition str_array_prop (description : string) : pyval :=
  VDict {[ "type" := VStr "array";
           "items" := VDict {[ "type" := VStr "string" ]};
           "description" := VStr description ]}.

Definition enum_prop (values : list string) : pyval :=
  VDict {[ "type" := VStr "string"; "enum" := VList (VStr <$> values) ]}.

Definition api_key_prop : pyval :=
  str_prop "Trello API key (optional, will prompt if not provided)".

Definition token_prop : pyval :=
  str_prop "Trello API token (optional, will prompt if not provided)".

Definition prefs_prop (description : string) : pyval :=
  VDict {[
    "type" := VStr "object";
    "description" := VStr description;
    "properties" := VDict {[
      "permissionLevel" := enum_prop ["private"; "org"; "public"];
      "voting" :=
        enum_prop ["disabled"; "members"; "observers"; "org"; "public"];
      "comments" :=
        enum_prop ["disabled"; "members"; "observers"; "org"; "public"];
      "background" := str_prop "Board background" ]} ]}.

(** One catalog entry: [{"description": ..., "inputSchema": {"type":
    "object", "properties": ..., "required": ...}}]. *)
Definition tool (description : string) (properties : gmap string pyval)
    (required : list string) : gmap string pyval :=
  {[
    "description" := VStr description;
    "inputSchema" := VDict {[
      "type" := VStr "object";
      "properties" := VDict properties;
      "required" := VList (VStr <$> required) ]} ]}.

(** The same with the extra ["oneOf"] constraint of [get_cards]. *)
Definition tool_one_of (description : string)
    (properties : gmap string pyval) (required : list string)
    (one_of : list string) : gmap string pyval :=
  {[
    "description" := VStr description;
    "inputSchema" := VDict {[
      "type" := VStr "object";
      "properties" := VDict properties;
      "required" := VList (VStr <$> required);
      "oneOf" :=
        VList ((λ k, VDict {[ "required" := VList [VStr k] ]}) <$> one_of)
    ]} ]}.

(** [get_tools()]: the entries in the order of the dictionary literal. *)
Definition get_tools : list (string * gmap string pyval) := [
  ("list_boards",
   tool "List all boards for the authenticated user (credentials optional - will prompt if needed)"
     {[ "api_key" := api_key_prop; "token" := token_prop ]} []);
  ("get_board",
   tool "Get detailed information about a specific board"
     {[ "api_key" := api_key_prop; "token" := token_prop;
        "board_id" := str_prop "ID of the board to retrieve" ]}
     ["board_id"]);
  ("create_board",
   tool "Create a new board"
     {[ "api_key" := api_key_prop; "token" := token_prop;
        "name" := str_prop "Name of the board";
        "desc" := str_prop "Description of the board";
        "organization_id" := str_prop "Organization ID (optional)";
        "default_lists" :=
          VDict {[ "type" := VStr "boolean";
                   "description" := VStr "Create default lists";
                   "default" := VBool true ]};
        "prefs" := prefs_prop "Board preferences" ]}
     ["name"]);
  ("update_board",
   tool "Update an existing board"
     {[ "api_key" := api_key_prop; "token" := token_prop;
        "board_id" := str_prop "ID of the board to update";
        "name" := str_prop "New name for the board";
        "desc" := str_prop "New description for the board";
        "closed" := bool_prop "Whether the board is closed";
        "prefs" := prefs_prop "Board preferences to update" ]}
     ["board_id"]);
  ("get_lists",
   tool "Get all lists on a board"
     {[ "api_key" := api_key_prop; "token" := token_prop;
        "board_id" := str_prop "ID of the board" ]}
     ["board_id"]);
  ("create_list",
   tool "Create a new list on a board"
     {[ "api_key" := api_key_prop; "token" := token_prop;
        "name" := str_prop "Name of the list";
        "board_id" := str_prop "ID of the board";
        "pos" := pos_prop "Position of the list" ]}
     ["name"; "board_id"]);
  ("get_cards",
   tool_one_of "Get cards from a board or list"
     {[ "api_key" := api_key_prop; "token" := token_prop;
        "board_id" := str_prop "ID of the board (optional if list_id provided)";
        "list_id" := str_prop "ID of the list (optional if board_id provided)" ]}
     [] ["board_id"; "list_id"]);
  ("create_card",
   tool "Create a new card"
     {[ "api_key" := api_key_prop; "token" := token_prop;
        "name" := str_prop "Name of the card";
        "list_id" := str_prop "ID of the list";
        "desc" := str_prop "Description of the card";
        "pos" := pos_prop "Position of the card";
        "due" := str_prop "Due date (ISO format)";
        "labels" := str_array_prop "Array of label IDs";
        "members" := str_array_prop "Array of member IDs" ]}
     ["name"; "list_id"]);
  ("update_card",
   tool "Update an existing card"
     {[ "api_key" := api_key_prop; "token" := token_prop;
        "card_id" := str_prop "ID of the card to update";
        "name" := str_prop "New name for the card";
        "desc" := str_prop "New description for the card";
        "closed" := bool_prop "Whether the card is closed";
        "list_id" := str_prop "Move card to this list ID";
        "pos" := pos_prop "New position of the card";
        "due" := str_prop "Due date (ISO format, null to remove)" ]}
     ["card_id"]);
  ("add_member_to_card",
   tool "Add a member to a card"
     {[ "api_key" := api_key_prop; "token" := token_prop;
        "card_id" := str_prop "ID of the card";
        "member_id" := str_prop "ID of the member to add" ]}
     ["card_id"; "member_id"]);
  ("search_cards",
   tool "Search for cards across boards"
     {[ "api_key" := api_key_prop; "token" := token_prop;
        "query" := str_prop "Search query";
        "board_ids" :=
          str_array_prop "Array of board IDs to search in (optional)";
        "limit" :=
          VDict {[ "type" := VStr "integer";
                   "description" := VStr "Maximum number of results";
                   "default" := VInt 50 ]} ]}
     ["query"])
].

(** The names in the catalog. *)
Definition names : list string := fst <$> get_tools.

(** The [required] list of a catalog entry. *)
Definition required (name : string) : list string :=
  match (list_to_map get_tools : gmap string (gmap string pyval)) !! name with
  | Some info =>
    match info !! "inputSchema" with
    | Some (VDict schema) =>
      match schema !! "required" with
      | Some (VList l) => omap (λ v, match v with VStr s => Some s | _ => None end) l
      | _ => []
      end
    | _ => []
    end
  | _ => []
  end.

End Catalog.

(* ===================================================================== *)
(** ** tools.py: [TrelloTools] *)
(* ===================================================================== *)

Module TrelloTools.
Section WithLib.
Variable L : Lib.
Import Schemas.

(** [self.client] (created on first use) and [self.credential_manager]. *)
Record t := mk {
  client : option TrelloClient.t;
  credential_manager : CredentialManager.t
}.

(** [self.get_client().method(...)]: the client is created when missing,
    and the method runs on it. *)
Definition with_client {A} (m : M TrelloClient.t A) : M t A := λ w s,
  let c := default TrelloClient.init (client s) in
  let '(r, w', c') := m w c in
  (r, w', mk (Some c') (credential_manager s)).

(** [self.credential_manager.get_or_prompt_credentials(api_key, token)] *)
Definition get_or_prompt_credentials (api_key token : pyval)
    : M t (pyval * pyval) := λ w s,
  let '(r, con', cm') :=
    CredentialManager.get_or_prompt_credentials api_key token (con w)
      (credential_manager s) in
  (r, set_con con' w, mk (client s) cm').

(** [TrelloTools()]; the two configuration values go to the credential
    manager. *)
Definition init (now : Z) (trello_username trello_password : pyval) : t :=
  mk None (CredentialManager.init now
             CredentialManager.default_cache_duration_minutes
             trello_username trello_password).

(** [{"content": [{"type": "text", "text": text}]}] *)
Definition text_result (text : string) : pyval :=
  VDict {[ "content" :=
             VList [VDict {[ "type" := VStr "text"; "text" := VStr text ]}] ]}.

(** The same with ["isError": True]. *)
Definition error_result (text : string) : pyval :=
  VDict {[ "content" :=
             VList [VDict {[ "type" := VStr "text"; "text" := VStr text ]}];
           "isError" := VBool true ]}.

(** The text of a successful call, assembled from the reply. *)
Definition rendered (tool : string) (reply : pyval) (used : list pyval)
    : M t pyval :=
  text ← lift (render L tool reply used);
  mret (text_result text).

(** [except TrelloAPIError as e: return {... f"❌ Failed to ...: {str(e)}"}] *)
Definition failed_to (what : string) (e : exn) : M t pyval :=
  mret (error_result ("❌ Failed to " ++ what ++ ": " ++ str_exn e)).

Definition _list_boards (credentials : TrelloCredentials) : M t pyval :=
  catch_api
    (boards ← with_client (TrelloClient.list_boards credentials);
     rendered "list_boards" boards [])
    (failed_to "list boards").

Definition _get_board (credentials : TrelloCredentials)
    (arguments : gmap string pyval) : M t pyval :=
  catch_api
    (let board_id := dict_get arguments "board_id" in
     board ← with_client (TrelloClient.get_board L credentials board_id);
     rendered "get_board" board [])
    (failed_to "get board").

Definition _create_board (credentials : TrelloCredentials)
    (arguments : gmap string pyval) : M t pyval :=
  catch_api
    (request ← lift (new_CreateBoardRequest L
        (dict_get arguments "name")
        (dict_get arguments "desc")
        (dict_get arguments "organization_id")
        (dict_get_default arguments "default_lists" (VBool true))
        (dict_get arguments "prefs"));
     board ← with_client (TrelloClient.create_board credentials request);
     rendered "create_board" board [])
    (failed_to "create board").

Definition _update_board (credentials : TrelloCredentials)
    (arguments : gmap string pyval) : M t pyval :=
  catch_api
    (let board_id := dict_get arguments "board_id" in
     request ← lift (new_UpdateBoardRequest L
        (dict_get arguments "name")
        (dict_get arguments "desc")
        (dict_get arguments "closed")
        (dict_get arguments "prefs"));
     board ← with_client
       (TrelloClient.update_board L credentials board_id request);
     rendered "update_board" board [])
    (failed_to "update board").

Definition _get_lists (credentials : TrelloCredentials)
    (arguments : gmap string pyval) : M t pyval :=
  catch_api
    (let board_id := dict_get arguments "board_id" in
     lists ← with_client (TrelloClient.get_lists L credentials board_id);
     rendered "get_lists" lists [board_id])
    (failed_to "get lists").

Definition _create_list (credentials : TrelloCredentials)
    (arguments : gmap string pyval) : M t pyval :=
  catch_api
    (request ← lift (new_CreateListRequest L
        (dict_get arguments "name")
        (dict_get arguments "board_id")
        (dict_get arguments "pos"));
     lst ← with_client (TrelloClient.create_list credentials request);
     rendered "create_list" lst [])
    (failed_to "create list").

Definition _get_cards (credentials : TrelloCredentials)
    (arguments : gmap string pyval) : M t pyval :=
  catch_api
    (let board_id := dict_get arguments "board_id" in
     let list_id := dict_get arguments "list_id" in
     cards ← with_client
       (TrelloClient.get_cards L credentials board_id list_id);
     rendered "get_cards" cards [board_id; list_id])
    (failed_to "get cards").

(** [datetime.fromisoformat(v.replace('Z', '+00:00'))]: the parsed date, or
    [None] for the [ValueError] of a malformed date; a value that is not a
    string has no [replace]. *)
Definition parse_due (v : pyval) : res (option datetime) :=
  match v with
  | VStr s => Ok (fromisoformat L (replace_Z s))
  | _ => Raise (AttributeError v "replace")
  end.

Definition _create_card (credentials : TrelloCredentials)
    (arguments : gmap string pyval) : M t pyval :=
  catch_api
    (let finish (due_date : option datetime) : M t pyval :=
       request ← lift (new_CreateCardRequest L
          (dict_get arguments "name")
          (dict_get arguments "list_id")
          (dict_get arguments "desc")
          (dict_get arguments "pos")
          due_date
          (dict_get arguments "labels")
          (dict_get arguments "members"));
       card ← with_client (TrelloClient.create_card credentials request);
       rendered "create_card" card [] in
     if truthy (dict_get arguments "due") then
       parsed ← lift (parse_due (dict_get arguments "due"));
       match parsed with
       | Some due_date => finish (Some due_date)
       | None =>
         mret (error_result
           "❌ Invalid due date format. Use ISO format (e.g., 2024-01-01T12:00:00Z)")
       end
     else finish None)
    (failed_to "create card").

Definition _update_card (credentials : TrelloCredentials)
    (arguments : gmap string pyval) : M t pyval :=
  catch_api
    (let card_id := dict_get arguments "card_id" in
     let finish (due_date : option datetime) : M t pyval :=
       request ← lift (new_UpdateCardRequest L
          (dict_get arguments "name")
          (dict_get arguments "desc")
          (dict_get arguments "closed")
          (dict_get arguments "list_id")
          (dict_get arguments "pos")
          due_date);
       card ← with_client
         (TrelloClient.update_card L credentials card_id request);
       rendered "update_card" card [] in
     match arguments !! "due" with
     | Some due =>
       if match due with VNone => true | _ => eq_str due "" end then
         finish None
       else
         parsed ← lift (parse_due due);
         match parsed with
         | Some due_date => finish (Some due_date)
         | None =>
           mret (error_result
             "❌ Invalid due date format. Use ISO format (e.g., 2024-01-01T12:00:00Z) or null to remove")
         end
     | None => finish None
     end)
    (failed_to "update card").

Definition _add_member_to_card (credentials : TrelloCredentials)
    (arguments : gmap string pyval) : M t pyval :=
  catch_api
    (let card_id := dict_get arguments "card_id" in
     let member_id := dict_get arguments "member_id" in
     result ← with_client
       (TrelloClient.add_member_to_card L credentials card_id member_id);
     rendered "add_member_to_card" result [card_id; member_id])
    (failed_to "add member to card").

Definition _search_cards (credentials : TrelloCredentials)
    (arguments : gmap string pyval) : M t pyval :=
  catch_api
    (request ← lift (new_SearchRequest L
        (dict_get arguments "query")
        (dict_get arguments "board_ids")
        (dict_get_default arguments "limit" (VInt 50)));
     cards ← with_client (TrelloClient.search_cards credentials request);
     rendered "search_cards" cards [VStr (sr_query request)])
    (failed_to "search cards").

(** The first half of [execute_tool]: the credentials are taken from the
    arguments when both are given, otherwise resolved by the credential
    manager. *)
Definition resolve_credentials (arguments : gmap string pyval)
    : M t (pyval * pyval) :=
  let api_key := dict_get arguments "api_key" in
  let token := dict_get arguments "token" in
  if negb (truthy api_key) || negb (truthy token)
  then get_or_prompt_credentials api_key token
  else mret (api_key, token).

(** The [if]/[elif] chain of [execute_tool]. *)
Definition dispatch (tool_name : pyval) (credentials : TrelloCredentials)
    (arguments : gmap string pyval) : M t pyval :=
  if eq_str tool_name "list_boards" then _list_boards credentials
  else if eq_str tool_name "get_board" then _get_board credentials arguments
  else if eq_str tool_name "create_board" then
    _create_board credentials arguments
  else if eq_str tool_name "update_board" then
    _update_board credentials arguments
  else if eq_str tool_name "get_lists" then _get_lists credentials arguments
  else if eq_str tool_name "create_list" then
    _create_list credentials arguments
  else if eq_str tool_name "get_cards" then _get_cards credentials arguments
  else if eq_str tool_name "create_card" then
    _create_card credentials arguments
  else if eq_str tool_name "update_card" then
    _update_card credentials arguments
  else if eq_str tool_name "add_member_to_card" then
    _add_member_to_card credentials arguments
  else if eq_str tool_name "search_cards" then
    _search_cards credentials arguments
  else mret (error_result ("❌ Unknown tool: " ++ py_str L tool_name)).

(** [except Exception as e: return {... f"❌ Tool execution failed: {str(e)}"}] *)
Definition execution_failed (e : exn) : M t pyval :=
  mret (error_result ("❌ Tool execution failed: " ++ str_exn e)).

(** [execute_tool(tool_name, arguments)] *)
Definition execute_tool (tool_name arguments : pyval) : M t pyval :=
  catch
    (match arguments with
     | VDict arguments =>
       '(api_key, token) ← resolve_credentials arguments;
       credentials ← lift (new_TrelloCredentials L api_key token);
       validation_result ← with_client
         (TrelloClient.validate_credentials credentials);
       if negb (truthy (dict_get validation_result "valid")) then
         mret (error_result
           ("❌ Invalid credentials: "
            ++ py_str L (dict_get validation_result "error")))
       else dispatch tool_name credentials arguments
     | _ => raise (AttributeError arguments "get")
     end)
    execution_failed.

End WithLib.
End TrelloTools.

(* ===================================================================== *)
(** ** mcp_server.py: [TrelloMCPServer] *)
(* ===================================================================== *)

Module TrelloMCPServer.
Section WithLib.
Variable L : Lib.

Record t := mk {
  tools : option TrelloTools.t;
  initialized : bool;
  capabilities : pyval
}.

(** [TrelloMCPServer()] *)
Definition init : t :=
  mk None false
     (VDict {[ "tools" := VDict ∅; "resources" := VDict ∅;
               "prompts" := VDict ∅ ]}).

(** [initialize()], once [TrelloTools()] has built [new_tools]. *)
Definition initialize (new_tools : TrelloTools.t) (s : t) : t :=
  mk (Some new_tools) true
     (VDict {[ "tools" := VDict {[ "listChanged" := VBool false ]};
               "resources" := VDict ∅; "prompts" := VDict ∅ ]}).

(** [_create_error_response(request_id, code, message)] *)
Definition _create_error_response (request_id : pyval) (code : Z)
    (message : string) : gmap string pyval :=
  {[ "jsonrpc" := VStr "2.0";
     "id" := request_id;
     "error" := VDict {[ "code" := VInt code; "message" := VStr message ]} ]}.

(** [{"jsonrpc": "2.0", "id": request_id, "result": result}] *)
Definition result_response (request_id : pyval) (result : pyval)
    : gmap string pyval :=
  {[ "jsonrpc" := VStr "2.0"; "id" := request_id; "result" := result ]}.

(** A well-formed response to a request whose correlation id is
    [request_id]: the id is echoed, and exactly one of [result] and [error]
    is present. *)
Definition well_formed (request_id : pyval) (response : gmap string pyval)
    : Prop :=
  response !! "id" = Some request_id
  ∧ ((is_Some (response !! "result") ∧ response !! "error" = None)
     ∨ (response !! "result" = None ∧ is_Some (response !! "error"))).

(** What every handler guarantees: a well-formed response, or no response
    at all. *)
Definition answers (request_id : pyval)
    (r : res (gmap string pyval) * World * t) : Prop :=
  match r.1.1 with
  | Ok response => well_formed request_id response
  | Raise _ => False
  | Hang => True
  end.

Definition supported_version : string := "2024-11-05".

(** [_handle_initialize(request_id, params)] *)
Definition _handle_initialize (request_id params : pyval)
    : M t (gmap string pyval) :=
  catch
    (protocol_version ← lift (py_get params "protocolVersion" VNone);
     client_info ← lift (py_get params "clientInfo" (VDict ∅));
     if negb (eq_str protocol_version supported_version) then
       mret (_create_error_response request_id (-32602)
               ("Unsupported protocol version: "
                ++ py_str L protocol_version))
     else
       λ w s,
         (Ok (result_response request_id
                (VDict {[ "protocolVersion" := protocol_version;
                          "capabilities" := capabilities s;
                          "serverInfo" :=
                            VDict {[ "name" := VStr "trello-mcp";
                                     "version" := VStr "1.0.0" ]} ]})),
          w, s))
    (λ e, mret (_create_error_response request_id (-32603) (str_exn e))).

(** One entry of the [tools/list] result. *)
Definition descriptor (entry : string * gmap string pyval) : pyval :=
  VDict {[ "name" := VStr entry.1;
           "description" := dict_get entry.2 "description";
           "inputSchema" := dict_get entry.2 "inputSchema" ]}.

(** [_handle_tools_list(request_id)] *)
Definition _handle_tools_list (request_id : pyval)
    : M t (gmap string pyval) := λ w s,
  let tools_list :=
    match tools s with
    | None => []
    | Some _ => descriptor <$> Catalog.get_tools
    end in
  (Ok (result_response request_id (VDict {[ "tools" := VList tools_list ]})),
   w, s).

(** [await self.tools.execute_tool(tool_name, arguments)] *)
Definition with_tools {A} (tl : TrelloTools.t) (m : M TrelloTools.t A)
    : M t A := λ w s,
  let '(r, w', tl') := m w tl in
  (r, w', mk (Some tl') (initialized s) (capabilities s)).

(** [_handle_tool_call(request_id, params)] *)
Definition _handle_tool_call (request_id params : pyval)
    : M t (gmap string pyval) :=
  catch
    (tool_name ← lift (py_get params "name" VNone);
     arguments ← lift (py_get params "arguments" (VDict ∅));
     if negb (truthy tool_name) then
       mret (_create_error_response request_id (-32602)
               "Tool name is required")
     else
       λ w s,
         match tools s with
         | None =>
           (Ok (_create_error_response request_id (-32603)
                  "Tools not initialized"), w, s)
         | Some tl =>
           (result ← with_tools tl
              (TrelloTools.execute_tool L tool_name arguments);
            mret (result_response request_id result)) w s
         end)
    (λ e, mret (_create_error_response request_id (-32603) (str_exn e))).

Definition _handle_resources_list (request_id : pyval)
    : M t (gmap string pyval) :=
  mret (result_response request_id (VDict {[ "resources" := VList [] ]})).

Definition _handle_prompts_list (request_id : pyval)
    : M t (gmap string pyval) :=
  mret (result_response request_id (VDict {[ "prompts" := VList [] ]})).

(** [handle_request(request)] *)
Definition handle_request (request : gmap string pyval)
    : M t (gmap string pyval) :=
  catch
    (let method := dict_get request "method" in
     let params := dict_get_default request "params" (VDict ∅) in
     let request_id := dict_get request "id" in
     if eq_str method "initialize" then
       _handle_initialize request_id params
     else if eq_str method "tools/list" then
       _handle_tools_list request_id
     else if eq_str method "tools/call" then
       _handle_tool_call request_id params
     else if eq_str method "resources/list" then
       _handle_resources_list request_id
     else if eq_str method "prompts/list" then
       _handle_prompts_list request_id
     else
       mret (_create_error_response request_id (-32601)
               ("Method not found: " ++ py_str L method)))
    (λ e, mret (_create_error_response (dict_get request "id") (-32603)
                  ("Internal error: " ++ str_exn e))).

End WithLib.
End TrelloMCPServer.

(* ===================================================================== *)
(** ** Further code of the cited files *)
(* ===================================================================== *)

(** The times at which a caller that waits [delays] before each call reads
    the clock, when no call makes it wait. *)
Fixpoint arrivals (now : Z) (delays : list Z) : list Z :=
  match delays with
  | [] => []
  | d :: delays' => (now + d) :: arrivals (now + d) delays'
  end.

Module CredentialManagerMore.
Import CredentialManager.

(** The cached pair and its timestamp are present together or absent
    together. *)
Definition paired (cm : t) : Prop :=
  cached_credentials cm = None ↔ credentials_timestamp cm = None.

(** [get_login_url()] *)
Definition get_login_url : string := "https://trello.com/app-key".

(** [get_session_info()].  The dictionary display evaluates
    [self.is_cached_valid()] first, so the timestamp is read after an
    expired entry has been dropped.  [isoformat] renders a timestamp;
    [int(total_seconds() / 60)] is the duration in whole minutes. *)
Definition get_session_info (isoformat : Z → string) (now : Z) (cm : t)
    : gmap string pyval * t :=
  let '(valid, cm) := is_cached_valid now cm in
  ({[ "has_cached_credentials" := VBool valid;
      "cache_duration_minutes" := VInt (Z.quot (cache_duration cm) minute);
      "credentials_timestamp" :=
        match credentials_timestamp cm with
        | Some timestamp => VStr (isoformat timestamp)
        | None => VNone
        end;
      "login_url" := VStr get_login_url ]},
   cm).

(** Total typing time of some console lines. *)
Definition typing_time (lines : list (Z * string)) : Z :=
  foldr Z.add 0 (fst <$> lines).

End CredentialManagerMore.

Module TrelloClientMore.
Import Schemas TrelloClient.

(** The call [_make_request] hands to the session: the endpoint under the
    base URL, and the parameters with the credentials merged in. *)
Definition outgoing (method endpoint : string)
    (credentials : TrelloCredentials) (params : option (gmap string pyval))
    : http_request :=
  mkRequest method (base_url ++ "/" ++ endpoint)
    (<["token" := VStr (token credentials)]>
       (<["key" := VStr (api_key credentials)]> (default ∅ params)))
    VNone.

End TrelloClientMore.

Module TrelloToolsMore.
Import TrelloTools.

(** A tool result: one text item, flagged as an error or not. *)
Definition payload (v : pyval) : Prop :=
  ∃ text, v = text_result text ∨ v = error_result text.

(** A computation whose results are tool results. *)
Definition gives_payload (m : M t pyval) : Prop :=
  ∀ w s v w' s', m w s = (Ok v, w', s') → payload v.

(** A computation that leaves the credential manager and the console's
    input and prompt count alone. *)
Definition keeps_manager {σ A} (manager : σ → CredentialManager.t)
    (m : M σ A) : Prop :=
  ∀ w s,
    manager (m w s).2 = manager s
    ∧ stdin (con (m w s).1.2) = stdin (con w)
    ∧ prompts (con (m w s).1.2) = prompts (con w).

End TrelloToolsMore.

Module CatalogMore.

(** The names of the declared properties of a catalog entry. *)
Definition properties (name : string) : list string :=
  match (list_to_map Catalog.get_tools : gmap string (gmap string pyval))
          !! name with
  | Some info =>
    match info !! "inputSchema" with
    | Some (VDict schema) =>
      match schema !! "properties" with
      | Some (VDict props) => (map_to_list props).*1
      | _ => []
      end
    | _ => []
    end
  | None => []
  end.

(** What the catalog promises about one entry: the credentials are declared
    but never required, and every required parameter is declared. *)
Definition entry_ok (name : string) : bool :=
  bool_decide ("api_key" ∈ properties name)
  && bool_decide ("token" ∈ properties name)
  && bool_decide ("api_key" ∉ Catalog.required name)
  && bool_decide ("token" ∉ Catalog.required name)
  && forallb (λ p, bool_decide (p ∈ properties name)) (Catalog.required name).

(** The handlers [execute_tool] can route to, in the order of its chain. *)
Definition handlers (L : Lib) (credentials : Schemas.TrelloCredentials)
    (arguments : gmap string pyval) : list (M TrelloTools.t pyval) :=
  [ TrelloTools._list_boards L credentials;
    TrelloTools._get_board L credentials arguments;
    TrelloTools._create_board L credentials arguments;
    TrelloTools._update_board L credentials arguments;
    TrelloTools._get_lists L credentials arguments;
    TrelloTools._create_list L credentials arguments;
    TrelloTools._get_cards L credentials arguments;
    TrelloTools._create_card L credentials arguments;
    TrelloTools._update_card L credentials arguments;
    TrelloTools._add_member_to_card L credentials arguments;
    TrelloTools._search_cards L credentials arguments ].

End CatalogMore.

Module TrelloMCPServerMore.
Import TrelloMCPServer.

(** [cleanup()] *)
Definition cleanup (s : t) : t := mk (tools s) false (capabilities s).

(** [get_available_tools()] *)
Definition get_available_tools (s : t) : list pyval :=
  match tools s with
  | None => []
  | Some _ =>
    (λ entry : string * gmap string pyval,
       VDict {[ "name" := VStr entry.1;
                "description" :=
                  dict_get_default entry.2 "description" (VStr "");
                "inputSchema" :=
                  dict_get_default entry.2 "inputSchema" (VDict ∅) ]})
    <$> Catalog.get_tools
  end.

End TrelloMCPServerMore.

(* ===================================================================== *)
(** ** config.py and main.py: start-up and the [/mcp] endpoint *)
(* ===================================================================== *)

Module Config.

(** The [config] object, by its data attributes. *)
Definition t := gmap string pyval.

(** The attributes [class Config] defines. *)
Definition attributes : list string :=
  [ "DEBUG"; "PORT"; "SERVICE_NAME"; "SERVICE_VERSION"; "LOG_LEVEL";
    "LOG_FORMAT"; "REQUEST_TIMEOUT"; "MAX_RETRIES"; "get_timestamp";
    "is_cloud_run" ].

(** An object that has the attributes of [class Config] and no other. *)
Definition as_defined (config : t) : Prop :=
  ∀ name, is_Some (config !! name) → name ∈ attributes.

(** [config.<name>] *)
Definition getattr (config : t) (name : string) : res pyval :=
  match config !! name with
  | Some v => Ok v
  | None =>
    Raise (PyError "AttributeError"
             ("'Config' object has no attribute '" ++ name ++ "'"))
  end.

End Config.

Module Main.
Section WithLib.
Variable L : Lib.

(** [json.loads(body)]: the parsed value, a [JSONDecodeError], or another
    exception (a body that is not valid UTF-8, for one). *)
Variable json_loads : string → res pyval.

(** [TrelloTools()], with the two attributes [CredentialManager.__init__]
    reads from [config] at time [now]. *)
Definition new_TrelloTools (config : Config.t) (now : Z)
    : res TrelloTools.t :=
  trello_username ← Config.getattr config "TRELLO_USERNAME";
  trello_password ← Config.getattr config "TRELLO_PASSWORD";
  mret (TrelloTools.init now trello_username trello_password).

(** [await mcp_server.initialize()]: an exception of [TrelloTools()] passes
    through before anything is assigned. *)
Definition initialize (config : Config.t) (now : Z) (s : TrelloMCPServer.t)
    : res () * TrelloMCPServer.t :=
  match new_TrelloTools config now with
  | Ok new_tools => (Ok (), TrelloMCPServer.initialize new_tools s)
  | Raise e => (Raise e, s)
  | Hang => (Hang, s)
  end.

(** The start-up half of [lifespan]: the global [mcp_server] it leaves.  A
    failure of [initialize()] is logged as a warning and dropped. *)
Definition lifespan (config : Config.t) (now : Z)
    : option TrelloMCPServer.t :=
  Some (initialize config now TrelloMCPServer.init).2.

(** What an endpoint gives back: a JSON body with its status, or an
    [HTTPException]. *)
Inductive http_result :=
| JSONResponse (status_code : Z) (content : gmap string pyval)
| HTTPException (status_code : Z) (detail : string).

(** The body of the 500 answer. *)
Definition error_response (e : exn) (request_id : pyval)
    : gmap string pyval :=
  {[ "jsonrpc" := VStr "2.0";
     "error" := VDict {[ "code" := VInt (-32603);
                         "message" := VStr "Internal error";
                         "data" := VStr (str_exn e) ]};
     "id" := request_id ]}.

(** [handle_mcp_request(request)], on the body of the request; the state is
    the global [mcp_server]. *)
Definition handle_mcp_request (body : string)
    : M (option TrelloMCPServer.t) http_result := λ w mcp_server,
  match mcp_server with
  | None => (Ok (HTTPException 503 "MCP server not initialized"), w, None)
  | Some server =>
    if bool_decide (body = "") then
      (Ok (HTTPException 400 "Request body is required"), w, mcp_server)
    else
      match json_loads body with
      | Ok (VDict request_data) =>
        if negb (match request_data !! "jsonrpc" with
                 | Some v => eq_str v "2.0"
                 | None => false
                 end) then
          (Ok (HTTPException 400 "Invalid JSON-RPC version"), w, mcp_server)
        else if negb (bool_decide (is_Some (request_data !! "method"))) then
          (Ok (HTTPException 400 "Method is required"), w, mcp_server)
        else
          match TrelloMCPServer.handle_request L request_data w server with
          | (Ok response, w', server') =>
            (Ok (JSONResponse 200 response), w', Some server')
          | (Raise e, w', server') =>
            (Ok (JSONResponse 500
                   (error_response e (dict_get request_data "id"))),
             w', Some server')
          | (Hang, w', server') => (Hang, w', Some server')
          end
      | Ok _ =>
        (Ok (HTTPException 400 "Request must be a JSON object"), w,
         mcp_server)
      | Raise (PyError cls message) =>
        if bool_decide (cls = "JSONDecodeError") then
          (Ok (HTTPException 400 ("Invalid JSON: " ++ message)), w,
           mcp_server)
        else
          (Ok (JSONResponse 500 (error_response (PyError cls message) VNone)),
           w, mcp_server)
      | Raise e =>
        (Ok (JSONResponse 500 (error_response e VNone)), w, mcp_server)
      | Hang => (Hang, w, mcp_server)
      end
  end.

End WithLib.
End Main.

(* ===================================================================== *)
(** ** Concrete surroundings for the examples *)
(* ===================================================================== *)

Module Demo.

(** A library instance: pydantic converts nothing, every date text is
    accepted as it stands, a validation error reads as the model's name
    followed by the failing fields, and a rendered result is the tool's
    name.  The examples below only run paths on which none of this is
    consulted, except for these two texts. *)
Definition lib : Lib :=
  mkLib (λ _, "<repr>")
        (λ s, Some s)
        (λ _, None) (λ _, None) (λ _, None) (λ _, None) (λ _, None)
        (λ model errors,
           String.append model
             (String.append ": " (String.concat ", " (loc <$> errors))))
        (λ tool _ _, Ok tool).

Definition key32 : string := "0123456789abcdef0123456789abcdef".
Definition token32 : string := "fedcba9876543210fedcba9876543210".

(** A remote service that answers every call with [200] and an empty JSON
    object, and one that answers every call with [401]. *)
Definition accepts_all : http_request → http_reply :=
  λ _, Response 200 "{}" (Some (VDict ∅)).

Definition rejects_all : http_request → http_reply :=
  λ _, Response 401 "invalid key" None.

(** A user who types a key and a token, one tick each. *)
Definition typing : list (Z * string) := [(1, key32); (1, token32)].

(** A freshly started dispatcher, with nothing cached. *)
Definition fresh_tools : TrelloTools.t := TrelloTools.init 0 VNone VNone.

(** A dispatcher whose manager cached a pair at time 0. *)
Definition cached_tools : TrelloTools.t :=
  TrelloTools.mk None
    (CredentialManager.cache_credentials 0 (VStr key32) (VStr token32)
       VNone VNone (TrelloTools.credential_manager fresh_tools)).

Definition credentials : Schemas.TrelloCredentials :=
  Schemas.mkTrelloCredentials key32 token32.

End Demo.

Module DemoMore.
Import Demo.

(** A library instance that accepts no date text. *)
Definition strict : Lib :=
  mkLib (λ _, "<repr>")
        (λ _, None)
        (λ _, None) (λ _, None) (λ _, None) (λ _, None) (λ _, None)
        (λ model errors,
           String.append model
             (String.append ": " (String.concat ", " (loc <$> errors))))
        (λ tool _ _, Ok tool).

(** Two blanks outside ASCII, in UTF-8: NO-BREAK SPACE (U+00A0) and EM
    SPACE (U+2003). *)
Definition nbsp : string :=
  String (ascii_of_nat 194) (String (ascii_of_nat 160) EmptyString).

Definition em_space : string :=
  String (ascii_of_nat 226)
    (String (ascii_of_nat 128) (String (ascii_of_nat 131) EmptyString)).

(** A name of 8193 two-byte letters, 16386 bytes in UTF-8. *)
Definition long_name : string :=
  String.concat "" (replicate (Z.to_nat 8193) "é").

(** Time 0, nobody at the console, no traffic yet. *)
Definition idle (upstream : http_request → http_reply) : World :=
  mkWorld (mkConsole 0 [] 0) upstream [].

(** A remote service that knows no resource. *)
Definition finds_nothing : http_request → http_reply :=
  λ _, Response 404 "not found" None.

(** The configuration object of [config.py] under an empty environment. *)
Definition config : Config.t :=
  {[ "DEBUG" := VBool false; "PORT" := VInt 8080;
     "SERVICE_NAME" := VStr "trello-mcp"; "SERVICE_VERSION" := VStr "unknown";
     "LOG_LEVEL" := VStr "INFO"; "LOG_FORMAT" := VStr "json";
     "REQUEST_TIMEOUT" := VInt 30; "MAX_RETRIES" := VInt 3 ]}.

(** A [tools/call] envelope for [list_boards], and a parser that knows the
    one body standing for it and one body that is not UTF-8. *)
Definition call : gmap string pyval :=
  {[ "jsonrpc" := VStr "2.0"; "id" := VInt 7; "method" := VStr "tools/call";
     "params" := VDict {[ "name" := VStr "list_boards" ]} ]}.

Definition json_loads : string → res pyval := λ body,
  if bool_decide (body = "<call>") then Ok (VDict call)
  else if bool_decide (body = "<not utf-8>") then
    Raise (PyError "UnicodeDecodeError"
             "'utf-8' codec can't decode byte 0xff in position 0: invalid start byte")
  else Raise (PyError "JSONDecodeError"
                "Expecting value: line 1 column 1 (char 0)").

(** A server whose tools were built at start-up. *)
Definition server : TrelloMCPServer.t :=
  TrelloMCPServer.initialize fresh_tools TrelloMCPServer.init.

End DemoMore.

(* ===================================================================== *)
(** * Properties *)
(* ===================================================================== *)

Section RateLimiterFacts.
Import RateLimiter.

Lemma py_min_elem (l : list Z) (m : Z) : py_min l = Some m → m ∈ l.
Proof.
  destruct l as [|x l]; simpl; [discriminate|].
  intros [= <-]. induction l as [|y l IH]; simpl.
  - left.
  - destruct (Z.min_spec y (foldr Z.min x l)) as [[_ ->]|[_ ->]].
    + right; left.
    + apply elem_of_cons in IH as [IH|IH].
      * rewrite IH. left.
      * right; right; exact IH.
Qed.

Lemma filter_length_mono (P Q : Z → Prop)
    `{!∀ x, Decision (P x)} `{!∀ x, Decision (Q x)} (l : list Z) :
  (∀ x, P x → Q x) → (length (filter P l) ≤ length (filter Q l))%nat.
Proof.
  intros HPQ. induction l as [|x l IH]; [done|].
  rewrite !filter_cons.
  destruct (decide (P x)) as [HP|HP], (decide (Q x)) as [HQ|HQ]; simpl; try lia.
  exfalso; auto.
Qed.

Lemma filter_filter_weaker (P Q : Z → Prop)
    `{!∀ x, Decision (P x)} `{!∀ x, Decision (Q x)} (l : list Z) :
  (∀ x, P x → Q x) → filter P (filter Q l) = filter P l.
Proof.
  intros HPQ. induction l as [|x l IH]; [done|].
  rewrite (filter_cons Q), (filter_cons P).
  destruct (decide (Q x)) as [HQ|HQ].
  - rewrite filter_cons. destruct (decide (P x)); by rewrite IH.
  - rewrite IH. destruct (decide (P x)) as [HP|HP]; [|done]. exfalso; auto.
Qed.

(** When the lock is free, [acquire] records the call exactly when the
    pruned window holds fewer than [max_requests] entries; otherwise it
    never returns a recorded call. *)
Lemma acquire_free (fuel : nat) (now : Z) (rl : t) :
  _lock rl = false →
  let reqs := prune now rl in
  if decide (max_requests rl ≤ Z.of_nat (length reqs)) then
    match reqs with
    | [] => acquire (S fuel) now rl = (ValueError, now, set_requests [] rl)
    | _ :: _ => ∃ now', now < now' ∧
        acquire (S fuel) now rl =
          (match fuel with O => OutOfFuel | S _ => Deadlocked end, now',
           set_lock true (set_requests reqs rl))
    end
  else
    acquire (S fuel) now rl = (Recorded now, now, set_requests (reqs ++ [now]) rl).
Proof.
  intros Hfree reqs. destruct rl as [mx w rs lk]; simpl in Hfree; subst lk.
  assert (Hpr : prune now (set_lock true (mk mx w rs false)) = reqs) by done.
  cbn [acquire _lock max_requests time_window requests set_requests set_lock].
  cbn [max_requests time_window requests set_requests set_lock] in Hpr.
  rewrite !Hpr.
  destruct (decide (mx ≤ Z.of_nat (length reqs))) as [Hfull|Hroom]; [|done].
  destruct (py_min reqs) as [oldest|] eqn:Hmin.
  - destruct reqs as [|r reqs'] eqn:Hreqs; [discriminate|].
    apply py_min_elem in Hmin. rewrite <- Hreqs in Hmin.
    apply list_elem_of_filter in Hmin as [Hyoung _]. simpl in Hyoung.
    destruct (decide (w - (now - oldest) > 0)) as [_|Hno]; [|lia].
    exists (now + (w - (now - oldest))). split; [lia|].
    destruct fuel; reflexivity.
  - destruct reqs; [done|discriminate].
Qed.

Lemma consistent_later (now now' : Z) (rl : t) (recorded : list Z) :
  now ≤ now' → consistent now rl recorded → consistent now' rl recorded.
Proof.
  intros Hle [Hpast Hagree Hwin Hsize]. split; try done.
  - intros a Ha. specialize (Hpast a Ha). lia.
  - intros t Ht. apply Hagree. lia.
Qed.

Lemma consistent_pruned (now : Z) (rl : t) (recorded : list Z) (b : bool) :
  consistent now rl recorded →
  consistent now (set_lock b (set_requests (prune now rl) rl)) recorded.
Proof.
  intros [Hpast Hagree Hwin Hsize]. split; simpl; try done.
  - intros t Ht. rewrite <- Hagree by done. unfold prune.
    apply filter_filter_weaker. intros x; lia.
  - unfold prune. pose proof (length_filter (λ r, now - r < time_window rl) (requests rl)).
    lia.
Qed.

Lemma consistent_recorded (now : Z) (rl : t) (recorded : list Z) :
  consistent now rl recorded →
  ¬ max_requests rl ≤ Z.of_nat (length (prune now rl)) →
  consistent now (set_requests (prune now rl ++ [now]) rl) (recorded ++ [now]).
Proof.
  intros [Hpast Hagree Hwin Hsize] Hroom. split; simpl.
  - intros a [Ha| ->%list_elem_of_singleton]%elem_of_app; [auto|lia].
  - intros t Ht. rewrite !filter_app. f_equal.
    rewrite <- Hagree by done. unfold prune.
    apply filter_filter_weaker. intros x; lia.
  - intros t. unfold in_window. destruct (decide (now ≤ t)) as [Hle|Hgt].
    + etransitivity.
      * apply inj_le.
        apply (filter_length_mono _ (λ a, now - a < time_window rl)).
        intros x; lia.
      * rewrite filter_app, length_app, <- Hagree by lia.
        fold (prune now rl).
        pose proof (length_filter (λ a, now - a < time_window rl) [now]).
        simpl in *. lia.
    + rewrite filter_app, length_app.
      rewrite (filter_cons_False _ now []) by lia.
      rewrite filter_nil. simpl. rewrite Nat.add_0_r. apply Hwin.
  - rewrite length_app. simpl. lia.
Qed.

(** One call keeps the invariant; the record grows by the call's timestamp
    exactly when the call is recorded. *)
Lemma acquire_consistent (fuel : nat) (now : Z) (rl : t) (recorded : list Z) :
  consistent now rl recorded →
  let '(o, now', rl') := acquire fuel now rl in
  consistent now' rl'
    (match o with Recorded a => recorded ++ [a] | _ => recorded end).
Proof.
  intros Hinv. destruct fuel as [|fuel]; [done|].
  destruct (_lock rl) eqn:Hlock.
  { cbn [acquire]. by rewrite Hlock. }
  pose proof (acquire_free fuel now rl Hlock) as Hstep. cbv zeta in Hstep.
  destruct (decide (max_requests rl ≤ Z.of_nat (length (prune now rl)))) as [Hfull|Hroom].
  - destruct (prune now rl) as [|r reqs] eqn:Hreqs.
    + rewrite Hstep. rewrite <- Hreqs.
      replace (set_requests (prune now rl) rl)
        with (set_lock false (set_requests (prune now rl) rl))
        by (destruct rl; simpl in *; by subst).
      by apply consistent_pruned.
    + destruct Hstep as (now' & Hlt & ->). rewrite <- Hreqs.
      assert (Hc : consistent now' (set_lock true (set_requests (prune now rl) rl)) recorded).
      { apply (consistent_later now); [lia|]. by apply consistent_pruned. }
      by destruct fuel.
  - rewrite Hstep. by apply consistent_recorded.
Qed.

Lemma acquire_params (fuel : nat) (now : Z) (rl : t) :
  max_requests (acquire fuel now rl).2 = max_requests rl
  ∧ time_window (acquire fuel now rl).2 = time_window rl.
Proof.
  revert now rl. induction fuel as [|fuel IH]; intros now rl; [done|].
  cbn [acquire]. destruct (_lock rl); [done|].
  repeat case_decide; try done.
  destruct (py_min _) as [oldest|]; [|done].
  case_decide; [|done].
  match goal with |- context [acquire fuel ?n ?r] =>
    specialize (IH n r); destruct (acquire fuel n r) as [[[]] ?] end; done.
Qed.

Lemma run_consistent (fuel : nat) (delays : list Z) :
  Forall (λ d, 0 ≤ d) delays →
  ∀ now rl recorded, consistent now rl recorded →
  consistent (run fuel delays now rl recorded).1.2
             (run fuel delays now rl recorded).2
             (run fuel delays now rl recorded).1.1
  ∧ max_requests (run fuel delays now rl recorded).2 = max_requests rl
  ∧ time_window (run fuel delays now rl recorded).2 = time_window rl.
Proof.
  induction 1 as [|d delays Hd _ IH]; intros now rl recorded Hinv; [done|].
  cbn [run].
  assert (Hinv' : consistent (now + d) rl recorded)
    by (apply (consistent_later now); [lia|done]).
  pose proof (acquire_consistent fuel (now + d) rl recorded Hinv') as Hstep.
  pose proof (acquire_params fuel (now + d) rl) as [Hmax Hwin].
  destruct (acquire fuel (now + d) rl) as [[o now'] rl'] eqn:Hacq.
  simpl in Hmax, Hwin. rewrite <- Hmax, <- Hwin.
  destruct o; by apply IH.
Qed.

Lemma consistent_init (max_requests time_window now : Z) :
  0 ≤ max_requests → consistent now (init max_requests time_window) [].
Proof.
  intros Hmax. split; unfold init, in_window; cbn; intros; try done; try lia.
  by apply elem_of_nil in H.
Qed.

(** A recorded call found the pruned window below [max_requests], and left
    the pruned window followed by its own timestamp in [self.requests]. *)
Lemma acquire_recorded_only_below_max (fuel : nat) (now : Z) (rl : t) (a : Z) :
  (acquire fuel now rl).1.1 = Recorded a →
  a = now
  ∧ Z.of_nat (length (prune now rl)) < max_requests rl
  ∧ requests (acquire fuel now rl).2 = prune now rl ++ [now].
Proof.
  destruct fuel as [|fuel]; [done|].
  destruct (_lock rl) eqn:Hlock.
  { cbn [acquire]. by rewrite Hlock. }
  pose proof (acquire_free fuel now rl Hlock) as Hstep. cbv zeta in Hstep.
  destruct (decide (max_requests rl ≤ Z.of_nat (length (prune now rl)))) as [Hfull|Hroom].
  - destruct (prune now rl) as [|r reqs].
    + by rewrite Hstep.
    + destruct Hstep as (now' & _ & ->). by destruct fuel.
  - rewrite Hstep. simpl. intros [= <-]. split_and!; [done|lia|done].
Qed.

(** The limiter a client is built with: 300 requests per 10 seconds. *)
Lemma default_limits :
  max_requests default = 300 ∧ time_window default = 10 * second.
Proof. done. Qed.

(** C1. Over every sequence of [acquire()] calls issued on a clock that
    does not run backwards, starting from a fresh limiter with a
    non-negative [max_requests]: after the sequence (hence after each of
    its prefixes), no trailing window of [time_window] ticks, ending at any
    time [t], contains more than [max_requests] recorded timestamps, and
    [self.requests] holds at most [max_requests] entries.  Moreover a call
    is recorded only when, after pruning, the number of remaining entries
    is below [max_requests]; it then appends its own timestamp. *)
Theorem acquire_window_never_exceeds_max
    (fuel : nat) (max_requests time_window now0 : Z) (delays : list Z) :
  0 ≤ max_requests →
  Forall (λ d, 0 ≤ d) delays →
  let r := run fuel delays now0 (init max_requests time_window) [] in
  (∀ t, Z.of_nat (length (in_window time_window t r.1.1)) ≤ max_requests)
  ∧ Z.of_nat (length (requests r.2)) ≤ max_requests
  ∧ (∀ now rl a, (acquire fuel now rl).1.1 = Recorded a →
       a = now
       ∧ Z.of_nat (length (prune now rl)) < RateLimiter.max_requests rl
       ∧ requests (acquire fuel now rl).2 = prune now rl ++ [now]).
Proof.
  intros Hmax Hdelays r.
  destruct (run_consistent fuel delays Hdelays now0
              (init max_requests time_window) []
              (consistent_init _ _ _ Hmax)) as ([_ _ Hwin Hsize] & Hm & Hw).
  fold r in Hwin, Hsize, Hm, Hw. rewrite Hw, Hm in Hwin. rewrite Hm in Hsize.
  split; [exact Hwin | split; [exact Hsize |]].
  intros now rl a. apply acquire_recorded_only_below_max.
Qed.

(** Two calls fill a window of 10 ticks with [max_requests = 2]; after the
    window has passed two more are recorded. *)
Lemma acquire_window_never_exceeds_max_witness :
  (run 3 [0; 1; 20; 0] 0 (init 2 10) []).1.1 = [0; 1; 21; 21]
  ∧ (∀ t, Z.of_nat (length (in_window 10 t
            (run 3 [0; 1; 20; 0] 0 (init 2 10) []).1.1)) ≤ 2).
Proof.
  split; [reflexivity|].
  apply (acquire_window_never_exceeds_max 3 2 10 0 [0; 1; 20; 0]).
  - lia.
  - repeat constructor; lia.
Defined.

(** Whenever the pruned window is full, the call is never recorded,
    whatever the recursion budget: the recursive [self.acquire()] waits for
    the lock its own caller holds. *)
Lemma acquire_full_never_recorded (fuel : nat) (now : Z) (rl : t) :
  max_requests rl ≤ Z.of_nat (length (prune now rl)) →
  ∀ a, (acquire fuel now rl).1.1 ≠ Recorded a.
Proof.
  intros Hfull a Hrec.
  apply acquire_recorded_only_below_max in Hrec as (_ & Hlt & _). lia.
Qed.

(** C2 (violated by the code). With [max_requests = 1] and a window of 10
    ticks, a second [acquire()] one tick after the first sleeps for the 9
    remaining ticks and then calls [self.acquire()] while still holding
    [self._lock]: whatever the recursion budget, the call ends suspended on
    the lock, nothing is recorded and the lock stays held.  The same happens
    on every limiter whose pruned window is full: the call is suspended for
    ever with the lock held and [self.requests] left at the pruned list. *)
Theorem acquire_second_call_deadlocks (fuel : nat) :
  acquire (S (S fuel)) 1 (mk 1 10 [0] false)
  = (Deadlocked, 10, mk 1 10 [0] true)
  ∧ ∀ now rl,
      _lock rl = false →
      prune now rl ≠ [] →
      max_requests rl ≤ Z.of_nat (length (prune now rl)) →
      (acquire (S (S fuel)) now rl).1.1 = Deadlocked
      ∧ (acquire (S (S fuel)) now rl).2
        = set_lock true (set_requests (prune now rl) rl).
Proof.
  split; [reflexivity|].
  intros now rl Hfree Hne Hfull.
  pose proof (acquire_free (S fuel) now rl Hfree) as Hstep. cbv zeta in Hstep.
  rewrite decide_True in Hstep by done.
  destruct (prune now rl) as [|r reqs]; [done|].
  destruct Hstep as (now' & _ & ->). done.
Qed.

(** Every later call then finds the lock held and is suspended too. *)
Lemma acquire_after_deadlock (fuel : nat) (now : Z) :
  acquire (S fuel) now (mk 1 10 [0] true) = (Deadlocked, now, mk 1 10 [0] true).
Proof. reflexivity. Qed.

(** The recursion never goes deeper than one level: any budget of at
    least two gives the result of a budget of two. *)
Lemma acquire_budget (fuel : nat) (now : Z) (rl : t) :
  acquire (S (S fuel)) now rl = acquire 2 now rl.
Proof.
  destruct (_lock rl) eqn:Hlock.
  { cbn [acquire]. by rewrite Hlock. }
  pose proof (acquire_free (S fuel) now rl Hlock) as H1.
  pose proof (acquire_free 1 now rl Hlock) as H2. cbv zeta in H1, H2.
  destruct (decide _) as [Hfull|Hroom]; [|congruence].
  destruct (prune now rl) as [|r reqs] eqn:Hp; [congruence|].
  cbn [acquire]. rewrite Hlock.
  cbn [set_lock set_requests max_requests time_window requests _lock].
  reflexivity.
Qed.

End RateLimiterFacts.

Section CredentialManagerFacts.
Import CredentialManager.

(** A successful prompt caches the pair it read, stamped with the clock at
    the end of the prompt, and counts as one more prompt shown. *)
Lemma prompt_caches_fresh (con con' : console) (cm cm' : t) (pair : pyval * pyval) :
  prompt_for_credentials con cm = (Ok pair, con', cm') →
  cached_credentials cm' = Some (mkEntry pair.1 pair.2 VNone VNone)
  ∧ credentials_timestamp cm' = Some (clock con')
  ∧ prompts con' = S (prompts con).
Proof.
  unfold prompt_for_credentials.
  destruct (read_valid (stdin con) (clock con)) as [[[k|] now1] rest1]; [|done].
  destruct (read_valid rest1 now1) as [[[tk|] now2] rest2]; [|done].
  by intros [= <- <- <-].
Qed.

(** With an entry cached at [timestamp]: validity is the test
    [now - timestamp <= cache_duration], and a resolution without explicit
    credentials follows it. *)
Lemma cached_resolution
    (con : console) (cm : t) (c : entry) (timestamp : Z) :
  cached_credentials cm = Some c →
  credentials_timestamp cm = Some timestamp →
  ((is_cached_valid (clock con) cm).1 = true
     ↔ clock con - timestamp ≤ cache_duration cm)
  ∧ get_or_prompt_credentials VNone VNone con cm
    = if decide (clock con - timestamp ≤ cache_duration cm)
      then (Ok (api_key c, token c), con, cm)
      else prompt_for_credentials con (set_cache None None cm).
Proof.
  intros Hc Hts.
  unfold get_or_prompt_credentials, get_cached_credentials, is_cached_valid.
  rewrite Hc, Hts. simpl.
  destruct (decide (clock con - timestamp > cache_duration cm)),
           (decide (clock con - timestamp ≤ cache_duration cm)); try lia.
  - split; [|done]. simpl. split; [done|lia].
  - rewrite Hc. split; [|done]. simpl. split; [lia|done].
Qed.

(** The three ways a resolution can go, in order. *)
Lemma resolution_cases (api_key token : pyval) (con : console) (cm : t) :
  get_or_prompt_credentials api_key token con cm =
    if truthy api_key && truthy token then
      (Ok (api_key, token), con,
       set_cache (Some (mkEntry api_key token VNone VNone))
                 (Some (clock con)) cm)
    else
      match cached_credentials cm, credentials_timestamp cm with
      | Some c, Some timestamp =>
        if decide (clock con - timestamp ≤ cache_duration cm)
        then (Ok (CredentialManager.api_key c, CredentialManager.token c),
              con, cm)
        else prompt_for_credentials con (set_cache None None cm)
      | _, _ => prompt_for_credentials con cm
      end.
Proof.
  unfold get_or_prompt_credentials, get_cached_credentials, is_cached_valid,
    cache_credentials.
  destruct (truthy api_key && truthy token); [done|].
  destruct (cached_credentials cm) as [c|] eqn:Hc; [|done].
  destruct (credentials_timestamp cm) as [ts|] eqn:Hts; [|done].
  destruct (decide (clock con - ts > cache_duration cm)),
           (decide (clock con - ts ≤ cache_duration cm)); try lia.
  - done.
  - simpl. by rewrite Hc.
Qed.

(** C6. Credential resolution is first-match-wins.  (1) When both explicit
    parts are present (truthy), that pair is returned and the cache is
    rewritten with it and the current time.  (2) Otherwise, when a cached
    pair exists with [now - timestamp <= cache_duration], it is returned,
    console and manager (timestamp included) untouched.  (3) Otherwise the
    prompt is run (on an expired entry, after dropping it), and a pair it
    obtains is cached with the time at which the prompt ended.  A partial
    explicit pair resolves exactly as no explicit pair at all. *)
Theorem resolution_first_match_wins
    (api_key token : pyval) (con : console) (cm : t) :
  get_or_prompt_credentials api_key token con cm =
    (if truthy api_key && truthy token then
       (Ok (api_key, token), con,
        set_cache (Some (mkEntry api_key token VNone VNone))
                  (Some (clock con)) cm)
     else
       match cached_credentials cm, credentials_timestamp cm with
       | Some c, Some timestamp =>
         if decide (clock con - timestamp ≤ cache_duration cm)
         then (Ok (CredentialManager.api_key c, CredentialManager.token c),
               con, cm)
         else prompt_for_credentials con (set_cache None None cm)
       | _, _ => prompt_for_credentials con cm
       end)
  ∧ (truthy api_key && truthy token = false →
     get_or_prompt_credentials api_key token con cm
     = get_or_prompt_credentials VNone VNone con cm)
  ∧ (∀ cm0 pair con' cm',
       prompt_for_credentials con cm0 = (Ok pair, con', cm') →
       cached_credentials cm' = Some (mkEntry pair.1 pair.2 VNone VNone)
       ∧ credentials_timestamp cm' = Some (clock con')
       ∧ prompts con' = S (prompts con)).
Proof.
  split_and!.
  - apply resolution_cases.
  - unfold get_or_prompt_credentials. by intros ->.
  - intros cm0 pair con' cm'. apply prompt_caches_fresh.
Qed.

(** C7. With an entry cached at [timestamp], [is_cached_valid] holds exactly
    while [now - timestamp <= cache_duration].  A resolution without
    explicit credentials strictly before expiry returns the cached pair and
    leaves console (no prompt, no input read) and manager as they were; one
    strictly after expiry drops the entry and runs the prompt. *)
Theorem cache_valid_until_expiry
    (con : console) (cm : t) (c : entry) (timestamp : Z) :
  cached_credentials cm = Some c →
  credentials_timestamp cm = Some timestamp →
  ((is_cached_valid (clock con) cm).1 = true
     ↔ clock con - timestamp ≤ cache_duration cm)
  ∧ (clock con - timestamp < cache_duration cm →
     get_or_prompt_credentials VNone VNone con cm
     = (Ok (CredentialManager.api_key c, CredentialManager.token c), con, cm))
  ∧ (clock con - timestamp > cache_duration cm →
     (is_cached_valid (clock con) cm).2 = set_cache None None cm
     ∧ get_or_prompt_credentials VNone VNone con cm
       = prompt_for_credentials con (set_cache None None cm)
     ∧ prompts (get_or_prompt_credentials VNone VNone con cm).1.2
       = S (prompts con)).
Proof.
  intros Hc Hts.
  destruct (cached_resolution con cm c timestamp Hc Hts)
    as [Hvalid Hres].
  split_and!.
  - exact Hvalid.
  - intros Hlt. rewrite Hres. by rewrite decide_True by lia.
  - intros Hgt. rewrite Hres, decide_False by lia.
    split_and!; [|done|].
    + unfold is_cached_valid. rewrite Hc, Hts. by rewrite decide_True by lia.
    + unfold prompt_for_credentials.
      destruct (read_valid (stdin con) (clock con)) as [[[k|] now1] rest1]; [|done].
      by destruct (read_valid rest1 now1) as [[[tk|] now2] rest2].
Qed.

(** A manager built with the default duration, holding a pair cached at
    time 0, is asked one tick before and one tick after the 480 minutes. *)
Lemma cache_valid_until_expiry_witness :
  let cm := cache_credentials 0 (VStr "key") (VStr "tok") VNone VNone
              (init 0 default_cache_duration_minutes VNone VNone) in
  cache_duration cm = 480 * minute
  ∧ get_or_prompt_credentials VNone VNone
      (mkConsole (480 * minute - 1) [] 0) cm
    = (Ok (VStr "key", VStr "tok"), mkConsole (480 * minute - 1) [] 0, cm)
  ∧ prompts (get_or_prompt_credentials VNone VNone
      (mkConsole (480 * minute + 1) [] 0) cm).1.2 = 1%nat.
Proof.
  intros cm. split; [reflexivity|]. split.
  - apply (cache_valid_until_expiry (mkConsole (480 * minute - 1) [] 0) cm
             (mkEntry (VStr "key") (VStr "tok") VNone VNone) 0);
      [reflexivity | reflexivity | vm_compute; reflexivity].
  - apply (cache_valid_until_expiry (mkConsole (480 * minute + 1) [] 0) cm
             (mkEntry (VStr "key") (VStr "tok") VNone VNone) 0);
      [reflexivity | reflexivity | vm_compute; reflexivity].
Defined.

(** A lone explicit key with an empty cache: the prompt runs, skips a line
    that is too short, and caches what it read at the time it finished. *)
Lemma resolution_first_match_wins_witness :
  let con := mkConsole 100
    [(5, "short"); (6, "  0123456789abcdef0123456789abcdef ");
     (7, "fedcba9876543210fedcba9876543210")] 0 in
  let cm := init 0 default_cache_duration_minutes VNone VNone in
  get_or_prompt_credentials (VStr "key") VNone con cm
  = get_or_prompt_credentials VNone VNone con cm
  ∧ (get_or_prompt_credentials (VStr "key") VNone con cm).1.1
    = Ok (VStr "0123456789abcdef0123456789abcdef",
          VStr "fedcba9876543210fedcba9876543210")
  ∧ credentials_timestamp
      (get_or_prompt_credentials (VStr "key") VNone con cm).2 = Some 118.
Proof.
  intros con cm.
  destruct (resolution_first_match_wins (VStr "key") VNone con cm)
    as (Heq & Hpartial & Hprompt).
  split; [apply Hpartial; reflexivity|].
  split; [rewrite Heq; reflexivity|].
  pose proof (Hprompt cm _ _ _ eq_refl) as (_ & Hts & _). exact Hts.
Defined.

End CredentialManagerFacts.

Section CatalogFacts.

Example catalog_names :
  Catalog.names =
    ["list_boards"; "get_board"; "create_board"; "update_board"; "get_lists";
     "create_list"; "get_cards"; "create_card"; "update_card";
     "add_member_to_card"; "search_cards"].
Proof. reflexivity. Qed.

Example catalog_required :
  Catalog.required "get_board" = ["board_id"]
  ∧ Catalog.required "create_card" = ["name"; "list_id"]
  ∧ Catalog.required "list_boards" = [].
Proof. vm_compute. done. Qed.

End CatalogFacts.

Section ServerFacts.
Import TrelloMCPServer.
Variable L : Lib.

Lemma eq_str_true (v : pyval) (s : string) : eq_str v s = true ↔ v = VStr s.
Proof.
  destruct v; simpl; try (split; [discriminate|congruence]).
  rewrite bool_decide_eq_true. split; congruence.
Qed.

Lemma error_response_well_formed (request_id : pyval) (code : Z)
    (message : string) :
  well_formed request_id (_create_error_response request_id code message).
Proof.
  unfold well_formed, _create_error_response. split.
  - by simplify_map_eq.
  - right. split; simplify_map_eq; eauto.
Qed.

Lemma result_response_well_formed (request_id result : pyval) :
  well_formed request_id (result_response request_id result).
Proof.
  unfold well_formed, result_response. split.
  - by simplify_map_eq.
  - left. split; simplify_map_eq; eauto.
Qed.

(** A handler of the form [try: ... except Exception as e: return f(e)]
    never raises. *)
Lemma catch_returns {σ A} (m : M σ A) (f : exn → A) (w : World) (s : σ) :
  match (catch m (λ e, mret (f e)) w s).1.1 with
  | Ok a => (m w s).1.1 = Ok a ∨ ∃ e, (m w s).1.1 = Raise e ∧ a = f e
  | Raise _ => False
  | Hang => (m w s).1.1 = Hang
  end.
Proof.
  unfold catch. destruct (m w s) as [[[a|e|] w'] s']; simpl; eauto.
Qed.

Lemma execute_tool_never_raises (tool_name arguments : pyval) (w : World)
    (tl : TrelloTools.t) (e : exn) :
  (TrelloTools.execute_tool L tool_name arguments w tl).1.1 ≠ Raise e.
Proof.
  unfold TrelloTools.execute_tool, catch.
  match goal with |- context [match ?m w tl with _ => _ end] =>
    destruct (m w tl) as [[[a|e'|] w'] tl'] end; done.
Qed.

Lemma handle_initialize_answers (request_id params : pyval) (w : World) (s : t) :
  ∃ response, (_handle_initialize L request_id params w s).1.1 = Ok response
              ∧ well_formed request_id response.
Proof.
  unfold _handle_initialize, catch, mbind, M_bind, lift, mret, M_ret.
  destruct (py_get params "protocolVersion" VNone) as [pv|e|] eqn:Hpv.
  - destruct (py_get params "clientInfo" (VDict ∅)) as [ci|e|] eqn:Hci.
    + destruct (negb (eq_str pv supported_version)); simpl; eexists;
        (split; [reflexivity|]);
        auto using error_response_well_formed, result_response_well_formed.
    + simpl. eexists; split; [reflexivity|apply error_response_well_formed].
    + by destruct params.
  - simpl. eexists; split; [reflexivity|apply error_response_well_formed].
  - by destruct params.
Qed.

Lemma handle_tool_call_answers (request_id params : pyval) (w : World) (s : t) :
  answers request_id (_handle_tool_call L request_id params w s).
Proof.
  unfold answers, _handle_tool_call, catch, mbind, M_bind, lift, mret, M_ret.
  destruct (py_get params "name" VNone) as [name|e|] eqn:Hname; simpl;
    [|apply error_response_well_formed|done].
  destruct (py_get params "arguments" (VDict ∅)) as [args|e|] eqn:Hargs; simpl;
    [|apply error_response_well_formed|done].
  destruct (negb (truthy name)); simpl; [apply error_response_well_formed|].
  destruct (tools s) as [tl|]; simpl; [|apply error_response_well_formed].
  unfold with_tools.
  pose proof (execute_tool_never_raises name args w tl) as Hnr.
  destruct (TrelloTools.execute_tool L name args w tl) as [[[a|e|] w'] tl'];
    simpl in *.
  - apply result_response_well_formed.
  - by destruct (Hnr e).
  - done.
Qed.

(** C9. For every inbound envelope, whatever its method and params: the
    protocol handler never raises; a response it produces echoes the
    request's correlation id ([request.get("id")]) and contains exactly one
    of [result] and [error].  A response is produced for every method but
    [tools/call], whose upstream call may be suspended for ever in the rate
    limiter. *)
Theorem handle_request_response_well_formed
    (request : gmap string pyval) (w : World) (s : t) :
  match (handle_request L request w s).1.1 with
  | Ok response =>
    response !! "id" = Some (dict_get request "id")
    ∧ ((is_Some (response !! "result") ∧ response !! "error" = None)
       ∨ (response !! "result" = None ∧ is_Some (response !! "error")))
  | Raise _ => False
  | Hang => dict_get request "method" = VStr "tools/call"
  end.
Proof.
  unfold handle_request, catch.
  destruct (eq_str (dict_get request "method") "initialize").
  { destruct (handle_initialize_answers (dict_get request "id")
                (dict_get_default request "params" (VDict ∅)) w s)
      as (response & Hr & Hwf).
    destruct (_handle_initialize _ _ _ _ _) as [[r w'] s'].
    simpl in Hr. by subst r. }
  destruct (eq_str (dict_get request "method") "tools/list").
  { simpl. apply result_response_well_formed. }
  destruct (eq_str (dict_get request "method") "tools/call") eqn:Hcall.
  { pose proof (handle_tool_call_answers (dict_get request "id")
                  (dict_get_default request "params" (VDict ∅)) w s) as Ha.
    unfold answers in Ha.
    destruct (_handle_tool_call _ _ _ _ _) as [[[r|e|] w'] s']; simpl in *;
      [done|done|]. by apply eq_str_true. }
  destruct (eq_str (dict_get request "method") "resources/list").
  { simpl. apply result_response_well_formed. }
  destruct (eq_str (dict_get request "method") "prompts/list").
  { simpl. apply result_response_well_formed. }
  simpl. apply error_response_well_formed.
Qed.

(** Params that are not an object are an internal fault of the handler:
    the attribute error is reported with code -32603. *)
Lemma initialize_params_not_object (request_id : pyval) (w : World) (s : t) :
  _handle_initialize L request_id VNone w s
  = (Ok (_create_error_response request_id (-32603)
           "'NoneType' object has no attribute 'get'"), w, s).
Proof. reflexivity. Qed.

(** C8. On params that are an object, [initialize] always answers; the
    answer is an error exactly when the requested [protocolVersion] is not
    the string "2024-11-05".  The error has code -32602 and a message that
    starts with "Unsupported protocol version"; the success carries the
    requested (supported) version, the server's capability flags and the
    server info.  The server is left unchanged. *)
Theorem initialize_checks_protocol_version
    (request_id : pyval) (params : gmap string pyval) (w : World) (s : t) :
  let version := dict_get params "protocolVersion" in
  ∃ response,
    _handle_initialize L request_id (VDict params) w s = (Ok response, w, s)
    ∧ response !! "id" = Some request_id
    ∧ (is_Some (response !! "error") ↔ version ≠ VStr "2024-11-05")
    ∧ (version ≠ VStr "2024-11-05" →
       response !! "result" = None
       ∧ response !! "error" =
           Some (VDict {[ "code" := VInt (-32602);
                          "message" :=
                            VStr ("Unsupported protocol version: "
                                  ++ py_str L version) ]}))
    ∧ (version = VStr "2024-11-05" →
       response !! "error" = None
       ∧ response !! "result" =
           Some (VDict {[ "protocolVersion" := VStr "2024-11-05";
                          "capabilities" := capabilities s;
                          "serverInfo" :=
                            VDict {[ "name" := VStr "trello-mcp";
                                     "version" := VStr "1.0.0" ]} ]})).
Proof.
  intros version.
  unfold _handle_initialize, catch, mbind, M_bind, lift, mret, M_ret.
  cbn [py_get].
  change (dict_get_default params "protocolVersion" VNone) with version.
  destruct (eq_str version supported_version) eqn:Hv; cbn [negb].
  - apply eq_str_true in Hv. eexists. split; [reflexivity|].
    unfold result_response. rewrite Hv.
    split_and!; by simplify_map_eq.
  - assert (version ≠ VStr "2024-11-05") as Hne.
    { intros Heq. apply eq_str_true in Heq. unfold supported_version in Hv.
      congruence. }
    eexists. split; [reflexivity|].
    unfold _create_error_response.
    split_and!; by simplify_map_eq.
Qed.

End ServerFacts.

Section ToolsFacts.
Import Schemas TrelloTools.
Variable L : Lib.

Lemma bind_ok {σ A B} (m : M σ A) (k : A → M σ B) (w w' : World) (s s' : σ)
    (a : A) :
  m w s = (Ok a, w', s') → (m ≫= k) w s = k a w' s'.
Proof. intros H. unfold mbind, M_bind. by rewrite H. Qed.

(** Resolving credentials touches the console and the credential manager
    only. *)
Lemma resolve_credentials_frame (args : gmap string pyval) (w : World) (s : t) :
  upstream (resolve_credentials args w s).1.2 = upstream w
  ∧ sent (resolve_credentials args w s).1.2 = sent w
  ∧ client (resolve_credentials args w s).2 = client s.
Proof.
  unfold resolve_credentials, get_or_prompt_credentials.
  destruct (negb _ || negb _); [|done].
  by destruct (CredentialManager.get_or_prompt_credentials _ _ _ _) as [[r c] cm].
Qed.

(** After a resolution by the credential manager that succeeded, the pair it
    returned is the pair in the cache. *)
Lemma manager_resolution_cached (api_key token k t : pyval)
    (c c' : console) (cm cm' : CredentialManager.t) :
  truthy api_key && truthy token = false →
  CredentialManager.get_or_prompt_credentials api_key token c cm
    = (Ok (k, t), c', cm') →
  ∃ e, CredentialManager.cached_credentials cm' = Some e
       ∧ CredentialManager.api_key e = k ∧ CredentialManager.token e = t.
Proof.
  intros Hpartial.
  rewrite resolution_cases, Hpartial.
  pose proof (λ cm0, prompt_caches_fresh c c' cm0 cm' (k, t)) as Hprompt.
  destruct (CredentialManager.cached_credentials cm) as [e|] eqn:He.
  - destruct (CredentialManager.credentials_timestamp cm) as [ts|].
    + case_decide.
      * intros [= <- <- <- <-]. eauto.
      * intros (He' & _ & _)%Hprompt. eauto.
    + intros (He' & _ & _)%Hprompt. eauto.
  - intros (He' & _ & _)%Hprompt. eauto.
Qed.

(** The rate limiter lets the call through: what [with_client] then leaves. *)
Lemma with_client_acquire_ok (w w2 : World) (s s2 : t) :
  with_client TrelloClient.acquire w s = (Ok (), w2, s2) →
  upstream w2 = upstream w ∧ sent w2 = sent w
  ∧ credential_manager s2 = credential_manager s
  ∧ ∃ c2, s2 = mk (Some c2) (credential_manager s)
          ∧ TrelloClient.acquire w (default TrelloClient.init (client s))
            = (Ok (), w2, c2).
Proof.
  unfold with_client.
  destruct (TrelloClient.acquire w _) as [[r w'] c'] eqn:Hacq.
  intros [= -> -> <-]. split_and!; try done; [| |eauto].
  all: unfold TrelloClient.acquire in Hacq;
    destruct (RateLimiter.acquire _ _ _) as [[o now] rl];
    by injection Hacq as _ <- _.
Qed.

(** The validation call answered with [401]. *)
Lemma validate_unauthorized (credentials : TrelloCredentials)
    (w w2 : World) (c c2 : TrelloClient.t) (text : string)
    (json : option pyval) :
  TrelloClient.acquire w c = (Ok (), w2, c2) →
  upstream w2 (TrelloClient.validation_request credentials)
    = Response 401 text json →
  TrelloClient.validate_credentials credentials w c
  = (Ok {[ "valid" := VBool false;
           "error" := VStr "Unauthorized - check your API key and token" ]},
     mkWorld (con w2) (upstream w2)
             (sent w2 ++ [TrelloClient.validation_request credentials]),
     c2).
Proof.
  intros Hacq H401.
  unfold TrelloClient.validate_credentials, catch_api,
    TrelloClient._make_request.
  unfold mbind, M_bind. rewrite Hacq. unfold TrelloClient.send.
  change (mkRequest "GET" _ _ VNone)
    with (TrelloClient.validation_request credentials).
  rewrite H401. reflexivity.
Qed.

(** The dispatcher up to the verdict of the validation call. *)
Lemma execute_tool_validated (tool_name : pyval) (args : gmap string pyval)
    (w w1 w2 : World) (s s1 s2 : t) (k tk : pyval)
    (credentials : TrelloCredentials) (verdict : gmap string pyval) :
  resolve_credentials args w s = (Ok (k, tk), w1, s1) →
  new_TrelloCredentials L k tk = Ok credentials →
  with_client (TrelloClient.validate_credentials credentials) w1 s1
    = (Ok verdict, w2, s2) →
  execute_tool L tool_name (VDict args) w s
  = catch
      (if negb (truthy (dict_get verdict "valid")) then
         mret (error_result
                 ("❌ Invalid credentials: "
                  ++ py_str L (dict_get verdict "error")))
       else dispatch L tool_name credentials args)
      execution_failed w2 s2.
Proof.
  intros Hres Hcred Hval. unfold execute_tool, catch.
  rewrite (bind_ok _ _ _ _ _ _ _ Hres).
  unfold mbind at 1, M_bind at 1. unfold lift at 1. rewrite Hcred.
  by rewrite (bind_ok _ _ _ _ _ _ _ Hval).
Qed.

(** C3 (as the code has it). Whenever the credentials resolve, form a valid
    credentials object, the rate limiter lets the validation call through
    and the upstream answers it with 401: dispatch returns the payload
    flagged [isError] whose text is "Invalid credentials: Unauthorized -
    check your API key and token", which the protocol handler wraps as an
    envelope-level [result].  The credential manager is left exactly as
    credential resolution left it; the cache is not cleared: when the manager
    resolved the pair, the rejected pair is still cached, and when both parts
    were explicit the manager is untouched. *)
Theorem invalid_credentials_reported_cache_kept
    (tool_name : pyval) (args : gmap string pyval)
    (w w1 w2 : World) (s s1 s2 : t) (k tk : pyval)
    (credentials : TrelloCredentials) (text : string) (json : option pyval) :
  resolve_credentials args w s = (Ok (k, tk), w1, s1) →
  new_TrelloCredentials L k tk = Ok credentials →
  with_client TrelloClient.acquire w1 s1 = (Ok (), w2, s2) →
  upstream w (TrelloClient.validation_request credentials)
    = Response 401 text json →
  let payload :=
    error_result
      "❌ Invalid credentials: Unauthorized - check your API key and token" in
  let w3 :=
    mkWorld (con w2) (upstream w)
            (sent w ++ [TrelloClient.validation_request credentials]) in
  execute_tool L tool_name (VDict args) w s = (Ok payload, w3, s2)
  ∧ credential_manager s2 = credential_manager s1
  ∧ (negb (truthy (dict_get args "api_key"))
     || negb (truthy (dict_get args "token")) = true →
     ∃ e, CredentialManager.cached_credentials (credential_manager s2) = Some e
          ∧ CredentialManager.api_key e = k
          ∧ CredentialManager.token e = tk)
  ∧ (negb (truthy (dict_get args "api_key"))
     || negb (truthy (dict_get args "token")) = false →
     credential_manager s2 = credential_manager s)
  ∧ (∀ request_id srv,
       TrelloMCPServer.tools srv = Some s →
       truthy tool_name = true →
       TrelloMCPServer._handle_tool_call L request_id
         (VDict {[ "name" := tool_name; "arguments" := VDict args ]}) w srv
       = (Ok (TrelloMCPServer.result_response request_id payload), w3,
          TrelloMCPServer.mk (Some s2) (TrelloMCPServer.initialized srv)
            (TrelloMCPServer.capabilities srv))).
Proof.
  intros Hres Hcred Hacq H401 payload w3.
  pose proof (resolve_credentials_frame args w s) as (Hup1 & Hsent1 & Hcl1).
  rewrite Hres in Hup1, Hsent1, Hcl1. simpl in Hup1, Hsent1, Hcl1.
  destruct (with_client_acquire_ok _ _ _ _ Hacq)
    as (Hup2 & Hsent2 & Hcm2 & c2 & Hs2 & Hacq').
  assert (Hval : with_client (TrelloClient.validate_credentials credentials)
                   w1 s1
                 = (Ok {[ "valid" := VBool false;
                          "error" :=
                            VStr "Unauthorized - check your API key and token" ]},
                    w3, s2)).
  { unfold with_client.
    rewrite (validate_unauthorized credentials _ _ _ _ text json Hacq')
      by (by rewrite Hup2, Hup1).
    subst w3. by rewrite Hup2, Hup1, Hsent2, Hsent1, Hs2. }
  assert (Hexec : execute_tool L tool_name (VDict args) w s = (Ok payload, w3, s2)).
  { rewrite (execute_tool_validated _ _ _ _ _ _ _ _ _ _ _ _ Hres Hcred Hval).
    reflexivity. }
  split_and!; [exact Hexec|exact Hcm2| | |].
  - intros Hmgr. rewrite Hcm2.
    unfold resolve_credentials in Hres. rewrite Hmgr in Hres.
    unfold get_or_prompt_credentials in Hres.
    destruct (CredentialManager.get_or_prompt_credentials _ _ _ _)
      as [[r c'] cm'] eqn:Hget.
    injection Hres as -> <- <-. simpl.
    eapply manager_resolution_cached; [|exact Hget].
    apply orb_true_iff in Hmgr as [->%negb_true_iff| ->%negb_true_iff];
      [done|apply andb_false_r].
  - intros Hexp. rewrite Hcm2.
    unfold resolve_credentials in Hres. rewrite Hexp in Hres.
    by injection Hres as _ _ _ <-.
  - intros request_id srv Htools Hname.
    assert (Hn : py_get (VDict {[ "name" := tool_name;
                                  "arguments" := VDict args ]}) "name" VNone
                 = Ok tool_name)
      by (unfold py_get, dict_get_default; by simplify_map_eq).
    assert (Ha : py_get (VDict {[ "name" := tool_name;
                                  "arguments" := VDict args ]}) "arguments"
                   (VDict ∅)
                 = Ok (VDict args))
      by (unfold py_get, dict_get_default; by simplify_map_eq).
    unfold TrelloMCPServer._handle_tool_call, catch, mbind, M_bind, lift,
      mret, M_ret.
    rewrite Hn, Ha, Hname. cbn [negb]. cbv beta. rewrite Htools.
    unfold TrelloMCPServer.with_tools. by rewrite Hexec.
Qed.

(** A validation call that returned was issued upstream, exactly once, by a
    client that now exists; the credential manager is not involved. *)
Lemma validate_returns_sent (credentials : TrelloCredentials)
    (w w2 : World) (s s2 : t) (verdict : gmap string pyval) :
  with_client (TrelloClient.validate_credentials credentials) w s
    = (Ok verdict, w2, s2) →
  sent w2 = sent w ++ [TrelloClient.validation_request credentials]
  ∧ upstream w2 = upstream w
  ∧ credential_manager s2 = credential_manager s
  ∧ is_Some (client s2).
Proof.
  unfold with_client, TrelloClient.validate_credentials, catch_api,
    TrelloClient._make_request, mbind, M_bind, TrelloClient.acquire,
    TrelloClient.send.
  destruct (RateLimiter.acquire _ _ _) as [[o now] rl].
  change (mkRequest "GET" _ _ VNone)
    with (TrelloClient.validation_request credentials).
  destruct o; try (simpl; discriminate); cbn [set_con con upstream sent].
  destruct (upstream w _) as [status text json|message|e]; simpl.
  - repeat case_decide; simpl; intros [= <- <- <-]; simpl; eauto.
  - intros [= <- <- <-]; simpl; eauto.
  - destruct e; simpl; [|discriminate]. intros [= <- <- <-]; simpl; eauto.
Qed.

Lemma eq_str_false (v : pyval) (s : string) : v ≠ VStr s → eq_str v s = false.
Proof.
  intros Hne. destruct (eq_str v s) eqn:H; [|done].
  by apply eq_str_true in H.
Qed.

(** C4 (as the code has it). For every tool name outside the catalog and
    every argument map, the unknown name is only noticed after the
    credentials have been resolved and validated: when the resolution
    succeeds and the validation call returns a positive verdict, dispatch
    returns the payload flagged [isError] with text "Unknown tool: <name>".
    No operation handler has run: the world and the dispatcher are those the
    validation left, in which the validation call has been issued upstream
    by the (possibly just created) client and the credential manager is as
    the resolution left it. *)
Theorem unknown_tool_reported_after_validation
    (tool_name : pyval) (args : gmap string pyval)
    (w w1 w2 : World) (s s1 s2 : t) (k tk : pyval)
    (credentials : TrelloCredentials) (verdict : gmap string pyval) :
  (∀ name, name ∈ Catalog.names → tool_name ≠ VStr name) →
  resolve_credentials args w s = (Ok (k, tk), w1, s1) →
  new_TrelloCredentials L k tk = Ok credentials →
  with_client (TrelloClient.validate_credentials credentials) w1 s1
    = (Ok verdict, w2, s2) →
  truthy (dict_get verdict "valid") = true →
  execute_tool L tool_name (VDict args) w s
  = (Ok (error_result ("❌ Unknown tool: " ++ py_str L tool_name)), w2, s2)
  ∧ sent w2 = sent w ++ [TrelloClient.validation_request credentials]
  ∧ credential_manager s2 = credential_manager s1
  ∧ is_Some (client s2).
Proof.
  intros Hunknown Hres Hcred Hval Hvalid.
  pose proof (resolve_credentials_frame args w s) as (_ & Hsent1 & _).
  rewrite Hres in Hsent1. simpl in Hsent1.
  destruct (validate_returns_sent _ _ _ _ _ _ Hval) as (Hsent & _ & Hcm & Hcl).
  rewrite Hsent1 in Hsent. split_and!; try done.
  rewrite (execute_tool_validated _ _ _ _ _ _ _ _ _ _ _ _ Hres Hcred Hval).
  rewrite Hvalid. cbn [negb]. unfold dispatch.
  rewrite !eq_str_false; [done|..];
    apply Hunknown; unfold Catalog.names; simpl;
    repeat (first [left | right]).
Qed.

(** Failures add up over the fields of a model, and a model with a failing
    field is never built. *)
Lemma errors_of_ap {A B} (f : validated (A → B)) (x : validated A) :
  errors_of (ap f x) = errors_of f ++ errors_of x.
Proof. destruct f, x; simpl; by rewrite ?app_nil_r. Qed.

Lemma errors_of_field {A} (name : string) (v : pyval) (r : checked A) :
  Forall (λ f, loc f = name) (errors_of (field name v r)).
Proof. destruct r; simpl; repeat constructor. Qed.

Lemma ap_failed_l {A B} (f : validated (A → B)) (x : validated A) :
  (∃ errors, f = inl errors) → ∃ errors, ap f x = inl errors.
Proof. intros [errors ->]. destruct x; simpl; eauto. Qed.

Lemma ap_failed_r {A B} (f : validated (A → B)) (x : validated A) :
  (∃ errors, x = inl errors) → ∃ errors, ap f x = inl errors.
Proof. intros [errors ->]. destruct f; simpl; eauto. Qed.

Lemma ap_inr {A B} (f : validated (A → B)) (x : validated A) (b : B) :
  ap f x = inr b → ∃ g a, f = inr g ∧ x = inr a ∧ b = g a.
Proof. destruct f, x; simpl; intros [= <-]; eauto. Qed.

Lemma field_inr {A} (name : string) (v : pyval) (r : checked A) (a : A) :
  field name v r = inr a → r = inr a.
Proof. by destruct r; simpl; intros [= <-]. Qed.

Lemma and_then_inr {A B} (r : checked A) (validator : A → checked B)
    (b : B) :
  and_then r validator = inr b → ∃ a, r = inr a ∧ validator a = inr b.
Proof. destruct r; simpl; [discriminate|eauto]. Qed.

Lemma built_ok {A} (model : string) (r : validated A) (a : A) :
  built L model r = Ok a → r = inr a.
Proof. by destruct r; simpl; intros [= <-]. Qed.

Lemma built_rejected {A} (model : string) (r : validated A) :
  (∃ errors, r = inl errors) → rejected (built L model r).
Proof. intros [errors ->]. unfold rejected, built, ValidationError. eauto. Qed.

Lemma built_errors {A} (model : string) (r : validated A) :
  errors_of r ≠ [] →
  built L model r = Raise (ValidationError L model (errors_of r)).
Proof. by destruct r. Qed.

Ltac failing_field :=
  apply built_rejected;
  repeat first [ by (apply ap_failed_r; eexists; reflexivity)
               | apply ap_failed_l ].

(** A request model with a required field left out is never built. *)
Lemma create_board_request_rejected (desc organization_id default_lists
    prefs : pyval) :
  rejected (new_CreateBoardRequest L VNone desc organization_id
              default_lists prefs).
Proof. unfold new_CreateBoardRequest. failing_field. Qed.

Lemma create_list_request_rejected (name board_id pos : pyval) :
  name = VNone ∨ board_id = VNone →
  rejected (new_CreateListRequest L name board_id pos).
Proof. intros [-> | ->]; unfold new_CreateListRequest; failing_field. Qed.

Lemma create_card_request_rejected (name list_id desc pos : pyval)
    (due : option datetime) (labels members : pyval) :
  name = VNone ∨ list_id = VNone →
  rejected (new_CreateCardRequest L name list_id desc pos due labels members).
Proof. intros [-> | ->]; unfold new_CreateCardRequest; failing_field. Qed.

Lemma search_request_rejected (board_ids limit : pyval) :
  rejected (new_SearchRequest L VNone board_ids limit).
Proof. unfold new_SearchRequest. failing_field. Qed.

(** The failures of a card without a name: the one of [name] comes first,
    the others are those of the other fields, [list_id] next when it is
    missing too. *)
Lemma create_card_request_errors (list_id desc pos : pyval)
    (due : option datetime) (labels members : pyval) :
  ∃ rest,
    new_CreateCardRequest L VNone list_id desc pos due labels members
    = Raise (ValidationError L "CreateCardRequest"
               (mkFailure "name" NoneNotAllowed VNone :: rest))
    ∧ Forall (λ f, loc f ≠ "name") rest
    ∧ (list_id = VNone →
       ∃ rest', rest = mkFailure "list_id" NoneNotAllowed VNone :: rest').
Proof.
  unfold new_CreateCardRequest. rewrite built_errors;
    rewrite !errors_of_ap; cbn [errors_of field and_then str_field app];
    [|done].
  eexists. split; [reflexivity|]. split.
  - repeat (apply Forall_app; split);
      try (eapply Forall_impl; [apply errors_of_field|];
           by intros f ->);
      constructor.
  - intros ->. cbn [errors_of field and_then str_field app]. eauto.
Qed.

(** A handler whose request model is rejected ends in the dispatcher's
    [except Exception] clause, the world and the dispatcher untouched. *)
Lemma rejected_request_fails {A} (request : res A) (k : A → M t pyval)
    (what : string) (w : World) (s : t) :
  rejected request →
  ∃ text,
    catch (catch_api (lift request ≫= k) (failed_to what))
      execution_failed w s
    = (Ok (error_result text), w, s).
Proof.
  intros (cls & msg & ->). eexists. reflexivity.
Qed.

Lemma create_card_missing (credentials : TrelloCredentials)
    (args : gmap string pyval) (w : World) (s : t) :
  dict_get args "name" = VNone ∨ dict_get args "list_id" = VNone →
  ∃ text,
    catch (_create_card L credentials args) execution_failed w s
    = (Ok (error_result text), w, s).
Proof.
  intros Hmissing. unfold _create_card.
  assert (Hfinish : ∀ due, ∃ text,
    catch (catch_api
             (lift (new_CreateCardRequest L (dict_get args "name")
                      (dict_get args "list_id") (dict_get args "desc")
                      (dict_get args "pos") due (dict_get args "labels")
                      (dict_get args "members"))
              ≫= λ request,
                   with_client (TrelloClient.create_card credentials request)
                   ≫= λ card, rendered L "create_card" card [])
             (failed_to "create card")) execution_failed w s
    = (Ok (error_result text), w, s)).
  { intros due. apply rejected_request_fails.
    by apply create_card_request_rejected. }
  destruct (truthy (dict_get args "due")); [|apply Hfinish].
  destruct (dict_get args "due") as [| | | |d| |];
    try (eexists; reflexivity).
  destruct (fromisoformat L (replace_Z d)) as [due|] eqn:Hparse.
  - destruct (Hfinish (Some due)) as [text Htext]. exists text.
    rewrite <- Htext. unfold catch, catch_api, mbind, M_bind, lift, parse_due.
    by rewrite Hparse.
  - eexists. unfold catch, catch_api, mbind, M_bind, lift, parse_due.
    rewrite Hparse. reflexivity.
Qed.

Lemma get_board_calls_upstream (credentials : TrelloCredentials)
    (args : gmap string pyval) (w w' : World) (s s' : t) :
  with_client TrelloClient.acquire w s = (Ok (), w', s') →
  ∃ r,
    catch (_get_board L credentials args) execution_failed w s
    = (r,
       mkWorld (con w') (upstream w)
         (sent w ++ [TrelloClient.board_request L credentials
                       (dict_get args "board_id")]),
       s').
Proof.
  intros Hacq.
  destruct (with_client_acquire_ok _ _ _ _ Hacq)
    as (Hup & Hsent & _ & c' & -> & Hacq').
  unfold _get_board, catch, catch_api, mbind, M_bind, with_client,
    TrelloClient.get_board, TrelloClient._make_request, mbind, M_bind,
    TrelloClient.send.
  rewrite Hacq', Hup, Hsent.
  change (mkRequest "GET" _ _ VNone)
    with (TrelloClient.board_request L credentials (dict_get args "board_id")).
  destruct (upstream w _) as [status text json|message|e];
    [repeat case_decide| |destruct e]; simpl;
    unfold rendered, mbind, M_bind, lift;
    try destruct (render L _ _ _) as [?|[]|]; simpl; eauto.
Qed.

(** C5 (as the code has it). Dispatch checks no argument against the
    catalog's [required] lists; once the credentials have resolved and
    validated, the handler of the named tool runs.
    - For [create_board], [create_list], [create_card] and [search_cards], a
      missing required parameter is caught by the request model: dispatch
      returns a payload flagged [isError], and the world and the dispatcher
      are those the validation left, so no operation call went upstream.
      When [create_card] has no [name] (and no [due]) the text is "Tool
      execution failed: " followed by the text of the model's validation
      error, which reports every failing field: [name] first, refused as
      [None], then [list_id] when it is missing too, then whatever else
      the other fields refuse.
    - For [get_board] nothing catches it: when the rate limiter lets the
      call through, the handler's call to the upstream adapter is issued
      with the board id rendered from the missing value, [boards/None]. *)
Theorem missing_required_parameter
    (args : gmap string pyval) (w w1 w2 : World) (s s1 s2 : t) (k tk : pyval)
    (credentials : TrelloCredentials) (verdict : gmap string pyval) :
  resolve_credentials args w s = (Ok (k, tk), w1, s1) →
  new_TrelloCredentials L k tk = Ok credentials →
  with_client (TrelloClient.validate_credentials credentials) w1 s1
    = (Ok verdict, w2, s2) →
  truthy (dict_get verdict "valid") = true →
  (∀ tool parameter,
     tool ∈ ["create_board"; "create_list"; "create_card"; "search_cards"] →
     parameter ∈ Catalog.required tool →
     args !! parameter = None →
     ∃ text, execute_tool L (VStr tool) (VDict args) w s
             = (Ok (error_result text), w2, s2))
  ∧ (args !! "name" = None → args !! "due" = None →
     ∃ rest,
       execute_tool L (VStr "create_card") (VDict args) w s
       = (Ok (error_result
                ("❌ Tool execution failed: "
                 ++ validation_text L "CreateCardRequest"
                      (mkFailure "name" NoneNotAllowed VNone :: rest))),
          w2, s2)
       ∧ Forall (λ f, loc f ≠ "name") rest
       ∧ (args !! "list_id" = None →
          ∃ rest', rest = mkFailure "list_id" NoneNotAllowed VNone :: rest'))
  ∧ (args !! "board_id" = None →
     ∀ w3 s3, with_client TrelloClient.acquire w2 s2 = (Ok (), w3, s3) →
     ∃ r, execute_tool L (VStr "get_board") (VDict args) w s
          = (r,
             mkWorld (con w3) (upstream w)
               (sent w
                ++ [TrelloClient.validation_request credentials;
                    TrelloClient.board_request L credentials VNone]),
             s3)
          ∧ http_url (TrelloClient.board_request L credentials VNone)
            = "https://api.trello.com/1/boards/None").
Proof.
  intros Hres Hcred Hval Hvalid.
  pose proof (execute_tool_validated) as Hexec.
  specialize (λ name, Hexec name _ _ _ _ _ _ _ _ _ _ _ Hres Hcred Hval).
  rewrite Hvalid in Hexec. cbn [negb] in Hexec.
  pose proof (resolve_credentials_frame args w s) as (Hup1 & Hsent1 & _).
  rewrite Hres in Hup1, Hsent1. simpl in Hup1, Hsent1.
  destruct (validate_returns_sent _ _ _ _ _ _ Hval) as (Hsent2 & Hup2 & _ & _).
  split_and!.
  - intros tool parameter Htool Hparam Hmissing.
    assert (Hget : dict_get args parameter = VNone)
      by (unfold dict_get; by rewrite Hmissing).
    rewrite Hexec.
    repeat (apply elem_of_cons in Htool as [->|Htool]);
      [| | | |by apply elem_of_nil in Htool];
      vm_compute in Hparam;
      repeat (apply elem_of_cons in Hparam as [->|Hparam]);
      try (by apply elem_of_nil in Hparam).
    + apply rejected_request_fails. rewrite Hget.
      apply create_board_request_rejected.
    + apply rejected_request_fails, create_list_request_rejected. by left.
    + apply rejected_request_fails, create_list_request_rejected. by right.
    + apply create_card_missing. by left.
    + apply create_card_missing. by right.
    + apply rejected_request_fails. rewrite Hget.
      apply search_request_rejected.
  - intros Hname Hdue.
    destruct (create_card_request_errors (dict_get args "list_id")
                (dict_get args "desc") (dict_get args "pos") None
                (dict_get args "labels") (dict_get args "members"))
      as (rest & Hbuilt & Hrest & Hlist).
    exists rest. split_and!; [|done|].
    + assert (Hn : dict_get args "name" = VNone)
        by (unfold dict_get; by rewrite Hname).
      assert (Hd : dict_get args "due" = VNone)
        by (unfold dict_get; by rewrite Hdue).
      rewrite Hexec.
      unfold dispatch, _create_card. cbn [eq_str bool_decide].
      unfold catch, catch_api, mbind, M_bind, lift.
      rewrite Hn, Hd. cbn [truthy]. by rewrite Hbuilt.
    + intros Hmissing. apply Hlist. unfold dict_get. by rewrite Hmissing.
  - intros Hboard w3 s3 Hacq.
    destruct (get_board_calls_upstream credentials args _ _ _ _ Hacq)
      as [r Hr].
    exists r. split; [|reflexivity]. rewrite Hexec.
    change (dispatch L (VStr "get_board") credentials args)
      with (_get_board L credentials args).
    rewrite Hr. unfold dict_get. rewrite Hboard. simpl.
    by rewrite Hup2, Hup1, Hsent2, Hsent1, <- app_assoc.
Qed.

(** The request model keeps the due date it is given, and the parameter set
    built from a model without a due date has no [due] key. *)
Lemma update_card_request_due (name desc closed list_id pos : pyval)
    (due : option datetime) (request : UpdateCardRequest) :
  new_UpdateCardRequest L name desc closed list_id pos due = Ok request →
  uc_due request = due.
Proof.
  unfold new_UpdateCardRequest.
  destruct (validate_name_pre "Card" name) as [checked_name|e|]; simpl;
    try discriminate.
  intros H. apply built_ok in H.
  apply ap_inr in H as (g & a & H & Ha & ->). injection Ha as <-.
  repeat (apply ap_inr in H as (? & ? & H & _ & ->)).
  destruct (field "name" name checked_name); [discriminate|].
  by injection H as <-.
Qed.

Lemma update_card_params_no_due (request : UpdateCardRequest) :
  uc_due request = None →
  TrelloClient.update_card_params request !! "due" = None.
Proof.
  intros Hdue. unfold TrelloClient.update_card_params, TrelloClient.set_some.
  rewrite Hdue.
  destruct (uc_name request), (uc_desc request), (uc_closed request),
    (uc_list_id request), (uc_pos request); by simplify_map_eq.
Qed.

Lemma update_card_sends_no_due (credentials : TrelloCredentials)
    (card_id : pyval) (request : UpdateCardRequest) (what : string)
    (w : World) (s : t) :
  uc_due request = None →
  let r :=
    catch_api
      (with_client (TrelloClient.update_card L credentials card_id request)
       ≫= λ card, rendered L "update_card" card [])
      (failed_to what) w s in
  sent r.1.2 = sent w
  ∨ ∃ sent_request,
      sent r.1.2 = sent w ++ [sent_request]
      ∧ http_method sent_request = "PUT"
      ∧ http_params sent_request !! "due" = None.
Proof.
  intros Hdue.
  assert (Hparams :
    (<["token" := VStr (token credentials)]>
       (<["key" := VStr (api_key credentials)]>
          (TrelloClient.update_card_params request)) : gmap string pyval)
      !! "due" = None).
  { rewrite !lookup_insert_ne by done. by apply update_card_params_no_due. }
  unfold catch_api, mbind, M_bind, with_client, TrelloClient.update_card,
    TrelloClient._make_request, mbind, M_bind, TrelloClient.acquire,
    TrelloClient.send.
  destruct (RateLimiter.acquire _ _ _) as [[o now] rl].
  destruct o; cbn [set_con con upstream sent]; try (by left).
  right. eexists. cbn [default].
  destruct (upstream w _) as [status text json|message|e];
    [repeat case_decide| |destruct e]; simpl;
    unfold rendered, mbind, M_bind, lift;
    try destruct (render L _ _ _) as [?|[]|]; simpl; eauto.
Qed.

(** Dispatch looks at the arguments only to resolve the credentials and
    inside the handler. *)
Lemma execute_tool_ext (tool_name : pyval) (args args' : gmap string pyval)
    (w : World) (s : t) :
  resolve_credentials args w s = resolve_credentials args' w s →
  (∀ credentials w s,
     dispatch L tool_name credentials args w s
     = dispatch L tool_name credentials args' w s) →
  execute_tool L tool_name (VDict args) w s
  = execute_tool L tool_name (VDict args') w s.
Proof.
  intros Hres Hdispatch. unfold execute_tool, catch, mbind, M_bind.
  rewrite Hres.
  destruct (resolve_credentials args' w s) as [[[[k tk]|e|] w1] s1];
    try done.
  unfold lift.
  destruct (new_TrelloCredentials L k tk) as [c|e|]; try done.
  destruct (with_client _ w1 s1) as [[[verdict|e|] w2] s2]; try done.
  destruct (negb _); [done|].
  by rewrite Hdispatch.
Qed.

(** C10. For every [update_card] call whose arguments hold the key "due"
    with value null or the empty string: the handler behaves exactly as on
    the same arguments with "due" removed (same result, same world, same
    dispatcher), and so does the whole dispatch; the call it issues
    upstream, when it issues one, is a [PUT] whose parameter set has no
    "due" key. *)
Theorem update_card_null_due_is_omitted
    (credentials : TrelloCredentials) (args : gmap string pyval)
    (w : World) (s : t) :
  args !! "due" = Some VNone ∨ args !! "due" = Some (VStr "") →
  _update_card L credentials args w s
  = _update_card L credentials (delete "due" args) w s
  ∧ execute_tool L (VStr "update_card") (VDict args) w s
    = execute_tool L (VStr "update_card") (VDict (delete "due" args)) w s
  ∧ (sent (_update_card L credentials args w s).1.2 = sent w
     ∨ ∃ sent_request,
         sent (_update_card L credentials args w s).1.2
         = sent w ++ [sent_request]
         ∧ http_method sent_request = "PUT"
         ∧ http_params sent_request !! "due" = None).
Proof.
  intros Hdue.
  assert (Hget : ∀ key, key ≠ "due" →
            dict_get (delete "due" args) key = dict_get args key).
  { intros key Hkey. unfold dict_get. by rewrite lookup_delete_ne. }
  assert (Hhandler : ∀ credentials w s,
            _update_card L credentials args w s
            = _update_card L credentials (delete "due" args) w s).
  { intros c w' s'. unfold _update_card.
    rewrite !Hget by done. rewrite lookup_delete_eq.
    by destruct Hdue as [-> | ->]. }
  split_and!.
  - apply Hhandler.
  - apply execute_tool_ext.
    + unfold resolve_credentials. by rewrite !Hget.
    + intros c w' s'. apply (Hhandler c w' s').
  - unfold _update_card.
    assert (Hnone : ∀ due : pyval,
              args !! "due" = Some due →
              (match due with VNone => true | _ => eq_str due "" end) = true)
      by (intros due Hd; destruct Hdue as [H|H]; rewrite H in Hd;
          by injection Hd as <-).
    destruct (args !! "due") as [due|] eqn:Hd; [|by destruct Hdue].
    rewrite (Hnone due eq_refl).
    destruct (new_UpdateCardRequest L (dict_get args "name")
                (dict_get args "desc") (dict_get args "closed")
                (dict_get args "list_id") (dict_get args "pos") None)
      as [request|e|] eqn:Hrequest.
    + pose proof (update_card_sends_no_due credentials
                    (dict_get args "card_id") request "update card" w s
                    (update_card_request_due _ _ _ _ _ _ _ Hrequest)) as Hs.
      exact Hs.
    + left. by destruct e.
    + by left.
Qed.

End ToolsFacts.

(* ===================================================================== *)
(** * The properties on concrete runs *)
(* ===================================================================== *)

Section Runs.
Import Schemas TrelloTools Demo.

(** A cached pair, the upstream rejecting it with 401: the payload reports
    invalid credentials and the pair is still cached afterwards, with its
    timestamp. *)
Lemma invalid_credentials_cache_not_cleared :
  let r := execute_tool lib (VStr "list_boards") (VDict ∅)
             (mkWorld (mkConsole 100 [] 0) rejects_all []) cached_tools in
  r.1.1 = Ok (error_result
    "❌ Invalid credentials: Unauthorized - check your API key and token")
  ∧ ¬ (CredentialManager.cached_credentials (credential_manager r.2) = None
       ∧ CredentialManager.credentials_timestamp (credential_manager r.2)
         = None).
Proof.
  split; [vm_compute; reflexivity|].
  vm_compute. by intros [? _].
Qed.

Lemma invalid_credentials_reported_cache_kept_witness :
  let w := mkWorld (mkConsole 100 [] 0) rejects_all [] in
  let r := execute_tool lib (VStr "list_boards") (VDict ∅) w cached_tools in
  r.1.1 = Ok (error_result
    "❌ Invalid credentials: Unauthorized - check your API key and token")
  ∧ sent r.1.2 = [TrelloClient.validation_request credentials]
  ∧ credential_manager r.2 = credential_manager cached_tools.
Proof.
  intros w r.
  destruct (invalid_credentials_reported_cache_kept lib (VStr "list_boards")
               ∅ w w w cached_tools cached_tools
               (mk (Some (TrelloClient.mk
                            (RateLimiter.mk 300 (10 * second) [100] false)))
                   (credential_manager cached_tools))
               (VStr key32) (VStr token32) credentials "invalid key" None)
    as (Hexec & Hcm & _).
  - reflexivity.
  - reflexivity.
  - reflexivity.
  - reflexivity.
  - subst r. rewrite Hexec. split_and!; [reflexivity|reflexivity|exact Hcm].
Defined.

(** Nothing cached, a user at the console, an upstream that accepts: a
    dispatch to a tool that does not exist prompts the user, caches what was
    typed, creates the client, records a call in its rate limiter and
    issues the validation call, before it reports the unknown tool. *)
Lemma unknown_tool_has_side_effects :
  let w := mkWorld (mkConsole 0 typing 0) accepts_all [] in
  let r := execute_tool lib (VStr "no_such_tool") (VDict ∅) w fresh_tools in
  ("no_such_tool" ∉ Catalog.names)
  ∧ r.1.1 = Ok (error_result "❌ Unknown tool: no_such_tool")
  ∧ prompts (con r.1.2) = 1%nat
  ∧ sent r.1.2 = [TrelloClient.validation_request credentials]
  ∧ CredentialManager.cached_credentials (credential_manager r.2)
    = Some (CredentialManager.mkEntry (VStr key32) (VStr token32) VNone VNone)
  ∧ client r.2
    = Some (TrelloClient.mk (RateLimiter.mk 300 (10 * second) [2] false))
  ∧ ¬ (sent r.1.2 = sent w
       ∧ credential_manager r.2 = credential_manager fresh_tools
       ∧ client r.2 = client fresh_tools).
Proof.
  split_and!; try (vm_compute; reflexivity).
  - vm_compute. intros H.
    repeat (apply elem_of_cons in H as [H|H]; [discriminate|]).
    by apply elem_of_nil in H.
  - vm_compute. by intros (? & _).
Qed.

Lemma unknown_tool_reported_after_validation_witness :
  let w := mkWorld (mkConsole 0 typing 0) accepts_all [] in
  let r := execute_tool lib (VStr "no_such_tool") (VDict ∅) w fresh_tools in
  r.1.1 = Ok (error_result "❌ Unknown tool: no_such_tool")
  ∧ sent r.1.2 = [TrelloClient.validation_request credentials].
Proof.
  intros w r.
  edestruct unknown_tool_reported_after_validation
    with (L := lib) (tool_name := VStr "no_such_tool")
         (args := (∅ : gmap string pyval)) (w := w) (s := fresh_tools)
    as (Hexec & Hsent & _ & _).
  - intros name Hname [= <-]. revert Hname. vm_compute. intros H.
    repeat (apply elem_of_cons in H as [H|H]; [discriminate|]).
    by apply elem_of_nil in H.
  - reflexivity.
  - reflexivity.
  - reflexivity.
  - reflexivity.
  - subst r. rewrite Hexec. split; [reflexivity|exact Hsent].
Defined.

(** [get_board] called with credentials but without [board_id], on an
    upstream that accepts everything: [board_id] is required by the
    catalog, yet the handler runs, asks the upstream for [boards/None] and
    the payload is a success (its text is the demo rendering). *)
Lemma get_board_without_board_id_calls_upstream :
  let args : gmap string pyval :=
    {[ "api_key" := VStr key32; "token" := VStr token32 ]} in
  let r := execute_tool lib (VStr "get_board") (VDict args)
             (mkWorld (mkConsole 0 [] 0) accepts_all []) fresh_tools in
  "board_id" ∈ Catalog.required "get_board"
  ∧ args !! "board_id" = None
  ∧ r.1.1 = Ok (text_result "get_board")
  ∧ sent r.1.2 = [TrelloClient.validation_request credentials;
                  TrelloClient.board_request lib credentials VNone]
  ∧ http_url (TrelloClient.board_request lib credentials VNone)
    = "https://api.trello.com/1/boards/None".
Proof.
  split_and!; try (vm_compute; reflexivity).
  vm_compute. left.
Qed.

Lemma missing_required_parameter_witness :
  let args : gmap string pyval :=
    {[ "api_key" := VStr key32; "token" := VStr token32 ]} in
  let w := mkWorld (mkConsole 0 [] 0) accepts_all [] in
  sent (execute_tool lib (VStr "get_board") (VDict args) w fresh_tools).1.2
  = [TrelloClient.validation_request credentials;
     TrelloClient.board_request lib credentials VNone]
  ∧ (∃ rest,
       execute_tool lib (VStr "create_card") (VDict args) w fresh_tools
       = (Ok (error_result
                (String.append "❌ Tool execution failed: "
                   (validation_text lib "CreateCardRequest"
                      (mkFailure "name" NoneNotAllowed VNone
                       :: mkFailure "list_id" NoneNotAllowed VNone
                       :: rest)))),
          mkWorld (mkConsole 0 [] 0) accepts_all
            [TrelloClient.validation_request credentials],
          mk (Some (TrelloClient.mk
                      (RateLimiter.mk 300 (10 * second) [0] false)))
             (credential_manager fresh_tools)))
  ∧ (execute_tool lib (VStr "create_card") (VDict args) w fresh_tools).1.1
    = Ok (error_result
            "❌ Tool execution failed: CreateCardRequest: name, list_id").
Proof.
  intros args w.
  edestruct missing_required_parameter
    with (L := lib) (args := args) (w := w) (s := fresh_tools)
    as (_ & Hcard & Hboard); [reflexivity..|].
  split_and!.
  - edestruct Hboard as (r & Hr & _); [reflexivity..|].
    rewrite Hr. reflexivity.
  - destruct (Hcard eq_refl eq_refl) as (rest & Hexec & _ & Hlist).
    destruct (Hlist eq_refl) as [rest' ->]. exists rest'. exact Hexec.
  - reflexivity.
Defined.

(** [update_card] with ["due": null]: the same as without the key; the
    [PUT] that goes upstream carries the new name and no [due]. *)
Lemma update_card_null_due_is_omitted_witness :
  let w := mkWorld (mkConsole 0 [] 0) accepts_all [] in
  let r := _update_card lib credentials
             {[ "card_id" := VStr "c1"; "due" := VNone;
                "name" := VStr "New" ]} w fresh_tools in
  r = _update_card lib credentials
        {[ "card_id" := VStr "c1"; "name" := VStr "New" ]} w fresh_tools
  ∧ ∃ sent_request,
      sent r.1.2 = [sent_request]
      ∧ http_url sent_request = "https://api.trello.com/1/cards/c1"
      ∧ http_params sent_request !! "name" = Some (VStr "New")
      ∧ http_params sent_request !! "due" = None.
Proof.
  intros w r.
  destruct (update_card_null_due_is_omitted lib credentials
              {[ "card_id" := VStr "c1"; "due" := VNone;
                 "name" := VStr "New" ]} w fresh_tools)
    as (Hsame & _ & _); [left; reflexivity|].
  split; [exact Hsame|].
  eexists. split_and!; reflexivity.
Defined.

End Runs.

(* ===================================================================== *)
(** * Further properties of the rate limiter *)
(* ===================================================================== *)

Section RateLimiterMore.
Import RateLimiter.

Lemma prune_length (now : Z) (rl : t) :
  (length (prune now rl) ≤ length (requests rl))%nat.
Proof. apply length_filter. Qed.

(** A call that finds the lock free and room in the pruned window. *)
Lemma acquire_room (fuel : nat) (now : Z) (rl : t) :
  _lock rl = false →
  Z.of_nat (length (prune now rl)) < max_requests rl →
  acquire (S fuel) now rl
  = (Recorded now, now, set_requests (prune now rl ++ [now]) rl).
Proof.
  intros Hfree Hroom.
  pose proof (acquire_free fuel now rl Hfree) as Hstep. cbv zeta in Hstep.
  by rewrite decide_False in Hstep by lia.
Qed.

Lemma run_burst_from (fuel : nat) (delays : list Z) :
  ∀ now rl recorded,
    _lock rl = false →
    Z.of_nat (length (requests rl)) + Z.of_nat (length delays)
      ≤ max_requests rl →
    (run (S fuel) delays now rl recorded).1.1
      = recorded ++ arrivals now delays
    ∧ (run (S fuel) delays now rl recorded).1.2 = now + foldr Z.add 0 delays
    ∧ _lock (run (S fuel) delays now rl recorded).2 = false.
Proof.
  induction delays as [|d delays IH]; intros now rl recorded Hfree Hroom.
  { simpl. rewrite app_nil_r. split_and!; [done|lia|done]. }
  cbn [run]. pose proof (prune_length (now + d) rl) as Hp.
  rewrite acquire_room by (done || (cbn [length] in Hroom; lia)).
  destruct (IH (now + d) (set_requests (prune (now + d) rl ++ [now + d]) rl)
              (recorded ++ [now + d])) as (H1 & H2 & H3).
  - by destruct rl.
  - destruct rl; cbn [requests set_requests max_requests] in *.
    rewrite length_app. cbn [length] in *. lia.
  - rewrite H1, H2, H3. cbn [arrivals foldr].
    rewrite <- app_assoc. split_and!; [done|lia|done].
Qed.

(** X1. A burst within capacity is never delayed: from a fresh limiter, a
    sequence of at most [max_requests] calls, whatever the times between
    them, is recorded call by call at the very time each call arrives; the
    limiter never sleeps and leaves its lock free. *)
Theorem burst_within_capacity_not_delayed
    (fuel : nat) (max_requests time_window now0 : Z) (delays : list Z) :
  Z.of_nat (length delays) ≤ max_requests →
  let r := run (S fuel) delays now0 (init max_requests time_window) [] in
  r.1.1 = arrivals now0 delays
  ∧ r.1.2 = now0 + foldr Z.add 0 delays
  ∧ _lock r.2 = false.
Proof.
  intros Hlen r.
  apply (run_burst_from fuel delays now0 (init max_requests time_window) []);
    [done|simpl; lia].
Qed.

Lemma filter_none (P : Z → Prop) `{!∀ x, Decision (P x)} (l : list Z) :
  (∀ x, x ∈ l → ¬ P x) → filter P l = [].
Proof.
  induction l as [|x l IH]; intros Hall; [done|].
  rewrite filter_cons_False by (apply Hall; left).
  apply IH. intros y Hy. apply Hall. by right.
Qed.

Lemma run_spaced_from (fuel : nat) (time_window : Z) (delays : list Z) :
  Forall (λ d, 0 ≤ d ∧ time_window ≤ d) delays →
  ∀ now rl recorded,
    _lock rl = false →
    RateLimiter.time_window rl = time_window →
    1 ≤ max_requests rl →
    (∀ r, r ∈ requests rl → r ≤ now) →
    (run (S fuel) delays now rl recorded).1.1
      = recorded ++ arrivals now delays
    ∧ (run (S fuel) delays now rl recorded).1.2 = now + foldr Z.add 0 delays
    ∧ requests (run (S fuel) delays now rl recorded).2
      = match delays with
        | [] => requests rl
        | _ => option_list (last (arrivals now delays))
        end.
Proof.
  induction 1 as [|d delays [Hd0 HdW] _ IH];
    intros now rl recorded Hfree Hw Hmax Hpast.
  { simpl. rewrite app_nil_r. split_and!; [done|lia|done]. }
  cbn [run].
  assert (Hprune : prune (now + d) rl = []).
  { unfold prune. apply filter_none.
    intros r Hr. specialize (Hpast r Hr). lia. }
  rewrite acquire_room by (done || (rewrite Hprune; simpl; lia)).
  rewrite Hprune. cbn [app].
  destruct (IH (now + d) (set_requests [now + d] rl) (recorded ++ [now + d]))
    as (H1 & H2 & H3).
  - by destruct rl.
  - by destruct rl.
  - by destruct rl.
  - destruct rl; cbn [requests set_requests].
    intros r ->%list_elem_of_singleton. lia.
  - rewrite H1, H2, H3. cbn [arrivals foldr]. rewrite <- app_assoc.
    split_and!; [done|lia|].
    destruct rl; cbn [requests set_requests]. by destruct delays.
Qed.

(** X2. Calls that come at least one window apart are never delayed: from a
    fresh limiter with room for one call, when every call comes at least
    [time_window] ticks (and no negative time) after the previous one, each
    is recorded on arrival, and after the last one [self.requests] holds
    the time of that call and nothing else (it is empty when no call was
    made). *)
Theorem spaced_calls_not_delayed
    (fuel : nat) (max_requests time_window now0 : Z) (delays : list Z) :
  1 ≤ max_requests →
  Forall (λ d, 0 ≤ d ∧ time_window ≤ d) delays →
  let r := run (S fuel) delays now0 (init max_requests time_window) [] in
  r.1.1 = arrivals now0 delays
  ∧ r.1.2 = now0 + foldr Z.add 0 delays
  ∧ requests r.2 = option_list (last (arrivals now0 delays)).
Proof.
  intros Hmax Hdelays r.
  destruct (run_spaced_from fuel time_window delays Hdelays now0
              (init max_requests time_window) [])
    as (H1 & H2 & H3); try done.
  { intros x Hx. by apply elem_of_nil in Hx. }
  split_and!; [done|done|]. subst r. rewrite H3. by destruct delays.
Qed.

(** X3. A limiter configured with no capacity never lets a call through:
    with [max_requests <= 0] no call is ever recorded, and a call that finds
    the lock free and no entry young enough fails with the [ValueError] of
    [min] on an empty list, releasing the lock. *)
Theorem no_capacity_never_records (fuel : nat) (now : Z) (rl : t) :
  max_requests rl ≤ 0 →
  (∀ a, (acquire fuel now rl).1.1 ≠ Recorded a)
  ∧ (_lock rl = false → prune now rl = [] →
     acquire (S fuel) now rl = (ValueError, now, set_requests [] rl)).
Proof.
  intros Hmax. split.
  - apply acquire_full_never_recorded. lia.
  - intros Hfree Hempty.
    pose proof (acquire_free fuel now rl Hfree) as Hstep. cbv zeta in Hstep.
    rewrite Hempty in Hstep. by rewrite decide_True in Hstep by (simpl; lia).
Qed.

End RateLimiterMore.

Lemma burst_within_capacity_not_delayed_witness :
  (RateLimiter.run 1 [0; 0; 5] 100 (RateLimiter.init 3 10) []).1.1
  = [100; 100; 105].
Proof.
  apply (burst_within_capacity_not_delayed 0 3 10 100 [0; 0; 5]).
  simpl. lia.
Defined.

Lemma spaced_calls_not_delayed_witness :
  let r := RateLimiter.run 1 [10; 10; 12] 100 (RateLimiter.init 1 10) [] in
  r.1.1 = [110; 120; 132] ∧ RateLimiter.requests r.2 = [132].
Proof.
  intros r.
  destruct (spaced_calls_not_delayed 0 1 10 100 [10; 10; 12])
    as (Hrecorded & _ & Hrequests); [lia|repeat constructor; lia|].
  split; [exact Hrecorded|exact Hrequests].
Defined.

Lemma no_capacity_never_records_witness :
  RateLimiter.acquire 1 5 (RateLimiter.init 0 10)
  = (RateLimiter.ValueError, 5, RateLimiter.init 0 10).
Proof.
  apply (no_capacity_never_records 0 5 (RateLimiter.init 0 10));
    [simpl; lia|reflexivity|reflexivity].
Defined.

(* ===================================================================== *)
(** * Further properties of the credential manager *)
(* ===================================================================== *)

Section CredentialManagerMoreFacts.
Import CredentialManager CredentialManagerMore.

Lemma paired_set_both (c : entry) (ts : Z) (cm : t) :
  paired (set_cache (Some c) (Some ts) cm).
Proof. unfold paired. simpl. split; discriminate. Qed.

Lemma paired_set_none (cm : t) : paired (set_cache None None cm).
Proof. unfold paired. simpl. done. Qed.

Lemma paired_is_cached_valid (now : Z) (cm : t) :
  paired cm → paired (is_cached_valid now cm).2.
Proof.
  intros Hp. unfold is_cached_valid.
  destruct (cached_credentials cm), (credentials_timestamp cm); try done.
  case_decide; [apply paired_set_none|done].
Qed.

Lemma paired_prompt (con : console) (cm : t) :
  paired cm → paired (prompt_for_credentials con cm).2.
Proof.
  intros Hp. unfold prompt_for_credentials.
  destruct (read_valid (stdin con) (clock con)) as [[[k|] now1] rest1];
    [|done].
  destruct (read_valid rest1 now1) as [[[tk|] now2] rest2]; [|done].
  apply paired_set_both.
Qed.

(** X4. The cache entry and its timestamp are set together and dropped
    together: a manager is built with both or neither, and caching,
    validity checks, lookups, resolutions, prompts and clearing all keep it
    that way. *)
Theorem cache_and_timestamp_stay_paired
    (now minutes : Z) (u p api_key token username password : pyval)
    (con : console) (cm : t) :
  paired (init now minutes u p)
  ∧ paired (cache_credentials now api_key token username password cm)
  ∧ paired (clear_credentials cm)
  ∧ (paired cm →
     paired (is_cached_valid now cm).2
     ∧ paired (get_cached_credentials now cm).2
     ∧ paired (prompt_for_credentials con cm).2
     ∧ paired (get_or_prompt_credentials api_key token con cm).2).
Proof.
  split_and!.
  - unfold init. destruct (truthy u && truthy p); [apply paired_set_both|done].
  - apply paired_set_both.
  - apply paired_set_none.
  - intros Hp.
    assert (Hget : ∀ now, paired (get_cached_credentials now cm).2).
    { intros n. unfold get_cached_credentials.
      pose proof (paired_is_cached_valid n cm Hp) as Hv.
      destruct (is_cached_valid n cm) as [[] cm']; simpl in *; [|done].
      by destruct (cached_credentials cm'). }
    split_and!; [by apply paired_is_cached_valid|apply Hget|
                 by apply paired_prompt|].
    unfold get_or_prompt_credentials.
    destruct (truthy api_key && truthy token); [apply paired_set_both|].
    specialize (Hget (clock con)).
    destruct (get_cached_credentials (clock con) cm) as [[pair|] cm'];
      simpl in *; [done|by apply paired_prompt].
Qed.

(** X5. Resolution is idempotent inside the cache window: after any
    successful resolution the manager holds a timestamp, and every later
    resolution without explicit credentials made no more than
    [cache_duration] after that timestamp returns the same pair, reads no
    input, shows no prompt and leaves the manager as it is. *)
Theorem resolution_idempotent_within_window
    (api_key token : pyval) (con con1 : console) (cm cm1 : t)
    (pair : pyval * pyval) :
  get_or_prompt_credentials api_key token con cm = (Ok pair, con1, cm1) →
  ∃ timestamp,
    credentials_timestamp cm1 = Some timestamp
    ∧ ∀ con2,
        clock con2 - timestamp ≤ cache_duration cm1 →
        get_or_prompt_credentials VNone VNone con2 cm1 = (Ok pair, con2, cm1).
Proof.
  rewrite resolution_cases.
  assert (Hagain : ∀ c ts,
    cached_credentials cm1 = Some c → credentials_timestamp cm1 = Some ts →
    (CredentialManager.api_key c, CredentialManager.token c) = pair →
    ∃ timestamp, credentials_timestamp cm1 = Some timestamp
      ∧ ∀ con2, clock con2 - timestamp ≤ cache_duration cm1 →
          get_or_prompt_credentials VNone VNone con2 cm1
          = (Ok pair, con2, cm1)).
  { intros c ts Hc Hts <-. exists ts. split; [done|]. intros con2 Hle.
    rewrite resolution_cases. simpl. rewrite Hc, Hts.
    by rewrite decide_True. }
  assert (Hprompt : ∀ cm0,
    prompt_for_credentials con cm0 = (Ok pair, con1, cm1) →
    ∃ timestamp, credentials_timestamp cm1 = Some timestamp
      ∧ ∀ con2, clock con2 - timestamp ≤ cache_duration cm1 →
          get_or_prompt_credentials VNone VNone con2 cm1
          = (Ok pair, con2, cm1)).
  { intros cm0 (Hc & Hts & _)%prompt_caches_fresh.
    eapply Hagain; [exact Hc|exact Hts|by destruct pair]. }
  destruct (truthy api_key && truthy token).
  { intros [= <- <- <-]. by eapply Hagain. }
  destruct (cached_credentials cm) as [c|] eqn:Hc; [|apply Hprompt].
  destruct (credentials_timestamp cm) as [ts|] eqn:Hts; [|apply Hprompt].
  case_decide; [|apply Hprompt].
  intros [= <- <- <-]. by eapply Hagain.
Qed.

(** X6. Clearing forgets everything: after [clear_credentials()] a lookup
    finds nothing, and a resolution that does not carry both explicit parts
    shows the prompt, whatever was cached before. *)
Theorem clear_forces_prompt (api_key token : pyval) (con : console) (cm : t) :
  truthy api_key && truthy token = false →
  (get_cached_credentials (clock con) (clear_credentials cm)).1 = None
  ∧ get_or_prompt_credentials api_key token con (clear_credentials cm)
    = prompt_for_credentials con (clear_credentials cm)
  ∧ prompts (get_or_prompt_credentials api_key token con
               (clear_credentials cm)).1.2 = S (prompts con).
Proof.
  intros Hpartial. rewrite resolution_cases, Hpartial. simpl.
  split_and!; [done|done|].
  unfold prompt_for_credentials.
  destruct (read_valid (stdin con) (clock con)) as [[[k|] now1] rest1]; [|done].
  by destruct (read_valid rest1 now1) as [[[tk|] now2] rest2].
Qed.

Lemma typing_time_cons (typing : Z) (line : string)
    (lines : list (Z * string)) :
  typing_time ((typing, line) :: lines) = typing + typing_time lines.
Proof. reflexivity. Qed.

Lemma typing_time_app (l1 l2 : list (Z * string)) :
  typing_time (l1 ++ l2) = typing_time l1 + typing_time l2.
Proof.
  induction l1 as [|[t l] l1 IH]; [done|].
  rewrite <- app_comm_cons, !typing_time_cons, IH. lia.
Qed.

(** What one of the two input loops reads. *)
Lemma read_valid_some (lines rest : list (Z * string)) (now now' : Z)
    (value : string) :
  read_valid lines now = (Some value, now', rest) →
  32 ≤ py_len value
  ∧ ∃ consumed,
      lines = consumed ++ rest
      ∧ now' = now + typing_time consumed
      ∧ value ∈ (λ l, strip l.2) <$> consumed.
Proof.
  revert now. induction lines as [|[typing line] lines IH]; intros now;
    [discriminate|].
  cbn [read_valid].
  destruct (bool_decide (strip line ≠ "")
            && (32 <=? py_len (strip line))) eqn:Hok.
  - intros [= <- <- <-].
    apply andb_true_iff in Hok as [_ Hlen%Z.leb_le].
    split; [done|]. exists [(typing, line)].
    split_and!; [done|rewrite typing_time_cons; unfold typing_time; simpl; lia
                |left].
  - intros (Hlen & consumed & -> & -> & Hin)%IH. split; [done|].
    exists ((typing, line) :: consumed).
    split_and!; [done|rewrite typing_time_cons; lia|by right].
Qed.

Lemma read_valid_none (lines rest : list (Z * string)) (now now' : Z) :
  read_valid lines now = (None, now', rest) →
  rest = [] ∧ now' = now + typing_time lines.
Proof.
  revert now. induction lines as [|[typing line] lines IH]; intros now.
  { intros [= <- <-]. split; [done|unfold typing_time; simpl; lia]. }
  cbn [read_valid]. destruct (_ && _); [discriminate|].
  intros [-> ->]%IH. split; [done|rewrite typing_time_cons; lia].
Qed.

(** X7. What the prompt accepts: the key and the token it returns are lines
    the user typed, stripped, each at least 32 characters long; the lines
    it read are taken off the pending input and their typing time is what
    passed on the clock.  When the input runs out first, it raises, all
    input is consumed and nothing is cached. *)
Theorem prompt_reads_valid_values (con con' : console) (cm cm' : t) :
  (∀ pair, prompt_for_credentials con cm = (Ok pair, con', cm') →
     ∃ api_key token consumed,
       pair = (VStr api_key, VStr token)
       ∧ 32 ≤ py_len api_key
       ∧ 32 ≤ py_len token
       ∧ stdin con = consumed ++ stdin con'
       ∧ clock con' = clock con + typing_time consumed
       ∧ api_key ∈ (λ l, strip l.2) <$> consumed
       ∧ token ∈ (λ l, strip l.2) <$> consumed)
  ∧ (∀ e, prompt_for_credentials con cm = (Raise e, con', cm') →
       cm' = cm ∧ stdin con' = []
       ∧ clock con' = clock con + typing_time (stdin con)).
Proof.
  unfold prompt_for_credentials. split.
  - intros pair.
    destruct (read_valid (stdin con) (clock con)) as [[[k|] now1] rest1] eqn:H1;
      [|discriminate].
    destruct (read_valid rest1 now1) as [[[tk|] now2] rest2] eqn:H2;
      [|discriminate].
    intros [= <- <- <-].
    apply read_valid_some in H1 as (Hk & c1 & Hl1 & Hn1 & Hin1).
    apply read_valid_some in H2 as (Ht & c2 & Hl2 & Hn2 & Hin2).
    exists k, tk, (c1 ++ c2). simpl.
    split_and!; try done.
    + by rewrite Hl1, Hl2, app_assoc.
    + rewrite Hn2, Hn1, typing_time_app. lia.
    + rewrite fmap_app. apply elem_of_app. by left.
    + rewrite fmap_app. apply elem_of_app. by right.
  - intros e.
    destruct (read_valid (stdin con) (clock con)) as [[[k|] now1] rest1] eqn:H1.
    + destruct (read_valid rest1 now1) as [[[tk|] now2] rest2] eqn:H2;
        [discriminate|].
      intros [= <- <- <-]. simpl.
      apply read_valid_some in H1 as (_ & c1 & Hl1 & Hn1 & _).
      apply read_valid_none in H2 as [-> ->].
      split_and!; [done|done|].
      rewrite Hn1, Hl1, typing_time_app. lia.
    + intros [= <- <- <-]. simpl.
      apply read_valid_none in H1 as [-> ->]. done.
Qed.

(** X8. Credentials from the configuration stand in for a login: a manager
    built with both configured values present answers resolutions without
    explicit credentials with that pair, as key and token, without any
    prompt, for [cache_duration_minutes] minutes; built with one of them
    missing, it starts with an empty cache. *)
Theorem configured_credentials_are_cached
    (now minutes : Z) (u p : pyval) (con : console) :
  (truthy u && truthy p = true →
   clock con - now ≤ minutes * minute →
   get_or_prompt_credentials VNone VNone con (init now minutes u p)
   = (Ok (u, p), con, init now minutes u p))
  ∧ (truthy u && truthy p = false →
     cached_credentials (init now minutes u p) = None
     ∧ credentials_timestamp (init now minutes u p) = None).
Proof.
  unfold init. split; intros ->; [|done].
  intros Hle. rewrite resolution_cases. simpl. by rewrite decide_True.
Qed.

Lemma session_info_duration (isoformat : Z → string) (now : Z) (cm : t) :
  (get_session_info isoformat now cm).1 !! "cache_duration_minutes"
  = Some (VInt (Z.quot (cache_duration cm) minute)).
Proof.
  unfold get_session_info.
  assert (Hd : cache_duration (is_cached_valid now cm).2 = cache_duration cm).
  { unfold is_cached_valid. repeat case_match; done. }
  destruct (is_cached_valid now cm) as [valid cm']. simpl in *.
  rewrite lookup_insert_ne, lookup_insert_eq by done. by rewrite Hd.
Qed.

(** X9. Asking for the session info is not read-only: on an expired entry
    it drops the entry and reports no cached credentials and no timestamp;
    on a valid entry it reports the timestamp and changes nothing.  The
    duration it reports for a manager built with [minutes] is [minutes]. *)
Theorem session_info_drops_expired_entry
    (isoformat : Z → string) (now : Z) (cm : t) (c : entry) (timestamp : Z) :
  cached_credentials cm = Some c →
  credentials_timestamp cm = Some timestamp →
  (now - timestamp > cache_duration cm →
   (get_session_info isoformat now cm).2 = clear_credentials cm
   ∧ (get_session_info isoformat now cm).1 !! "has_cached_credentials"
     = Some (VBool false)
   ∧ (get_session_info isoformat now cm).1 !! "credentials_timestamp"
     = Some VNone)
  ∧ (now - timestamp ≤ cache_duration cm →
     (get_session_info isoformat now cm).2 = cm
     ∧ (get_session_info isoformat now cm).1 !! "has_cached_credentials"
       = Some (VBool true)
     ∧ (get_session_info isoformat now cm).1 !! "credentials_timestamp"
       = Some (VStr (isoformat timestamp)))
  ∧ (∀ minutes u p,
       (get_session_info isoformat now (init now minutes u p)).1
         !! "cache_duration_minutes" = Some (VInt minutes)).
Proof.
  intros Hc Hts. split_and!.
  - intros Hgt. unfold get_session_info, is_cached_valid.
    rewrite Hc, Hts. rewrite decide_True by done. simpl.
    split_and!; by simplify_map_eq.
  - intros Hle. unfold get_session_info, is_cached_valid.
    rewrite Hc, Hts. rewrite decide_False by lia. rewrite Hts.
    split_and!; by simplify_map_eq.
  - intros minutes u p.
    assert (Hq : Z.quot (minutes * minute) minute = minutes)
      by (apply Z.quot_mul; done).
    assert (Hd : cache_duration (init now minutes u p) = minutes * minute)
      by (unfold init; by destruct (truthy u && truthy p)).
    by rewrite session_info_duration, Hd, Hq.
Qed.

End CredentialManagerMoreFacts.

Section CredentialManagerMoreRuns.
Import CredentialManager CredentialManagerMore Demo.

Lemma cache_and_timestamp_stay_paired_witness :
  paired (get_or_prompt_credentials VNone VNone (mkConsole 5 typing 0)
            (init 0 480 VNone VNone)).2.
Proof.
  destruct (cache_and_timestamp_stay_paired 0 480 VNone VNone VNone VNone
              VNone VNone (mkConsole 5 typing 0) (init 0 480 VNone VNone))
    as (Hinit & _ & _ & Hkeep).
  destruct (Hkeep Hinit) as (_ & _ & _ & Hresolved). exact Hresolved.
Defined.

(** The user logs in once; an hour later the same pair comes back with no
    prompt. *)
Lemma resolution_idempotent_within_window_witness :
  let first := get_or_prompt_credentials VNone VNone (mkConsole 5 typing 0)
                 (init 0 480 VNone VNone) in
  first.1.1 = Ok (VStr key32, VStr token32)
  ∧ get_or_prompt_credentials VNone VNone (mkConsole (60 * minute) [] 1)
      first.2
    = (Ok (VStr key32, VStr token32), mkConsole (60 * minute) [] 1, first.2).
Proof.
  intros first. split; [reflexivity|].
  destruct (resolution_idempotent_within_window VNone VNone
              (mkConsole 5 typing 0) first.1.2 (init 0 480 VNone VNone)
              first.2 (VStr key32, VStr token32) eq_refl)
    as (timestamp & Hts & Hagain).
  apply Hagain. injection Hts as <-. vm_compute. discriminate.
Defined.

Lemma clear_forces_prompt_witness :
  prompts (get_or_prompt_credentials (VStr key32) VNone (mkConsole 9 typing 0)
             (clear_credentials
                (TrelloTools.credential_manager cached_tools))).1.2 = 1%nat.
Proof.
  apply (clear_forces_prompt (VStr key32) VNone (mkConsole 9 typing 0)
           (TrelloTools.credential_manager cached_tools)).
  reflexivity.
Defined.

(** A first line of sixteen accented letters, thirty-two bytes in UTF-8, is
    sixteen characters long and is turned away. *)
Lemma prompt_reads_valid_values_witness :
  py_len "éééééééééééééééé" = 16
  ∧ ∃ api_key token,
      (prompt_for_credentials
         (mkConsole 0 ((3, "éééééééééééééééé") :: typing) 0)
         (init 0 480 VNone VNone)).1.1 = Ok (VStr api_key, VStr token)
      ∧ api_key = key32
      ∧ 32 ≤ py_len api_key
      ∧ 32 ≤ py_len token.
Proof.
  split; [reflexivity|].
  destruct (prompt_reads_valid_values
              (mkConsole 0 ((3, "éééééééééééééééé") :: typing) 0)
              (mkConsole 5 [] 1) (init 0 480 VNone VNone)
              (cache_credentials 5 (VStr key32) (VStr token32) VNone VNone
                 (init 0 480 VNone VNone))) as [Hok _].
  destruct (Hok (VStr key32, VStr token32) eq_refl)
    as (k & t & consumed & Hpair & Hk & Ht & _).
  injection Hpair as <- <-. exists key32, token32.
  split_and!; [reflexivity|reflexivity|exact Hk|exact Ht].
Defined.

Lemma configured_credentials_are_cached_witness :
  get_or_prompt_credentials VNone VNone (mkConsole 7 [] 0)
    (init 0 480 (VStr key32) (VStr token32))
  = (Ok (VStr key32, VStr token32), mkConsole 7 [] 0,
     init 0 480 (VStr key32) (VStr token32)).
Proof.
  apply (configured_credentials_are_cached 0 480 (VStr key32) (VStr token32)
           (mkConsole 7 [] 0)); [reflexivity|vm_compute; discriminate].
Defined.

Lemma session_info_drops_expired_entry_witness :
  let cm := TrelloTools.credential_manager cached_tools in
  (get_session_info (λ _, "1970-01-01T00:00:00") (481 * minute) cm).2
  = clear_credentials cm.
Proof.
  intros cm.
  apply (session_info_drops_expired_entry (λ _, "1970-01-01T00:00:00")
           (481 * minute) cm
           (mkEntry (VStr key32) (VStr token32) VNone VNone) 0);
    [reflexivity|reflexivity|vm_compute; reflexivity].
Defined.

End CredentialManagerMoreRuns.

(* ===================================================================== *)
(** * Further properties of the request models and the client *)
(* ===================================================================== *)

Section ClientMore.
Import Schemas TrelloClient TrelloClientMore.
Variable L : Lib.

Lemma validate_name_ok (noun v name : string) :
  validate_name noun v = inr name →
  name = strip v ∧ name ≠ "" ∧ py_len name ≤ 16384.
Proof.
  unfold validate_name.
  destruct (bool_decide (v = "") || bool_decide (strip v = "")) eqn:Hblank;
    [discriminate|].
  destruct (16384 <? py_len (strip v)) eqn:Hlong;
    [discriminate|].
  intros [= <-]. apply orb_false_iff in Hblank as [_ Hb].
  apply bool_decide_eq_false in Hb. apply Z.ltb_ge in Hlong. done.
Qed.

Lemma validate_not_blank_ok (message v value : string) :
  validate_not_blank message v = inr value →
  value = strip v ∧ value ≠ "".
Proof.
  unfold validate_not_blank.
  destruct (bool_decide (v = "") || bool_decide (strip v = "")) eqn:Hblank;
    [discriminate|].
  intros [= <-]. apply orb_false_iff in Hblank as [_ Hb].
  by apply bool_decide_eq_false in Hb.
Qed.

Lemma str_field_str (s : string) : str_field L (VStr s) = inr s.
Proof. reflexivity. Qed.

(** X10. What a request model lets through.  Credentials that were built
    have a key and a token that are not empty, and a card-creation request
    that was built has a name that is not empty and at most 16384
    characters long, a list id that is not empty, and the due date it was
    given; values passed as strings arrive stripped of surrounding
    whitespace. *)
Theorem built_models_hold_clean_text :
  (∀ api_key token credentials,
     new_TrelloCredentials L api_key token = Ok credentials →
     Schemas.api_key credentials ≠ "" ∧ Schemas.token credentials ≠ ""
     ∧ (∀ s, api_key = VStr s → Schemas.api_key credentials = strip s)
     ∧ (∀ s, token = VStr s → Schemas.token credentials = strip s))
  ∧ (∀ name list_id desc pos due labels members request,
       new_CreateCardRequest L name list_id desc pos due labels members
         = Ok request →
       cc_name request ≠ ""
       ∧ py_len (cc_name request) ≤ 16384
       ∧ cc_list_id request ≠ ""
       ∧ cc_due request = due
       ∧ (∀ s, name = VStr s → cc_name request = strip s)
       ∧ (∀ s, list_id = VStr s → cc_list_id request = strip s)).
Proof.
  split.
  - intros api_key token credentials H.
    unfold new_TrelloCredentials in H. cbv zeta in H. apply built_ok in H.
    apply ap_inr in H as (g1 & t & H & Ht & ->).
    apply ap_inr in H as (g0 & k & H & Hk & ->).
    injection H as <-.
    apply field_inr in Hk. apply and_then_inr in Hk as (k0 & Hk0 & Hk).
    apply field_inr in Ht. apply and_then_inr in Ht as (t0 & Ht0 & Ht).
    apply validate_not_blank_ok in Hk as [-> Hk].
    apply validate_not_blank_ok in Ht as [-> Ht].
    simpl. split_and!; [done|done|intros s ->|intros s ->].
    + by injection Hk0 as <-.
    + by injection Ht0 as <-.
  - intros name list_id desc pos due labels members request H.
    unfold new_CreateCardRequest in H. apply built_ok in H.
    apply ap_inr in H as (g6 & mb & H & _ & ->).
    apply ap_inr in H as (g5 & lb & H & _ & ->).
    apply ap_inr in H as (g4 & d & H & Hd & ->). injection Hd as <-.
    apply ap_inr in H as (g3 & p & H & _ & ->).
    apply ap_inr in H as (g2 & ds & H & _ & ->).
    apply ap_inr in H as (g1 & l & H & Hl & ->).
    apply ap_inr in H as (g0 & n & H & Hn & ->).
    injection H as <-.
    apply field_inr in Hn. apply and_then_inr in Hn as (n0 & Hn0 & Hn).
    apply field_inr in Hl. apply and_then_inr in Hl as (l0 & Hl0 & Hl).
    apply validate_name_ok in Hn as (-> & Hn & Hlen).
    apply validate_not_blank_ok in Hl as [-> Hl].
    simpl. split_and!; [done|done|done|done|intros s ->|intros s ->].
    + by injection Hn0 as <-.
    + by injection Hl0 as <-.
Qed.

(** The rate limiter touches the clock and itself only. *)
Lemma client_acquire_frame (w : World) (c : TrelloClient.t) :
  upstream (acquire w c).1.2 = upstream w
  ∧ sent (acquire w c).1.2 = sent w
  ∧ stdin (con (acquire w c).1.2) = stdin (con w)
  ∧ prompts (con (acquire w c).1.2) = prompts (con w).
Proof.
  unfold acquire. by destruct (RateLimiter.acquire _ _ _) as [[o now] rl].
Qed.

(** [_make_request] in the two ways it can go. *)
Lemma make_request_cases (method endpoint : string)
    (credentials : TrelloCredentials) (params : option (gmap string pyval))
    (w : World) (c : TrelloClient.t) :
  let q := outgoing method endpoint credentials params in
  let r := _make_request method endpoint credentials params w c in
  (∃ w2 c2, acquire w c = (Ok (), w2, c2)
     ∧ r.1.2 = mkWorld (con w2) (upstream w) (sent w ++ [q])
     ∧ r.2 = c2
     ∧ match upstream w q with
       | Response status text json =>
         (status = 200 →
          r.1.1 = Ok (default (VDict {[ "result" := VStr text ]}) json))
         ∧ (status ≠ 200 →
            ∃ message,
              r.1.1 = Raise (TrelloAPIError message (Some status) (Some text)))
       | ClientError message =>
         r.1.1 = Raise (TrelloAPIError ("Network error: " ++ message)
                          None None)
       | Failure e => r.1.1 = Raise e
       end)
  ∨ (r = (match (acquire w c).1.1 with
          | Raise e => Raise e
          | _ => Hang
          end, (acquire w c).1.2, (acquire w c).2)
     ∧ (acquire w c).1.1 ≠ Ok ()).
Proof.
  intros q r. subst r. unfold _make_request, mbind, M_bind.
  pose proof (client_acquire_frame w c) as (Hup & Hsent & _).
  destruct (acquire w c) as [[[[]|e|] w2] c2] eqn:Hacq; simpl in *.
  - left. exists w2, c2. split; [done|]. unfold send.
    change (mkRequest method _ _ VNone) with q. rewrite Hup, Hsent.
    destruct (upstream w q) as [status text json|message|e]; simpl;
      [|done|done].
    repeat case_decide; simpl; split_and!; try done; try (intros; lia);
      intros _; eauto.
  - right. done.
  - right. done.
Qed.

End ClientMore.

Section ClientCalls.
Import Schemas TrelloClient TrelloClientMore.
Variable L : Lib.

(** X11. Every call to the upstream goes out at most once and carries the
    caller's credentials: [_make_request] either appends exactly one request
    to the calls issued, or (when the rate limiter does not let it through)
    issues none and returns no result.  The request is addressed to the
    endpoint under the base URL; its [key] and [token] parameters are the
    credentials, overriding parameters of the same names, and every other
    parameter is the caller's. *)
Theorem one_request_with_credentials (method endpoint : string)
    (credentials : TrelloCredentials) (params : option (gmap string pyval))
    (w : World) (c : TrelloClient.t) :
  let q := outgoing method endpoint credentials params in
  let r := _make_request method endpoint credentials params w c in
  (sent r.1.2 = sent w ++ [q]
   ∨ (sent r.1.2 = sent w ∧ ∀ v, r.1.1 ≠ Ok v))
  ∧ upstream r.1.2 = upstream w
  ∧ http_method q = method
  ∧ http_url q = String.append base_url (String.append "/" endpoint)
  ∧ http_params q !! "key" = Some (VStr (api_key credentials))
  ∧ http_params q !! "token" = Some (VStr (token credentials))
  ∧ (∀ k, k ≠ "key" → k ≠ "token" →
       http_params q !! k = default ∅ params !! k).
Proof.
  intros q r.
  assert (Hkey : http_params q !! "key" = Some (VStr (api_key credentials)))
    by (unfold q, outgoing; simpl;
        by rewrite lookup_insert_ne, lookup_insert_eq).
  assert (Htoken : http_params q !! "token"
                   = Some (VStr (token credentials)))
    by (unfold q, outgoing; simpl; by rewrite lookup_insert_eq).
  assert (Hother : ∀ k, k ≠ "key" → k ≠ "token" →
                     http_params q !! k = default ∅ params !! k)
    by (intros k Hk Ht; unfold q, outgoing; simpl;
        by rewrite !lookup_insert_ne).
  pose proof (client_acquire_frame w c) as (Hup & Hsent & _).
  assert (Hmain : (sent r.1.2 = sent w ++ [q]
                   ∨ (sent r.1.2 = sent w ∧ ∀ v, r.1.1 ≠ Ok v))
                  ∧ upstream r.1.2 = upstream w).
  { destruct (make_request_cases method endpoint credentials params w c)
      as [(w2 & c2 & Hacq & Hw & _ & _)|[Hr Hno]].
    - fold r in Hw. rewrite Hw. simpl. split; [by left|done].
    - fold r in Hr. rewrite Hr. simpl. split; [|done].
      right. split; [done|]. intros v.
      destruct (acquire w c) as [[[[]|e|] w2] c2]; simpl in *; done. }
  destruct Hmain as [Hsent' Hup'].
  split_and!; done.
Qed.

(** X12. How a reply is classified once the call went out: a result is
    returned exactly on status 200 (the decoded JSON, or the raw text under
    ["result"] when it does not decode); every other status raises a
    [TrelloAPIError] that carries the status and the body, with a fixed
    message for 401, 403, 404 and 429 and the status spelled out otherwise;
    a connection error raises a [TrelloAPIError] without status whose
    message starts with "Network error: ". *)
Theorem replies_classified_by_status (method endpoint : string)
    (credentials : TrelloCredentials) (params : option (gmap string pyval))
    (w w2 : World) (c c2 : TrelloClient.t) :
  acquire w c = (Ok (), w2, c2) →
  let q := outgoing method endpoint credentials params in
  let r := _make_request method endpoint credentials params w c in
  (∀ status text json, upstream w q = Response status text json →
     (status = 200 →
      r.1.1 = Ok (default (VDict {[ "result" := VStr text ]}) json))
     ∧ (status ≠ 200 →
        ∃ message,
          r.1.1 = Raise (TrelloAPIError message (Some status) (Some text))
          ∧ (status = 401 →
             message = "Unauthorized - check your API key and token")
          ∧ (status = 403 → message = "Forbidden - insufficient permissions")
          ∧ (status = 404 →
             message = "Not found - the requested resource does not exist")
          ∧ (status = 429 → message = "Rate limit exceeded")
          ∧ (status ∉ [401; 403; 404; 429] →
             message = String.append "API request failed with status "
                         (pretty status))))
  ∧ (∀ message, upstream w q = ClientError message →
       r.1.1 = Raise (TrelloAPIError ("Network error: " ++ message)
                        None None)).
Proof.
  intros Hacq q r.
  pose proof (client_acquire_frame w c) as (Hup & _).
  rewrite Hacq in Hup. simpl in Hup.
  subst r. unfold _make_request, mbind, M_bind. rewrite Hacq. unfold send.
  change (mkRequest method _ _ VNone) with q. rewrite Hup.
  split.
  - intros status text json ->. simpl.
    repeat case_decide; subst; simpl; (split; [done|]); intros Hne;
      try done; eexists; (split; [reflexivity|]);
      split_and!; try done; try lia;
      intros Hnot; exfalso; apply Hnot;
      repeat first [left | right; left | right; right; left
                   | right; right; right; left].
  - intros message ->. done.
Qed.

(** X13. The credential check never lets an API error escape: whatever the
    upstream does, [validate_credentials] does not raise a
    [TrelloAPIError]; once the call went out, it reports [valid] exactly
    when the status is 200, and otherwise reports [valid: False] with the
    error message, also for a connection error. *)
Theorem validation_turns_errors_into_verdicts
    (credentials : TrelloCredentials) (w : World) (c : TrelloClient.t) :
  let r := validate_credentials credentials w c in
  (∀ message status body,
     r.1.1 ≠ Raise (TrelloAPIError message status body))
  ∧ (∀ w2 c2, acquire w c = (Ok (), w2, c2) →
     match upstream w (validation_request credentials) with
     | Response status text json =>
       ∃ verdict,
         r.1.1 = Ok verdict
         ∧ verdict !! "valid" = Some (VBool (bool_decide (status = 200)))
         ∧ (status ≠ 200 → ∃ message, verdict !! "error" = Some (VStr message))
     | ClientError message =>
       r.1.1 = Ok {[ "valid" := VBool false;
                     "error" := VStr ("Network error: " ++ message) ]}
     | Failure e => True
     end).
Proof.
  intros r. subst r. unfold validate_credentials, catch_api. split.
  - intros message status body.
    match goal with |- context [match ?m w c with _ => _ end] =>
      destruct (m w c) as [[[v|[]|] w'] c'] end; done.
  - intros w2 c2 Hacq.
    pose proof (client_acquire_frame w c) as (Hup & _).
    rewrite Hacq in Hup. simpl in Hup.
    unfold _make_request, mbind, M_bind. rewrite Hacq. unfold send.
    change (mkRequest "GET" _ _ VNone)
      with (validation_request credentials).
    rewrite Hup.
    destruct (upstream w _) as [status text json|message|e]; simpl;
      [|done|done].
    repeat case_decide; subst; simpl; eexists; (split; [reflexivity|]);
      (split; [by simplify_map_eq|]); intros Hne; try done;
      simplify_map_eq; eauto.
Qed.

Lemma prefs_key_inj (k1 k2 : string) :
  String.append "prefs_" k1 = String.append "prefs_" k2 → k1 = k2.
Proof. intros H. cbn in H. by injection H. Qed.

(** X14. Board preferences are flattened: in the parameters
    [add_prefs] builds, every preference [k] of the request appears under
    the key [prefs_k] with its value, and every key that is not of that
    form keeps what it had. *)
Theorem preferences_are_flattened
    (prefs params : gmap string pyval) :
  (∀ k v, prefs !! k = Some v →
     add_prefs (Some prefs) params !! String.append "prefs_" k = Some v)
  ∧ (∀ j, (∀ k, is_Some (prefs !! k) → j ≠ String.append "prefs_" k) →
       add_prefs (Some prefs) params !! j = params !! j).
Proof.
  unfold add_prefs.
  apply (map_fold_weak_ind
    (λ (r : gmap string pyval) (m : gmap string pyval),
       (∀ k v, m !! k = Some v → r !! String.append "prefs_" k = Some v)
       ∧ (∀ j, (∀ k, is_Some (m !! k) → j ≠ String.append "prefs_" k) →
            r !! j = params !! j))).
  - split; [intros k v; by rewrite lookup_empty|by intros j _].
  - intros i x m r Hi [IH1 IH2]. split.
    + intros k v. destruct (decide (k = i)) as [->|Hne].
      * rewrite !lookup_insert_eq. done.
      * rewrite !lookup_insert_ne; [apply IH1| |congruence].
        intros Heq%prefs_key_inj. congruence.
    + intros j Hj. rewrite lookup_insert_ne.
      * apply IH2. intros k Hk. apply Hj.
        destruct (decide (k = i)) as [->|Hne];
          [by rewrite lookup_insert_eq|by rewrite lookup_insert_ne].
      * intros Heq. apply (Hj i); [by rewrite lookup_insert_eq|done].
Qed.

(** X15. Listing calls always hand back a list: whatever JSON the upstream
    returns with status 200, a result of [list_boards], [get_lists] or
    [get_cards] is a list (empty when the reply was not one). *)
Theorem listings_return_lists (credentials : TrelloCredentials)
    (board_id list_id : pyval) (w : World) (c : TrelloClient.t) (v : pyval) :
  ((list_boards credentials w c).1.1 = Ok v → ∃ l, v = VList l)
  ∧ ((get_lists L credentials board_id w c).1.1 = Ok v → ∃ l, v = VList l)
  ∧ ((get_cards L credentials board_id list_id w c).1.1 = Ok v →
     ∃ l, v = VList l).
Proof.
  assert (Hlist : ∀ response, ∃ l, list_or_empty response = VList l)
    by (intros []; simpl; eauto).
  assert (Hbind : ∀ (m : M TrelloClient.t pyval),
            ((m ≫= λ response, mret (list_or_empty response)) w c).1.1 = Ok v →
            ∃ l, v = VList l).
  { intros m. unfold mbind, M_bind, mret, M_ret.
    destruct (m w c) as [[[response|e|] w'] c']; simpl; [|done|done].
    intros [= <-]. apply Hlist. }
  split_and!.
  - apply Hbind.
  - apply Hbind.
  - unfold get_cards. destruct (truthy list_id); [apply Hbind|].
    destruct (truthy board_id); [apply Hbind|done].
Qed.

End ClientCalls.

Section ClientSearch.
Import Schemas TrelloClient TrelloClientMore.
Variable L : Lib.

(** The calls issued by [_make_request]: none, or the outgoing request. *)
Lemma make_request_sent (method endpoint : string)
    (credentials : TrelloCredentials) (params : option (gmap string pyval))
    (w : World) (c : TrelloClient.t) :
  let r := _make_request method endpoint credentials params w c in
  sent r.1.2 = sent w
  ∨ sent r.1.2 = sent w ++ [outgoing method endpoint credentials params].
Proof.
  intros r.
  destruct (make_request_cases method endpoint credentials params w c)
    as [(w2 & c2 & _ & Hw & _ & _)|[Hr _]].
  - fold r in Hw. rewrite Hw. by right.
  - fold r in Hr. rewrite Hr. left.
    apply (client_acquire_frame w c).
Qed.

(** Post-processing a reply does not touch the world. *)
Lemma bind_pure_world {σ A B} (m : M σ A) (f : A → B) (w : World) (s : σ) :
  ((m ≫= λ a, mret (f a)) w s).1.2 = (m w s).1.2.
Proof.
  unfold mbind, M_bind, mret, M_ret.
  by destruct (m w s) as [[[a|e|] w'] s'].
Qed.

Lemma search_request_limit (query board_ids limit : pyval)
    (request : SearchRequest) :
  new_SearchRequest L query board_ids limit = Ok request →
  match sr_limit request with
  | Some n => 1 ≤ n ≤ 1000
  | None => limit = VNone
  end.
Proof.
  intros H. unfold new_SearchRequest in H. apply built_ok in H.
  apply ap_inr in H as (g2 & l & H & Hl & ->).
  apply ap_inr in H as (g1 & b & H & _ & ->).
  apply ap_inr in H as (g0 & q & H & _ & ->).
  injection H as <-. simpl.
  apply field_inr in Hl. apply and_then_inr in Hl as (l0 & Hl0 & Hl).
  unfold validate_limit in Hl.
  destruct l0 as [n|].
  - destruct ((n <? 1) || (1000 <? n)) eqn:Hrange; [discriminate|].
    injection Hl as <-.
    apply orb_false_iff in Hrange as [?%Z.ltb_ge ?%Z.ltb_ge]. lia.
  - injection Hl as <-. unfold optional in Hl0.
    destruct limit; try done; simpl in Hl0; try discriminate;
      by destruct (coerce_int L _).
Qed.

Lemma search_request_no_limit (query board_ids : pyval)
    (request : SearchRequest) :
  new_SearchRequest L query board_ids VNone = Ok request →
  sr_limit request = None.
Proof.
  intros H. unfold new_SearchRequest in H. apply built_ok in H.
  apply ap_inr in H as (g2 & l & H & Hl & ->).
  apply ap_inr in H as (g1 & b & H & _ & ->).
  apply ap_inr in H as (g0 & q & H & _ & ->).
  injection H as <-. simpl.
  apply field_inr in Hl. simpl in Hl. by injection Hl as <-.
Qed.

(** X16. A search never asks the upstream for an unbounded page: for every
    search request that was built, the [cards_limit] parameter of the call
    that goes out is an integer between 1 and 1000, 50 when no limit was
    given, next to the stripped query and the fixed model type. *)
Theorem search_limit_bounded (query board_ids limit : pyval)
    (request : SearchRequest) (credentials : TrelloCredentials) :
  new_SearchRequest L query board_ids limit = Ok request →
  ∃ n,
    1 ≤ n ≤ 1000
    ∧ (limit = VNone → n = 50)
    ∧ ∀ w c,
        let r := search_cards credentials request w c in
        sent r.1.2 = sent w
        ∨ ∃ q, sent r.1.2 = sent w ++ [q]
               ∧ http_params q !! "cards_limit" = Some (VInt n)
               ∧ http_params q !! "query" = Some (VStr (sr_query request))
               ∧ http_params q !! "modelTypes" = Some (VStr "cards").
Proof.
  intros Hbuilt. pose proof (search_request_limit _ _ _ _ Hbuilt) as Hlimit.
  exists (match sr_limit request with
          | Some n => if decide (n = 0) then 50 else n
          | None => 50
          end).
  split; [|split].
  - destruct (sr_limit request) as [n|]; [|lia]. case_decide; lia.
  - intros ->. by rewrite (search_request_no_limit _ _ _ Hbuilt).
  - intros w c r. subst r. unfold search_cards.
    rewrite bind_pure_world.
    match goal with |- context [_make_request ?m ?e ?cr ?p w c] =>
      destruct (make_request_sent m e cr p w c) as [Hs|Hs];
      [by left|right; exists (outgoing m e cr p)] end.
    split; [exact Hs|]. unfold outgoing, set_if. simpl.
    destruct (nonempty_list (sr_board_ids request));
      split_and!; by simplify_map_eq.
Qed.

End ClientSearch.

(* ===================================================================== *)
(** * Further properties of the dispatcher *)
(* ===================================================================== *)

Section ToolsMore.
Import Schemas TrelloTools TrelloToolsMore.
Variable L : Lib.

Lemma payload_text (text : string) : payload (text_result text).
Proof. exists text. by left. Qed.

Lemma payload_error (text : string) : payload (error_result text).
Proof. exists text. by right. Qed.

Lemma gives_payload_mret (v : pyval) : payload v → gives_payload (mret v).
Proof. intros Hv w s v' w' s' [= <- _ _]. done. Qed.

Lemma gives_payload_bind {A} (m : M t A) (k : A → M t pyval) :
  (∀ a, gives_payload (k a)) → gives_payload (m ≫= k).
Proof.
  intros Hk w s v w' s'. unfold mbind, M_bind.
  destruct (m w s) as [[[a|e|] w1] s1]; [apply Hk|done|done].
Qed.

Lemma gives_payload_catch_api (m : M t pyval) (h : exn → M t pyval) :
  gives_payload m → (∀ e, gives_payload (h e)) →
  gives_payload (catch_api m h).
Proof.
  intros Hm Hh w s v w' s'. unfold catch_api.
  pose proof (Hm w s) as Hm'.
  destruct (m w s) as [[[a|[msg st body|cls msg]|] w1] s1];
    [apply Hm'|apply Hh|done|done].
Qed.

Lemma gives_payload_rendered (tool : string) (reply : pyval)
    (used : list pyval) :
  gives_payload (rendered L tool reply used).
Proof.
  unfold rendered. apply gives_payload_bind. intros text.
  apply gives_payload_mret, payload_text.
Qed.

Lemma gives_payload_failed_to (what : string) (e : exn) :
  gives_payload (failed_to what e).
Proof. apply gives_payload_mret, payload_error. Qed.

Lemma gives_payload_if (b : bool) (m1 m2 : M t pyval) :
  gives_payload m1 → gives_payload m2 →
  gives_payload (if b then m1 else m2).
Proof. by destruct b. Qed.

Ltac payload_step :=
  lazymatch goal with
  | |- gives_payload (catch_api _ _) => apply gives_payload_catch_api
  | |- gives_payload (failed_to _ _) => apply gives_payload_failed_to
  | |- gives_payload (rendered _ _ _ _) => apply gives_payload_rendered
  | |- gives_payload (mbind _ _) => apply gives_payload_bind; intros ?
  | |- gives_payload (mret (text_result _)) =>
    apply gives_payload_mret, payload_text
  | |- gives_payload (mret (error_result _)) =>
    apply gives_payload_mret, payload_error
  | |- gives_payload (if _ then _ else _) => apply gives_payload_if
  | |- gives_payload (match ?x with _ => _ end) => destruct x
  | |- ∀ _, _ => intros ?
  end.

Lemma dispatch_gives_payload (tool_name : pyval)
    (credentials : TrelloCredentials) (args : gmap string pyval) :
  gives_payload (dispatch L tool_name credentials args).
Proof.
  unfold dispatch, _list_boards, _get_board, _create_board, _update_board,
    _get_lists, _create_list, _get_cards, _create_card, _update_card,
    _add_member_to_card, _search_cards.
  cbv zeta. repeat payload_step.
Qed.

Lemma execute_tool_gives_payload (tool_name arguments : pyval) :
  gives_payload (execute_tool L tool_name arguments).
Proof.
  intros w s v w' s'. unfold execute_tool, catch.
  match goal with |- context [match ?m w s with _ => _ end] =>
    assert (Hm : gives_payload m); [|pose proof (Hm w s) as Hm';
      destruct (m w s) as [[[v0|e|] w0] s0]; simpl;
      [apply Hm'|intros [= <- _ _]; apply payload_error|done]] end.
  destruct arguments; try (intros ? ? ? ? ?; discriminate).
  apply gives_payload_bind. intros [api_key token].
  apply gives_payload_bind. intros credentials.
  apply gives_payload_bind. intros verdict.
  apply gives_payload_if;
    [apply gives_payload_mret, payload_error|apply dispatch_gives_payload].
Qed.

(** X17. Dispatch always answers with a tool result: whatever the tool
    name, the arguments and the upstream do, [execute_tool] never raises,
    and a value it returns is a dictionary holding one text item, flagged
    ["isError": True] or not flagged. *)
Theorem execute_tool_returns_payload (tool_name arguments : pyval)
    (w : World) (s : t) :
  match (execute_tool L tool_name arguments w s).1.1 with
  | Ok v => payload v
  | Raise _ => False
  | Hang => True
  end.
Proof.
  pose proof (execute_tool_never_raises L tool_name arguments w s) as Hnr.
  pose proof (execute_tool_gives_payload tool_name arguments w s) as Hp.
  destruct (execute_tool L tool_name arguments w s) as [[[v|e|] w'] s'];
    simpl in *; [by eapply Hp|by destruct (Hnr e)|done].
Qed.

End ToolsMore.

Section ToolsFrame.
Import Schemas TrelloTools TrelloToolsMore.
Variable L : Lib.

Lemma keeps_mret {σ A} (manager : σ → CredentialManager.t) (a : A) :
  keeps_manager manager (mret a).
Proof. by intros w s. Qed.

Lemma keeps_raise {σ A} (manager : σ → CredentialManager.t) (e : exn) :
  keeps_manager manager (raise e : M σ A).
Proof. by intros w s. Qed.

Lemma keeps_lift {σ A} (manager : σ → CredentialManager.t) (r : res A) :
  keeps_manager manager (lift r : M σ A).
Proof. by intros w s. Qed.

Lemma keeps_bind {σ A B} (manager : σ → CredentialManager.t)
    (m : M σ A) (k : A → M σ B) :
  keeps_manager manager m → (∀ a, keeps_manager manager (k a)) →
  keeps_manager manager (m ≫= k).
Proof.
  intros Hm Hk w s. unfold mbind, M_bind.
  destruct (Hm w s) as (H1 & H2 & H3).
  destruct (m w s) as [[[a|e|] w1] s1]; simpl in *; [|done|done].
  destruct (Hk a w1 s1) as (H1' & H2' & H3').
  split_and!; congruence.
Qed.

Lemma keeps_catch {σ A} (manager : σ → CredentialManager.t)
    (m : M σ A) (h : exn → M σ A) :
  keeps_manager manager m → (∀ e, keeps_manager manager (h e)) →
  keeps_manager manager (catch m h).
Proof.
  intros Hm Hh w s. unfold catch.
  destruct (Hm w s) as (H1 & H2 & H3).
  destruct (m w s) as [[[a|e|] w1] s1]; simpl in *; [done| |done].
  destruct (Hh e w1 s1) as (H1' & H2' & H3').
  split_and!; congruence.
Qed.

Lemma keeps_catch_api {σ A} (manager : σ → CredentialManager.t)
    (m : M σ A) (h : exn → M σ A) :
  keeps_manager manager m → (∀ e, keeps_manager manager (h e)) →
  keeps_manager manager (catch_api m h).
Proof.
  intros Hm Hh w s. unfold catch_api.
  destruct (Hm w s) as (H1 & H2 & H3).
  destruct (m w s) as [[[a|[msg st body|cls msg]|] w1] s1]; simpl in *;
    [done| |done|done].
  destruct (Hh (TrelloAPIError msg st body) w1 s1) as (H1' & H2' & H3').
  split_and!; congruence.
Qed.

Lemma keeps_if {σ A} (manager : σ → CredentialManager.t) (b : bool)
    (m1 m2 : M σ A) :
  keeps_manager manager m1 → keeps_manager manager m2 →
  keeps_manager manager (if b then m1 else m2).
Proof. by destruct b. Qed.

(** The client has no credential manager; it keeps the console's input. *)
Lemma keeps_make_request (cm : CredentialManager.t) (method endpoint : string)
    (credentials : TrelloCredentials) (params : option (gmap string pyval)) :
  keeps_manager (λ _ : TrelloClient.t, cm)
    (TrelloClient._make_request method endpoint credentials params).
Proof.
  unfold TrelloClient._make_request.
  apply keeps_bind.
  { intros w c. pose proof (client_acquire_frame w c) as (_ & _ & ? & ?).
    done. }
  intros _. apply keeps_bind; [by intros w c|].
  intros [status text json|message|e]; [|apply keeps_raise..].
  repeat case_decide; first [apply keeps_mret|apply keeps_raise].
Qed.

Lemma keeps_with_client {A} (m : M TrelloClient.t A) :
  (∀ cm, keeps_manager (λ _ : TrelloClient.t, cm) m) →
  keeps_manager credential_manager (with_client m).
Proof.
  intros Hm w s. unfold with_client.
  destruct (Hm (credential_manager s) w (default TrelloClient.init (client s)))
    as (_ & H2 & H3).
  by destruct (m w _) as [[r w'] c'].
Qed.

Ltac keeps_step :=
  lazymatch goal with
  | |- keeps_manager _ (catch_api _ _) => apply keeps_catch_api
  | |- keeps_manager _ (catch _ _) => apply keeps_catch
  | |- keeps_manager _ (with_client _) => apply keeps_with_client; intros ?
  | |- keeps_manager _ (TrelloClient._make_request _ _ _ _) =>
    apply keeps_make_request
  | |- keeps_manager _ (mbind _ _) => apply keeps_bind; [|intros ?]
  | |- keeps_manager _ (mret _) => apply keeps_mret
  | |- keeps_manager _ (raise _) => apply keeps_raise
  | |- keeps_manager _ (lift _) => apply keeps_lift
  | |- keeps_manager _ (if _ then _ else _) => apply keeps_if
  | |- keeps_manager _ (match ?x with _ => _ end) => destruct x
  | |- ∀ _, _ => intros ?
  end.

Lemma dispatch_keeps_manager (tool_name : pyval)
    (credentials : TrelloCredentials) (args : gmap string pyval) :
  keeps_manager credential_manager (dispatch L tool_name credentials args).
Proof.
  unfold dispatch, _list_boards, _get_board, _create_board, _update_board,
    _get_lists, _create_list, _get_cards, _create_card, _update_card,
    _add_member_to_card, _search_cards, rendered, failed_to,
    TrelloClient.list_boards, TrelloClient.get_board,
    TrelloClient.create_board, TrelloClient.update_board,
    TrelloClient.get_lists, TrelloClient.create_list,
    TrelloClient.get_cards, TrelloClient.create_card,
    TrelloClient.update_card, TrelloClient.add_member_to_card,
    TrelloClient.search_cards.
  cbv zeta. repeat keeps_step.
Qed.

Lemma catch_bind_keeps {A} (m : M t A) (k : A → M t pyval)
    (h : exn → M t pyval) (w : World) (s : t) :
  (∀ a, keeps_manager credential_manager (k a)) →
  (∀ e, keeps_manager credential_manager (h e)) →
  credential_manager (catch (m ≫= k) h w s).2 = credential_manager (m w s).2
  ∧ stdin (con (catch (m ≫= k) h w s).1.2) = stdin (con (m w s).1.2)
  ∧ prompts (con (catch (m ≫= k) h w s).1.2) = prompts (con (m w s).1.2).
Proof.
  intros Hk Hh. unfold catch, mbind, M_bind.
  destruct (m w s) as [[[a|e|] w1] s1]; cbn [fst snd]; [|apply Hh|done].
  destruct (Hk a w1 s1) as (H1 & H2 & H3).
  destruct (k a w1 s1) as [[[v|e|] w2] s2]; cbn [fst snd] in *;
    [done| |done].
  destruct (Hh e w2 s2) as (H1' & H2' & H3'). split_and!; congruence.
Qed.

(** X18. Only credential resolution touches the credential manager and the
    console: after [execute_tool], the manager, the pending input and the
    prompt count are those credential resolution left.  In particular, when
    the arguments carry both an [api_key] and a [token], the manager is not
    consulted and not updated (the explicit pair is not cached), nothing is
    read and no prompt is shown. *)
Theorem only_resolution_touches_manager (tool_name : pyval)
    (args : gmap string pyval) (w : World) (s : t) :
  let r := execute_tool L tool_name (VDict args) w s in
  let resolved := resolve_credentials args w s in
  (credential_manager r.2 = credential_manager resolved.2
   ∧ stdin (con r.1.2) = stdin (con resolved.1.2)
   ∧ prompts (con r.1.2) = prompts (con resolved.1.2))
  ∧ (truthy (dict_get args "api_key") = true →
     truthy (dict_get args "token") = true →
     credential_manager r.2 = credential_manager s
     ∧ stdin (con r.1.2) = stdin (con w)
     ∧ prompts (con r.1.2) = prompts (con w)).
Proof.
  intros r resolved.
  assert (Hmain : credential_manager r.2 = credential_manager resolved.2
                  ∧ stdin (con r.1.2) = stdin (con resolved.1.2)
                  ∧ prompts (con r.1.2) = prompts (con resolved.1.2)).
  { subst r resolved. unfold execute_tool.
    apply catch_bind_keeps; [|intros e; apply keeps_mret].
    intros [api_key token].
    apply keeps_bind; [apply keeps_lift|intros credentials].
    apply keeps_bind.
    { apply keeps_with_client. intros cm.
      unfold TrelloClient.validate_credentials.
      apply keeps_catch_api; [|intros e; apply keeps_mret].
      apply keeps_bind; [apply keeps_make_request|intros v; apply keeps_mret]. }
    intros verdict.
    apply keeps_if; [apply keeps_mret|apply dispatch_keeps_manager]. }
  split; [exact Hmain|].
  intros Hkey Htoken. destruct Hmain as (H1 & H2 & H3).
  rewrite H1, H2, H3. subst resolved. unfold resolve_credentials.
  by rewrite Hkey, Htoken.
Qed.

End ToolsFrame.

Section ToolsHandlers.
Import Schemas TrelloTools TrelloToolsMore CatalogMore.
Variable L : Lib.

(** X19. An upstream failure becomes a readable tool result: when the call
    of [get_board] went out and the upstream answered with a status other
    than 200, or the connection failed, the handler returns a payload
    flagged [isError] whose text is "Failed to get board: " followed by the
    error message (for 404, "Not found - the requested resource does not
    exist"); nothing is retried. *)
Theorem upstream_failure_becomes_error_payload
    (credentials : TrelloCredentials) (args : gmap string pyval)
    (w w' : World) (s s' : t) :
  with_client TrelloClient.acquire w s = (Ok (), w', s') →
  let q := TrelloClient.board_request L credentials
             (dict_get args "board_id") in
  let after := mkWorld (con w') (upstream w) (sent w ++ [q]) in
  (∀ status text json,
     upstream w q = Response status text json → status ≠ 200 →
     ∃ message,
       _get_board L credentials args w s
       = (Ok (error_result ("❌ Failed to get board: " ++ message)),
          after, s')
       ∧ (status = 404 →
          message = "Not found - the requested resource does not exist"))
  ∧ (∀ message,
       upstream w q = ClientError message →
       _get_board L credentials args w s
       = (Ok (error_result
                ("❌ Failed to get board: Network error: " ++ message)),
          after, s')).
Proof.
  intros Hacq q after.
  destruct (with_client_acquire_ok _ _ _ _ Hacq)
    as (Hup & Hsent & _ & c' & -> & Hacq').
  split; [intros status text json Hreply Hne|intros message Hreply];
    unfold _get_board, catch_api, mbind, M_bind, with_client,
      TrelloClient.get_board, TrelloClient._make_request, mbind, M_bind,
      TrelloClient.send;
    rewrite Hacq', Hup, Hsent;
    change (mkRequest "GET" _ _ VNone) with q; rewrite Hreply; [|done].
  rewrite decide_False by done.
  repeat case_decide; eexists; (split; [reflexivity|]); intros; try lia; done.
Qed.

(** X20. A malformed due date stops a card operation before anything else:
    when [due] is a non-empty string that [datetime.fromisoformat] does not
    accept, [create_card] and [update_card] return the "Invalid due date
    format" payload at once; no request model is validated, no call goes
    upstream, and the world and the dispatcher are untouched. *)
Theorem malformed_due_date_stops_card_operation
    (credentials : TrelloCredentials) (args : gmap string pyval)
    (due : string) (w : World) (s : t) :
  due ≠ "" →
  args !! "due" = Some (VStr due) →
  fromisoformat L (replace_Z due) = None →
  _create_card L credentials args w s
  = (Ok (error_result
           "❌ Invalid due date format. Use ISO format (e.g., 2024-01-01T12:00:00Z)"),
     w, s)
  ∧ _update_card L credentials args w s
    = (Ok (error_result
             "❌ Invalid due date format. Use ISO format (e.g., 2024-01-01T12:00:00Z) or null to remove"),
       w, s).
Proof.
  intros Hne Hdue Hparse. split.
  - unfold _create_card, dict_get. rewrite Hdue. simpl.
    rewrite bool_decide_true by done.
    unfold catch_api, mbind, M_bind, lift, parse_due. by rewrite Hparse.
  - unfold _update_card. rewrite Hdue. simpl.
    rewrite bool_decide_false by done.
    unfold catch_api, mbind, M_bind, lift, parse_due. by rewrite Hparse.
Qed.

(** X21. Cards are fetched from a list or from a board, the list first.
    With neither id present (missing, null or empty), [get_cards] answers
    "Failed to get cards: Either board_id or list_id must be provided"
    without consulting the rate limiter or the upstream.  With a list id,
    the call that goes out, if any, asks for [lists/<list_id>/cards],
    whatever the board id. *)
Theorem cards_come_from_list_or_board
    (credentials : TrelloCredentials) (args : gmap string pyval)
    (w : World) (s : t) :
  (truthy (dict_get args "list_id") = false →
   truthy (dict_get args "board_id") = false →
   _get_cards L credentials args w s
   = (Ok (error_result
            "❌ Failed to get cards: Either board_id or list_id must be provided"),
      w, mk (Some (default TrelloClient.init (client s)))
            (credential_manager s)))
  ∧ (truthy (dict_get args "list_id") = true →
     sent (_get_cards L credentials args w s).1.2 = sent w
     ∨ ∃ q, sent (_get_cards L credentials args w s).1.2 = sent w ++ [q]
            ∧ http_url q
              = String.append "https://api.trello.com/1/lists/"
                  (String.append (py_str L (dict_get args "list_id"))
                     "/cards")).
Proof.
  split.
  - intros Hlist Hboard.
    unfold _get_cards, catch_api, mbind, M_bind, with_client,
      TrelloClient.get_cards.
    by rewrite Hlist, Hboard.
  - intros Hlist.
    unfold _get_cards, catch_api, mbind, M_bind, with_client,
      TrelloClient.get_cards.
    rewrite Hlist.
    unfold TrelloClient._make_request, mbind, M_bind, TrelloClient.acquire,
      TrelloClient.send.
    destruct (RateLimiter.acquire _ _ _) as [[o now] rl].
    destruct o; cbn [set_con con upstream sent]; try (by left).
    right. eexists. cbn [default].
    destruct (upstream w _) as [status text json|message|e];
      [repeat case_decide| |destruct e]; simpl;
      unfold rendered, mbind, M_bind, lift;
      try destruct (render L _ _ _) as [?|[]|]; simpl; eauto.
Qed.

(** X22. The catalog and the dispatch chain agree with each other and with
    the promise that credentials are optional: the eleven tool names are
    distinct; every entry declares [api_key] and [token] without requiring
    them and declares every parameter it requires; and a call naming any
    entry is routed to one of the eleven handlers, never to the "Unknown
    tool" branch. *)
Theorem catalog_agrees_with_dispatch
    (credentials : TrelloCredentials) (args : gmap string pyval) :
  NoDup Catalog.names
  ∧ length Catalog.names = 11%nat
  ∧ (∀ name, name ∈ Catalog.names →
       entry_ok name = true
       ∧ dispatch L (VStr name) credentials args
         ∈ handlers L credentials args).
Proof.
  split_and!.
  - apply (bool_decide_unpack _). vm_compute. exact I.
  - reflexivity.
  - intros name Hname. unfold Catalog.names in Hname. simpl in Hname.
    repeat (apply elem_of_cons in Hname as [->|Hname]);
      [..|by apply elem_of_nil in Hname];
      (split; [vm_compute; reflexivity|]);
      unfold handlers;
      repeat first [apply list_elem_of_here | apply list_elem_of_further].
Qed.

End ToolsHandlers.

Section ServerMore.
Import TrelloMCPServer TrelloMCPServerMore TrelloToolsMore.
Variable L : Lib.

Lemma handle_initialize_frame (request_id params : pyval) (w : World)
    (s : t) :
  ∃ response, _handle_initialize L request_id params w s = (Ok response, w, s).
Proof.
  unfold _handle_initialize, catch, mbind, M_bind, lift, mret, M_ret.
  destruct (py_get params "protocolVersion" VNone) as [pv|e|] eqn:Hpv;
    [|eauto|by destruct params].
  destruct (py_get params "clientInfo" (VDict ∅)) as [ci|e|] eqn:Hci;
    [|eauto|by destruct params].
  destruct (negb (eq_str pv supported_version)); eauto.
Qed.

Lemma handle_request_answers (request : gmap string pyval) (w : World)
    (s : t) :
  answers (dict_get request "id") (handle_request L request w s).
Proof.
  unfold answers, handle_request, catch.
  destruct (eq_str (dict_get request "method") "initialize").
  { destruct (handle_initialize_frame (dict_get request "id")
                (dict_get_default request "params" (VDict ∅)) w s)
      as (response & Hr).
    destruct (handle_initialize_answers L (dict_get request "id")
                (dict_get_default request "params" (VDict ∅)) w s)
      as (response' & Hr' & Hwf).
    rewrite Hr in Hr' |- *. simpl in *. by simplify_eq. }
  destruct (eq_str (dict_get request "method") "tools/list").
  { simpl. apply result_response_well_formed. }
  destruct (eq_str (dict_get request "method") "tools/call").
  { pose proof (handle_tool_call_answers L (dict_get request "id")
                  (dict_get_default request "params" (VDict ∅)) w s) as Ha.
    unfold answers in Ha.
    by destruct (_handle_tool_call _ _ _ _ _) as [[[r|e|] w'] s']. }
  destruct (eq_str (dict_get request "method") "resources/list").
  { simpl. apply result_response_well_formed. }
  destruct (eq_str (dict_get request "method") "prompts/list").
  { simpl. apply result_response_well_formed. }
  simpl. apply error_response_well_formed.
Qed.

Lemma tool_call_without_name (request params : gmap string pyval)
    (w : World) (s : t) :
  dict_get request "method" = VStr "tools/call" →
  dict_get_default request "params" (VDict ∅) = VDict params →
  truthy (dict_get params "name") = false →
  handle_request L request w s
  = (Ok (_create_error_response (dict_get request "id") (-32602)
           "Tool name is required"), w, s).
Proof.
  intros Hm Hp Hname. unfold handle_request, catch. rewrite Hm, Hp. simpl.
  unfold _handle_tool_call, catch, mbind, M_bind, lift. simpl.
  unfold dict_get in Hname. unfold dict_get_default. by rewrite Hname.
Qed.

Lemma tool_call_without_tools (request params : gmap string pyval)
    (w : World) (s : t) :
  dict_get request "method" = VStr "tools/call" →
  dict_get_default request "params" (VDict ∅) = VDict params →
  truthy (dict_get params "name") = true →
  tools s = None →
  handle_request L request w s
  = (Ok (_create_error_response (dict_get request "id") (-32603)
           "Tools not initialized"), w, s).
Proof.
  intros Hm Hp Hname Htools. unfold handle_request, catch.
  rewrite Hm, Hp. simpl.
  unfold _handle_tool_call, catch, mbind, M_bind, lift. simpl.
  unfold dict_get in Hname. unfold dict_get_default.
  rewrite Hname. simpl. by rewrite Htools.
Qed.

(** X23. Only a tool call has effects.  For every request whose method is
    not [tools/call] the handler produces a response and leaves the world
    (console, upstream traffic) and the server as they were; when the method
    is none of the five the server knows, the response is the error -32601
    "Method not found: <method>". *)
Theorem only_tool_calls_have_effects (request : gmap string pyval)
    (w : World) (s : t) :
  eq_str (dict_get request "method") "tools/call" = false →
  (∃ response, handle_request L request w s = (Ok response, w, s))
  ∧ (eq_str (dict_get request "method") "initialize" = false →
     eq_str (dict_get request "method") "tools/list" = false →
     eq_str (dict_get request "method") "resources/list" = false →
     eq_str (dict_get request "method") "prompts/list" = false →
     handle_request L request w s
     = (Ok (_create_error_response (dict_get request "id") (-32601)
              (String.append "Method not found: "
                 (py_str L (dict_get request "method")))), w, s)).
Proof.
  intros Hcall. split.
  - unfold handle_request, catch. rewrite Hcall.
    destruct (eq_str (dict_get request "method") "initialize").
    { destruct (handle_initialize_frame (dict_get request "id")
                  (dict_get_default request "params" (VDict ∅)) w s)
        as (response & ->). eauto. }
    repeat match goal with |- context [if ?b then _ else _] =>
      destruct b end; simpl; eauto.
  - intros Hi Hl Hr Hp. unfold handle_request, catch.
    by rewrite Hcall, Hi, Hl, Hr, Hp.
Qed.

(** X24. A tool call is turned away, without any effect, before the
    dispatcher is reached: with [params] an object whose [name] is missing,
    null or empty the response is the error -32602 "Tool name is required";
    with a name, on a server whose tools were never built, it is the error
    -32603 "Tools not initialized".  The name is checked first. *)
Theorem tool_call_needs_name_and_tools (request params : gmap string pyval)
    (w : World) (s : t) :
  dict_get request "method" = VStr "tools/call" →
  dict_get_default request "params" (VDict ∅) = VDict params →
  (truthy (dict_get params "name") = false →
   handle_request L request w s
   = (Ok (_create_error_response (dict_get request "id") (-32602)
            "Tool name is required"), w, s))
  ∧ (truthy (dict_get params "name") = true →
     tools s = None →
     handle_request L request w s
     = (Ok (_create_error_response (dict_get request "id") (-32603)
              "Tools not initialized"), w, s)).
Proof.
  intros Hm Hp. split; intros.
  - by eapply tool_call_without_name.
  - by eapply tool_call_without_tools.
Qed.

(** X25. Tool failures are reported in band.  Once a tool call has a name
    and the server has its tools, the response, when there is one, is a
    JSON-RPC [result] whose value is a tool result (one text item, flagged
    [isError] or not): invalid credentials, unknown tools, validation and
    upstream failures never become a JSON-RPC [error]. *)
Theorem tool_failures_are_reported_in_band
    (request params : gmap string pyval) (tl : TrelloTools.t)
    (w : World) (s : t) :
  dict_get request "method" = VStr "tools/call" →
  dict_get_default request "params" (VDict ∅) = VDict params →
  truthy (dict_get params "name") = true →
  tools s = Some tl →
  match (handle_request L request w s).1.1 with
  | Ok response =>
    ∃ v, response = result_response (dict_get request "id") v ∧ payload v
  | Raise _ => False
  | Hang => True
  end.
Proof.
  intros Hm Hp Hname Htools. unfold handle_request, catch.
  rewrite Hm, Hp. simpl.
  unfold _handle_tool_call, catch, mbind, M_bind, lift. simpl.
  unfold dict_get in Hname. unfold dict_get_default.
  rewrite Hname. simpl. rewrite Htools. unfold with_tools.
  match goal with |- context [TrelloTools.execute_tool L ?n ?a w tl] =>
    pose proof (execute_tool_never_raises L n a w tl) as Hnr;
    pose proof (execute_tool_gives_payload L n a w tl) as Hpl;
    destruct (TrelloTools.execute_tool L n a w tl) as [[[v|e|] w'] tl']
  end; simpl in *; [eauto|by destruct (Hnr e)|done].
Qed.

(** X26. [cleanup] does not stop the service: it only clears the
    [initialized] flag, which no handler reads, so a request handled after
    [cleanup] gets the same response and has the same effects as before
    it. *)
Theorem cleanup_does_not_stop_service (request : gmap string pyval)
    (w : World) (s : t) :
  handle_request L request w (cleanup s)
  = ((handle_request L request w s).1.1,
     (handle_request L request w s).1.2,
     cleanup (handle_request L request w s).2).
Proof.
  unfold handle_request, catch.
  repeat match goal with |- context [if eq_str ?v ?m then _ else _] =>
    destruct (eq_str v m) end; try done.
  - unfold _handle_initialize, catch, mbind, M_bind, lift.
    destruct (py_get _ "protocolVersion" VNone) as [pv|e|]; simpl; try done.
    destruct (py_get _ "clientInfo" (VDict ∅)) as [ci|e|]; simpl; try done.
    by destruct (negb (eq_str pv supported_version)).
  - unfold _handle_tool_call, catch, mbind, M_bind, lift.
    destruct (py_get _ "name" VNone) as [name|e|]; simpl; try done.
    destruct (py_get _ "arguments" (VDict ∅)) as [args|e|]; simpl; try done.
    destruct (negb (truthy name)); simpl; try done.
    destruct (tools s) as [tl|]; simpl; try done.
    unfold with_tools.
    by destruct (TrelloTools.execute_tool L name args w tl)
      as [[[v|e|] w'] tl'].
Qed.

(** X27. The two tool listings agree: the list [get_available_tools]
    returns is the one a [tools/list] response carries; it has the eleven
    catalog entries once the tools are built and is empty before. *)
Theorem tool_listings_agree (request_id : pyval) (w : World) (s : t) :
  _handle_tools_list request_id w s
  = (Ok (result_response request_id
           (VDict {[ "tools" := VList (get_available_tools s) ]})), w, s)
  ∧ length (get_available_tools s)
    = match tools s with Some _ => 11%nat | None => 0%nat end.
Proof.
  unfold _handle_tools_list, get_available_tools.
  destruct (tools s) as [tl|]; [|done].
  split; [|reflexivity].
  by repeat f_equal.
Qed.

End ServerMore.

Section MainFacts.
Import TrelloMCPServer Main.
Variable L : Lib.
Variable json_loads : string → res pyval.

Lemma endpoint_passes_request (body : string)
    (request : gmap string pyval) (server : t) (w : World) :
  body ≠ "" →
  json_loads body = Ok (VDict request) →
  request !! "jsonrpc" = Some (VStr "2.0") →
  is_Some (request !! "method") →
  handle_mcp_request L json_loads body w (Some server)
  = match handle_request L request w server with
    | (Ok response, w', server') =>
      (Ok (JSONResponse 200 response), w', Some server')
    | (Raise e, w', server') =>
      (Ok (JSONResponse 500 (error_response e (dict_get request "id"))),
       w', Some server')
    | (Hang, w', server') => (Hang, w', Some server')
    end.
Proof.
  intros Hbody Hloads Hrpc Hmethod. unfold handle_mcp_request.
  rewrite bool_decide_false by done. rewrite Hloads, Hrpc. simpl.
  by rewrite bool_decide_true by done.
Qed.

(** X28. The [/mcp] endpoint, on a running server.
    - An empty body, a body on which [json.loads] raises a
      [JSONDecodeError], a JSON value that is not an object, an object whose
      [jsonrpc] is missing or not "2.0", and one without a [method] key are
      refused with status 400, before the protocol handler runs and without
      any effect.
    - A body on which [json.loads] raises anything else (a
      [UnicodeDecodeError] for bytes that are not UTF-8, which is not a
      [JSONDecodeError]) is answered with status 500 and the JSON-RPC error
      -32603 "Internal error" with a null id, also without any effect.
    - Every other body reaches the protocol handler, and the answer, when
      there is one, has status 200 and is a well-formed JSON-RPC response
      echoing the request's id, also when it reports an error: the 500
      branch is never taken for a body that parsed. *)
Theorem mcp_endpoint_refuses_or_answers (body : string) (server : t)
    (w : World) :
  let r := handle_mcp_request L json_loads body w (Some server) in
  (body = "" →
   r = (Ok (HTTPException 400 "Request body is required"), w, Some server))
  ∧ (body ≠ "" →
     (∀ message,
        json_loads body = Raise (PyError "JSONDecodeError" message) →
        r = (Ok (HTTPException 400 (String.append "Invalid JSON: " message)),
             w, Some server))
     ∧ (∀ e,
          json_loads body = Raise e →
          (∀ message, e ≠ PyError "JSONDecodeError" message) →
          r = (Ok (JSONResponse 500 (error_response e VNone)), w,
               Some server)
          ∧ error_response e VNone !! "id" = Some VNone
          ∧ error_response e VNone !! "error"
            = Some (VDict {[ "code" := VInt (-32603);
                             "message" := VStr "Internal error";
                             "data" := VStr (str_exn e) ]}))
     ∧ (∀ v,
          json_loads body = Ok v →
          (∀ request, v = VDict request →
             request !! "jsonrpc" ≠ Some (VStr "2.0")
             ∨ request !! "method" = None) →
          ∃ detail, r = (Ok (HTTPException 400 detail), w, Some server))
     ∧ (∀ request,
          json_loads body = Ok (VDict request) →
          request !! "jsonrpc" = Some (VStr "2.0") →
          is_Some (request !! "method") →
          match r.1.1 with
          | Ok reply =>
            ∃ response,
              reply = JSONResponse 200 response
              ∧ well_formed (dict_get request "id") response
          | Raise _ => False
          | Hang => True
          end)).
Proof.
  intros r. subst r. split_and!.
  - intros ->. done.
  - intros Hbody. split_and!.
    + intros message Hloads. unfold handle_mcp_request.
      rewrite bool_decide_false by done. by rewrite Hloads.
    + intros e Hloads Hother. split; [|done].
      unfold handle_mcp_request.
      rewrite bool_decide_false by done. rewrite Hloads.
      destruct e as [m st rd|cls message]; [done|].
      rewrite bool_decide_false; [done|]. intros ->. by eapply Hother.
    + intros v Hloads Hgate. unfold handle_mcp_request.
      rewrite bool_decide_false by done. rewrite Hloads.
      destruct v as [| | | | | |request]; eauto.
      destruct (Hgate request eq_refl) as [Hrpc|Hmethod].
      * destruct (request !! "jsonrpc") as [v|] eqn:Hv; simpl; eauto.
        destruct (eq_str v "2.0") eqn:Heq; simpl; eauto.
        apply eq_str_true in Heq. congruence.
      * destruct (negb _); eauto.
        rewrite Hmethod, bool_decide_false by (by intros [? ?]). eauto.
    + intros request Hloads Hrpc Hmethod.
      rewrite (endpoint_passes_request _ _ _ _ Hbody Hloads Hrpc Hmethod).
      pose proof (handle_request_answers L request w server) as Ha.
      unfold answers in Ha.
      destruct (handle_request L request w server) as [[[response|e|] w'] s'];
        simpl in *; [eauto|done|done].
Qed.

(** X29. With the configuration as [config.py] defines it the server comes
    up without its tools.  [CredentialManager.__init__] reads
    [config.TRELLO_USERNAME], an attribute [class Config] does not have, so
    [TrelloTools()] fails inside [initialize()]; start-up drops the failure
    and keeps the server as constructed.  Every named tool call that then
    passes the endpoint's checks is answered, with status 200 and without
    any effect, by the error -32603 "Tools not initialized". *)
Theorem server_starts_without_tools (config : Config.t) (now : Z) :
  Config.as_defined config →
  lifespan config now = Some TrelloMCPServer.init
  ∧ ∀ (body : string) (request params : gmap string pyval) (w : World),
      body ≠ "" →
      json_loads body = Ok (VDict request) →
      request !! "jsonrpc" = Some (VStr "2.0") →
      request !! "method" = Some (VStr "tools/call") →
      dict_get_default request "params" (VDict ∅) = VDict params →
      truthy (dict_get params "name") = true →
      handle_mcp_request L json_loads body w (lifespan config now)
      = (Ok (JSONResponse 200
               (_create_error_response (dict_get request "id") (-32603)
                  "Tools not initialized")),
         w, lifespan config now).
Proof.
  intros Hconfig.
  assert (Hstart : lifespan config now = Some TrelloMCPServer.init).
  { unfold lifespan, initialize, new_TrelloTools, Config.getattr.
    destruct (config !! "TRELLO_USERNAME") as [v|] eqn:Hu; [|done].
    assert (Hin : "TRELLO_USERNAME" ∈ Config.attributes)
      by (apply Hconfig; eauto).
    unfold Config.attributes in Hin.
    repeat (apply elem_of_cons in Hin as [Hin|Hin]; [discriminate Hin|]).
    by apply elem_of_nil in Hin. }
  split; [done|].
  intros body request params w Hbody Hloads Hrpc Hmethod Hparams Hname.
  rewrite Hstart.
  rewrite (endpoint_passes_request body request _ _ Hbody Hloads Hrpc)
    by eauto.
  rewrite (tool_call_without_tools L request params w TrelloMCPServer.init);
    try done.
  unfold dict_get. by rewrite Hmethod.
Qed.

End MainFacts.

Section ClientRuns.
Import Schemas TrelloClient TrelloClientMore Demo DemoMore.

(** Surrounding blanks of a key, also those outside ASCII, are dropped when
    the model is built; a key that is one EM SPACE is refused. *)
Lemma built_models_hold_clean_text_witness :
  let c := mkTrelloCredentials "key" "token" in
  let padded := String.append nbsp (String.append " key " em_space) in
  new_TrelloCredentials lib (VStr padded) (VStr "token") = Ok c
  ∧ Schemas.api_key c = strip padded
  ∧ rejected (new_TrelloCredentials lib (VStr em_space) (VStr "token")).
Proof.
  intros c padded.
  assert (H : new_TrelloCredentials lib (VStr padded) (VStr "token") = Ok c)
    by reflexivity.
  split_and!; [exact H| |].
  - destruct (built_models_hold_clean_text lib) as [Hc _].
    destruct (Hc _ _ _ H) as (_ & _ & Hk & _). exact (Hk _ eq_refl).
  - unfold rejected. eexists _, _. reflexivity.
Defined.

(** The limit on a name counts characters, not bytes. *)
Example long_name_is_built :
  py_len long_name = 8193
  ∧ Z.of_nat (String.length long_name) = 16386
  ∧ ∃ request,
      new_CreateCardRequest lib (VStr long_name) (VStr "l1") VNone VNone None
        VNone VNone = Ok request
      ∧ cc_name request = long_name.
Proof.
  split_and!; [vm_compute; reflexivity..|].
  eexists. split; vm_compute; reflexivity.
Qed.

(** The caller's own parameter travels beside the credentials. *)
Lemma one_request_with_credentials_witness :
  http_params (outgoing "GET" "members/me" credentials
                 (Some {[ "fields" := VStr "id" ]})) !! "fields"
  = Some (VStr "id").
Proof.
  pose proof (one_request_with_credentials "GET" "members/me" credentials
                (Some {[ "fields" := VStr "id" ]}) (idle accepts_all) init)
    as H.
  cbv zeta in H. destruct H as (_ & _ & _ & _ & _ & _ & Hk).
  rewrite Hk; [reflexivity|discriminate|discriminate].
Defined.

(** A 404 of the upstream is raised with the client's wording. *)
Lemma replies_classified_by_status_witness :
  (_make_request "GET" "boards/b1" credentials None (idle finds_nothing)
     init).1.1
  = Raise (TrelloAPIError "Not found - the requested resource does not exist"
             (Some 404) (Some "not found")).
Proof.
  epose proof (replies_classified_by_status "GET" "boards/b1" credentials
                 None (idle finds_nothing) _ init _ eq_refl) as H.
  cbv zeta in H. destruct H as [H _].
  destruct (H 404 "not found" None eq_refl) as [_ H'].
  destruct H' as (message & Hr & _ & _ & H404 & _); [done|].
  rewrite Hr, (H404 eq_refl). reflexivity.
Defined.

(** A 401 on the validation call is a verdict, not an exception. *)
Lemma validation_turns_errors_into_verdicts_witness :
  ∃ verdict,
    (validate_credentials credentials (idle rejects_all) init).1.1
    = Ok verdict
    ∧ verdict !! "valid" = Some (VBool false).
Proof.
  pose proof (validation_turns_errors_into_verdicts credentials
                (idle rejects_all) init) as H.
  cbv zeta in H. destruct H as [_ H].
  edestruct H as (verdict & Hr & Hv & _); [reflexivity|].
  exists verdict. split; [exact Hr|exact Hv].
Defined.

Lemma preferences_are_flattened_witness :
  add_prefs (Some {[ "background" := VStr "blue" ]})
    {[ "name" := VStr "Roadmap" ]} !! "prefs_background"
  = Some (VStr "blue").
Proof.
  apply (proj1 (preferences_are_flattened {[ "background" := VStr "blue" ]}
                  {[ "name" := VStr "Roadmap" ]}) "background" (VStr "blue")).
  reflexivity.
Defined.

(** An upstream that answers with an object instead of a list. *)
Lemma listings_return_lists_witness :
  (list_boards credentials (idle accepts_all) init).1.1 = Ok (VList [])
  ∧ ∃ l, VList [] = VList l.
Proof.
  split; [reflexivity|].
  apply (proj1 (listings_return_lists lib credentials VNone VNone
                  (idle accepts_all) init (VList []))).
  reflexivity.
Defined.

Lemma search_limit_bounded_witness :
  ∃ n, 1 ≤ n ≤ 1000 ∧ n = 50.
Proof.
  edestruct (search_limit_bounded lib (VStr "bug") VNone VNone)
    with (credentials := credentials) as (n & Hn & H50 & _);
    [reflexivity|].
  exists n. split; [exact Hn|exact (H50 eq_refl)].
Defined.

End ClientRuns.

Section ToolsRuns.
Import Schemas TrelloTools TrelloToolsMore CatalogMore Demo DemoMore.

(** A call that brings its own credentials leaves the manager as it was. *)
Lemma only_resolution_touches_manager_witness :
  credential_manager
    (execute_tool lib (VStr "list_boards")
       (VDict {[ "api_key" := VStr key32; "token" := VStr token32 ]})
       (idle accepts_all) fresh_tools).2
  = credential_manager fresh_tools.
Proof.
  pose proof (only_resolution_touches_manager lib (VStr "list_boards")
                {[ "api_key" := VStr key32; "token" := VStr token32 ]}
                (idle accepts_all) fresh_tools) as H.
  cbv zeta in H. destruct H as [_ H].
  destruct H as (Hcm & _); [reflexivity|reflexivity|exact Hcm].
Defined.

Lemma upstream_failure_becomes_error_payload_witness :
  (_get_board lib credentials {[ "board_id" := VStr "b1" ]}
     (idle finds_nothing) fresh_tools).1.1
  = Ok (error_result
          "❌ Failed to get board: Not found - the requested resource does not exist").
Proof.
  epose proof (upstream_failure_becomes_error_payload lib credentials
                 {[ "board_id" := VStr "b1" ]} (idle finds_nothing) _
                 fresh_tools _ eq_refl) as H.
  cbv zeta in H. destruct H as [H _].
  destruct (H 404 "not found" None eq_refl) as (message & Hr & H404);
    [done|].
  rewrite Hr, (H404 eq_refl). reflexivity.
Defined.

Lemma malformed_due_date_stops_card_operation_witness :
  _create_card strict credentials
    {[ "name" := VStr "Write report"; "list_id" := VStr "l1";
       "due" := VStr "tomorrow" ]}
    (idle accepts_all) fresh_tools
  = (Ok (error_result
           "❌ Invalid due date format. Use ISO format (e.g., 2024-01-01T12:00:00Z)"),
     idle accepts_all, fresh_tools).
Proof.
  apply (malformed_due_date_stops_card_operation strict credentials
           {[ "name" := VStr "Write report"; "list_id" := VStr "l1";
              "due" := VStr "tomorrow" ]} "tomorrow");
    [discriminate|reflexivity|reflexivity].
Defined.

Lemma cards_come_from_list_or_board_witness :
  _get_cards lib credentials ∅ (idle accepts_all) fresh_tools
  = (Ok (error_result
           "❌ Failed to get cards: Either board_id or list_id must be provided"),
     idle accepts_all,
     mk (Some TrelloClient.init) (credential_manager fresh_tools)).
Proof.
  apply (proj1 (cards_come_from_list_or_board lib credentials ∅
                  (idle accepts_all) fresh_tools)); reflexivity.
Defined.

Lemma catalog_agrees_with_dispatch_witness :
  entry_ok "create_card" = true.
Proof.
  destruct (catalog_agrees_with_dispatch lib credentials ∅) as (_ & _ & H).
  destruct (H "create_card") as [Hok _]; [|exact Hok].
  vm_compute.
  repeat first [apply list_elem_of_here | apply list_elem_of_further].
Defined.

End ToolsRuns.

Section ServerRuns.
Import TrelloMCPServer TrelloMCPServerMore TrelloToolsMore Main Demo DemoMore.

Lemma only_tool_calls_have_effects_witness :
  handle_request lib {[ "method" := VStr "ping"; "id" := VInt 1 ]}
    (idle accepts_all) server
  = (Ok (_create_error_response (VInt 1) (-32601) "Method not found: ping"),
     idle accepts_all, server).
Proof.
  destruct (only_tool_calls_have_effects lib
              {[ "method" := VStr "ping"; "id" := VInt 1 ]}
              (idle accepts_all) server) as [_ H]; [reflexivity|].
  exact (H eq_refl eq_refl eq_refl eq_refl).
Defined.

Lemma tool_call_needs_name_and_tools_witness :
  handle_request lib {[ "method" := VStr "tools/call"; "id" := VInt 2 ]}
    (idle accepts_all) server
  = (Ok (_create_error_response (VInt 2) (-32602) "Tool name is required"),
     idle accepts_all, server).
Proof.
  destruct (tool_call_needs_name_and_tools lib
              {[ "method" := VStr "tools/call"; "id" := VInt 2 ]} ∅
              (idle accepts_all) server) as [H _];
    [reflexivity|reflexivity|].
  exact (H eq_refl).
Defined.

(** Nobody at the console and nothing cached: the failure to obtain
    credentials comes back as a result. *)
Lemma tool_failures_are_reported_in_band_witness :
  match (handle_request lib call (idle accepts_all) server).1.1 with
  | Ok response => ∃ v, response = result_response (VInt 7) v ∧ payload v
  | Raise _ => False
  | Hang => True
  end.
Proof.
  apply (tool_failures_are_reported_in_band lib call
           {[ "name" := VStr "list_boards" ]} fresh_tools
           (idle accepts_all) server); reflexivity.
Defined.

Lemma mcp_endpoint_refuses_or_answers_witness :
  handle_mcp_request lib json_loads "" (idle accepts_all) (Some server)
  = (Ok (HTTPException 400 "Request body is required"), idle accepts_all,
     Some server)
  ∧ (∃ content,
       handle_mcp_request lib json_loads "<not utf-8>" (idle accepts_all)
         (Some server)
       = (Ok (JSONResponse 500 content), idle accepts_all, Some server))
  ∧ match (handle_mcp_request lib json_loads "<call>" (idle accepts_all)
             (Some server)).1.1 with
    | Ok reply =>
      ∃ response,
        reply = JSONResponse 200 response ∧ well_formed (VInt 7) response
    | Raise _ => False
    | Hang => True
    end.
Proof.
  split_and!.
  - pose proof (mcp_endpoint_refuses_or_answers lib json_loads ""
                  server (idle accepts_all)) as H.
    cbv zeta in H. destruct H as [H _]. exact (H eq_refl).
  - pose proof (mcp_endpoint_refuses_or_answers lib json_loads
                  "<not utf-8>" server (idle accepts_all)) as H.
    cbv zeta in H. destruct H as [_ H].
    destruct H as (_ & H & _); [discriminate|].
    edestruct H as [Hr _]; [reflexivity|discriminate|].
    eexists. exact Hr.
  - pose proof (mcp_endpoint_refuses_or_answers lib json_loads "<call>"
                  server (idle accepts_all)) as H.
    cbv zeta in H. destruct H as [_ H].
    destruct H as (_ & _ & _ & H); [discriminate|].
    exact (H call eq_refl eq_refl (mk_is_Some _ _ eq_refl)).
Defined.

Lemma server_starts_without_tools_witness :
  lifespan config 0 = Some TrelloMCPServer.init
  ∧ handle_mcp_request lib json_loads "<call>" (idle accepts_all)
      (lifespan config 0)
    = (Ok (JSONResponse 200
             (_create_error_response (VInt 7) (-32603)
                "Tools not initialized")),
       idle accepts_all, lifespan config 0).
Proof.
  destruct (server_starts_without_tools lib json_loads config 0)
    as [Hstart Hcall].
  - intros name [v Hv]. apply elem_of_map_to_list in Hv.
    vm_compute in Hv.
    repeat (apply elem_of_cons in Hv as [Hv|Hv];
            [injection Hv as -> _; vm_compute;
             repeat first [apply list_elem_of_here
                          | apply list_elem_of_further]|]).
    by apply elem_of_nil in Hv.
  - split; [exact Hstart|].
    apply (Hcall "<call>" call {[ "name" := VStr "list_boards" ]}
             (idle accepts_all)); (discriminate || reflexivity).
Defined.

End ServerRuns.
